(** * Dataset playback (robocasa/scripts/playback_dataset.py)

    A shallow embedding of the playback script: the per-episode playback
    loops, the scene loader [reset_to], the per-episode driver
    [process_demo] and the run driver [playback_dataset].

    Python integers are [Z].  Exceptions are values of [exn]; every
    computation of the script is a value of the writer-with-errors monad
    [T]: the trace of observable effects performed so far (prints, calls
    into the simulator, frames handed to the video writer) together with
    either the raised exception or the returned value.

    The simulator, numpy on state vectors, JSON decoding and the HDF5
    file system are collaborators of the script.  They are the fields of
    the classes [Backend] and [World].  A call into the simulator is
    taken to return; what the script itself can raise (assertions,
    indexing, missing keys, [None] where a value is needed, a modulus of
    zero, [random.randrange] on an empty range, [np.concatenate] of
    nothing, a method of a viewer that is [None], a numeral [int]
    refuses) is modelled.  Of the simulator two facts are assumed, laws
    of [Backend]: [env.initialize_renderer()] binds [env.viewer], and
    updating the viewer leaves it bound.  The environment is an object
    the script mutates in place: here every function that touches it
    takes the environment and returns the new one.  The random generator is
    outside the model: each call that draws takes the raw integer the
    generator supplies.  Wall-clock pacing of the on-screen viewer
    ([time.time], [time.sleep]) has no counterpart here. *)

From Stdlib Require Import ZArith List String Ascii Bool Lia Permutation Sorted.
Import ListNotations.
Open Scope string_scope.
Open Scope list_scope.
Open Scope Z_scope.

(** ** Python values and built-ins *)

(** Places where the script asserts; the constructor tells which
    [assert] statement failed. *)
Inductive assert_site : Type :=
| AssertRenderXorVideo     (* playback_trajectory_with_env: not (render and write_video) *)
| AssertEqualLength        (* playback_trajectory_with_env: states.shape[0] == actions.shape[0] *)
| AssertImageNames         (* playback_trajectory_with_obs: image_names is not None *)
| AssertRelXorAbs          (* process_demo: not (use_actions and use_abs_actions) *)
| AssertArgsRenderXorVideo (* playback_dataset: not (args.render and write_video) *)
| AssertOneCamera          (* playback_dataset: len(args.render_image_names) == 1 *)
| AssertObsNeedsVideo      (* playback_dataset: use_obs requires write_video *)
| AssertObsNoActions.      (* playback_dataset: use_obs excludes action playback *)

Inductive exn : Type :=
| AssertionError (site : assert_site)
| ValueError
| IndexError
| KeyError
| TypeError
| AttributeError
| NameError
| ZeroDivisionError
| JSONDecodeError
| ParseError
| SystemExit (code : Z).

(** [SystemExit] derives from [BaseException] only: an
    [except Exception] clause does not catch it. *)
Definition is_Exception (e : exn) : bool :=
  match e with
  | SystemExit _ => false
  | _ => true
  end.

Definition py_len {A : Type} (l : list A) : Z := Z.of_nat (List.length l).

(** [range(start, stop)] *)
Definition py_range (start stop : Z) : list Z :=
  map (fun k => start + Z.of_nat k) (seq 0 (Z.to_nat (stop - start))).

(** [l[i]], a negative index counting from the end. *)
Definition py_index {A : Type} (l : list A) (i : Z) : exn + A :=
  let j := if i <? 0 then i + py_len l else i in
  if (j <? 0) || (py_len l <=? j) then inl IndexError
  else match nth_error l (Z.to_nat j) with
       | Some x => inr x
       | None => inl IndexError
       end.

(** [a % b]; Python's remainder has the sign of the divisor, as
    [Z.modulo] has. *)
Definition py_mod (a b : Z) : exn + Z :=
  if b =? 0 then inl ZeroDivisionError else inr (a mod b).

(** [random.randrange(n)].  The generator is external: [draw] is the
    raw integer it supplies for this call, reduced to the range.  Every
    value of [range(n)] is the result for some [draw]. *)
Definition randrange (n : Z) (draw : Z) : exn + Z :=
  if n <=? 0 then inl ValueError else inr (draw mod n).

(** [l[:n]] *)
Definition py_slice_to {A : Type} (l : list A) (n : Z) : list A :=
  if n <? 0 then firstn (Z.to_nat (py_len l + n)) l
  else firstn (Z.to_nat n) l.

(** [dict.get]-style lookup in an association list. *)
Fixpoint assoc {A : Type} (k : string) (l : list (string * A)) : option A :=
  match l with
  | [] => None
  | (k', v) :: rest => if String.eqb k k' then Some v else assoc k rest
  end.

(** ** The collaborators *)

Class Backend : Type := {
  StateVec : Type;          (* flattened simulator state *)
  Action : Type;            (* one control vector *)
  Image : Type;             (* one rendered frame *)
  Err : Type;               (* a norm, as numpy returns it *)
  Json : Type;              (* a decoded JSON document *)
  EnvKwargs : Type;         (* constructor arguments of the environment *)
  Env : Type;               (* the live simulation *)

  (* numpy *)
  np_all_equal : StateVec -> StateVec -> bool;   (* np.all(np.equal(a, b)) *)
  np_norm_diff : StateVec -> StateVec -> Err;    (* np.linalg.norm(a - b) *)
  np_concat_h : Image -> list Image -> Image;    (* np.concatenate(x :: xs, axis=1) *)
  np_flip : Image -> Image;                      (* im[::-1] *)

  (* json *)
  json_loads : string -> option Json;
  json_empty : Json;                             (* {} *)
  json_get_lang : Json -> option string;         (* ep_meta.get("lang", None) *)
  env_kwargs_of : Json -> bool -> exn + EnvKwargs;
  kwargs_env_name : EnvKwargs -> string;

  (* xml.etree on the stored scene: names of the sites made invisible,
     and the rewritten document *)
  hide_pinch_sites : string -> exn + (list string * string);

  (* robosuite *)
  robosuite_version_id : Z;
  robosuite_make : EnvKwargs -> bool -> Env;
  postprocess_model_xml : string -> string;
  has_set_attrs_from_ep_meta : Env -> bool;
  has_set_ep_meta : Env -> bool;
  has_update_sites : Env -> bool;
  has_update_state : Env -> bool;
  env_set_attrs_from_ep_meta : Env -> Json -> Env;
  env_set_ep_meta : Env -> Json -> Env;
  env_reset : Env -> Env;
  env_edit_model_xml : Env -> string -> string;
  env_reset_from_xml_string : Env -> string -> Env;
  sim_reset : Env -> Env;
  sim_set_state_from_flattened : Env -> StateVec -> Env;
  sim_forward : Env -> Env;
  env_update_sites : Env -> Env;
  env_update_state : Env -> Env;
  env_step : Env -> Action -> Env;
  sim_get_state : Env -> StateVec;
  sim_model_get_xml : Env -> string;
  sim_render : Env -> Z -> Z -> string -> Image;
  viewer_is_none : Env -> bool;
  env_initialize_renderer : Env -> Env;
  viewer_update : Env -> Env;
  viewer_close : Env -> Env;                     (* viewer.close(); env.viewer = None *)

  (* the viewer: [env.initialize_renderer()] binds [env.viewer], and a
     call of a method of the viewer leaves it bound *)
  initialize_renderer_binds_viewer :
    forall e, viewer_is_none (env_initialize_renderer e) = false;
  viewer_update_keeps_viewer :
    forall e, viewer_is_none (viewer_update e) = viewer_is_none e
}.

Section Model.

Context {B : Backend}.

(** ** Observable effects *)

Inductive event : Type :=
| PrintInstruction (lang : string)
| PrintSpawning
| PrintRunning
| PrintDiverged (err : Err) (i : Z)
| PrintPlayingBack (ep : string)
| PrintSiteInvisible (name : string)
| PrintInitializing (env_name : string)
| PrintSaved (path : string)
| PrintErrorOpening (path : string)
| PrintFilterKey (key : string)
| PrintEpisodeError (ep : string) (e : exn)
| Progress (i : Z)                      (* one item drawn from the tqdm iterator *)
| CallMake (env_kwargs : EnvKwargs) (has_offscreen_renderer : bool)
                                        (* robosuite.make with these arguments *)
| CallSetAttrsFromEpMeta
| CallSetEpMeta
| CallReset
| CallResetFromXml (xml : string)
| CallSimReset
| CallSetState (s : StateVec)
| CallForward
| CallUpdateSites
| CallUpdateState
| CallStep (a : Action)
| CallInitRenderer
| CallViewerUpdate
| CallViewerClose
| CallEnvClose
| OpenWriter (path : string)            (* imageio.get_writer(path, fps=20) *)
| AppendData (frame : Image)            (* video_writer.append_data(frame) *)
| CloseWriter.

(** ** The monad of the script *)

Definition T (A : Type) : Type := list event * (exn + A).

Definition ret {A : Type} (a : A) : T A := ([], inr a).

Definition raise {A : Type} (e : exn) : T A := ([], inl e).

Definition bind {A C : Type} (m : T A) (k : A -> T C) : T C :=
  match m with
  | (t1, inl e) => (t1, inl e)
  | (t1, inr a) => let (t2, r) := k a in (t1 ++ t2, r)
  end.

Definition emit (ev : event) : T unit := ([ev], inr tt).

Definition lift {A : Type} (r : exn + A) : T A := ([], r).

Definition assert (site : assert_site) (b : bool) : T unit :=
  if b then ret tt else raise (AssertionError site).

Definition trace_of {A : Type} (m : T A) : list event := fst m.
Definition result_of {A : Type} (m : T A) : exn + A := snd m.

End Model.

Declare Scope py_scope.
Delimit Scope py_scope with py.
Notation "x <- m ;; k" := (bind m (fun x => k))
  (at level 100, m at next level, right associativity) : py_scope.
Notation "m ;; k" := (bind m (fun _ => k))
  (at level 100, right associativity) : py_scope.
Open Scope py_scope.

Section Program.

Context {B : Backend}.

(** ** Data *)

(** The dictionary handed to [reset_to].  A key that is absent is [None];
    ["ep_meta"] can be present with the value [None]. *)
Record state_dict : Type := {
  sd_states : option StateVec;
  sd_model : option string;
  sd_ep_meta : option (option string)
}.

(** The [argparse] namespace. *)
Record Args : Type := {
  dataset : string;
  filter_key : option string;
  n : option Z;
  num_parallel_jobs : Z;
  num_frames : option Z;
  use_obs : bool;
  use_actions : bool;
  use_abs_actions : bool;
  render : bool;
  video_path : option string;
  video_skip : Z;
  render_image_names : option (list string);
  render_height : Z;
  render_width : Z;
  first : bool;
  extend_states : bool;
  verbose : bool;
  use_current_env_model : bool
}.

(** One group [data/<ep>] of the dataset. *)
Record episode : Type := {
  ep_states : option (list StateVec);          (* data/<ep>/states *)
  ep_actions : option (list Action);           (* data/<ep>/actions *)
  ep_actions_abs : option (list Action);       (* data/<ep>/actions_abs *)
  ep_model_file : option string;               (* attrs["model_file"] *)
  ep_ep_meta : option string;                  (* attrs.get("ep_meta", None) *)
  ep_obs : list (string * list Image)          (* obs/<key> *)
}.

(** An opened HDF5 file. *)
Record h5file : Type := {
  f_data : option (list (string * episode));   (* the group "data", in key order *)
  f_env_args : option string;                  (* f["data"].attrs["env_args"] *)
  f_mask : list (string * list string)         (* mask/<filter_key> *)
}.

(** ** reset_to *)

Definition call (ev : event) (f : Env -> Env) (env : Env) : T Env :=
  emit ev ;; ret (f env).

Definition decode_json (s : string) : T Json :=
  match json_loads s with
  | Some j => ret j
  | None => raise JSONDecodeError
  end.

Definition reset_to (env : Env) (state : state_dict) : T Env :=
  env <- match sd_model state with
         | Some model =>
             ep_meta <- match sd_ep_meta state with
                        | Some (Some s) => decode_json s
                        | _ => ret json_empty
                        end ;;
             env <- (if has_set_attrs_from_ep_meta env
                     then call CallSetAttrsFromEpMeta
                            (fun e => env_set_attrs_from_ep_meta e ep_meta) env
                     else if has_set_ep_meta env
                     then call CallSetEpMeta (fun e => env_set_ep_meta e ep_meta) env
                     else ret env) ;;
             env <- call CallReset env_reset env ;;
             let xml := if robosuite_version_id <=? 3
                        then postprocess_model_xml model
                        else env_edit_model_xml env model in
             env <- call (CallResetFromXml xml)
                      (fun e => env_reset_from_xml_string e xml) env ;;
             call CallSimReset sim_reset env
         | None => ret env
         end ;;
  env <- match sd_states state with
         | Some s =>
             env <- call (CallSetState s)
                      (fun e => sim_set_state_from_flattened e s) env ;;
             call CallForward sim_forward env
         | None => ret env
         end ;;
  env <- (if has_update_sites env
          then call CallUpdateSites env_update_sites env else ret env) ;;
  (if has_update_state env
   then call CallUpdateState env_update_state env else ret env).

(** ** playback_trajectory_with_env *)

(** Lines 87-92: the window of step indices that is played. *)
Definition select_window (num_frames : option Z) (traj_len draw : Z)
  : exn + (Z * Z) :=
  match num_frames with
  | None => inr (0, traj_len)
  | Some nf =>
      match randrange (traj_len - Z.min nf traj_len + 1) draw with
      | inl e => inl e
      | inr start_frame => inr (start_frame, start_frame + Z.min nf traj_len)
      end
  end.

Definition np_concatenate (imgs : list Image) : exn + Image :=
  match imgs with
  | [] => inl ValueError
  | x :: xs => inr (np_concat_h x xs)
  end.

(** [for cam_name in camera_names] over a value that may be [None]. *)
Definition iter_names (names : option (list string)) : exn + list string :=
  match names with
  | None => inl TypeError
  | Some l => inr l
  end.

Section WithEnv.

Variables (args : Args) (states : list StateVec) (actions : option (list Action))
          (render : bool) (video_writer : option string) (video_skip : Z)
          (camera_names : option (list string)) (first verbose : bool).

Let traj_len : Z := py_len states.
Let write_video : bool := match video_writer with Some _ => true | None => false end.

(** Lines 96-113: drive the simulation one index further. *)
Definition advance (env : Env) (i : Z) : T Env :=
  match actions with
  | Some acts =>
      a <- lift (py_index acts i) ;;
      env <- call (CallStep a) (fun e => env_step e a) env ;;
      if i <? traj_len - 1 then
        let state_playback := sim_get_state env in
        recorded <- lift (py_index states (i + 1)) ;;
        if negb (np_all_equal recorded state_playback) then
          let err := np_norm_diff recorded state_playback in
          (if verbose || (i =? traj_len - 2)
           then emit (PrintDiverged err i) else ret tt) ;;
          ret env
        else ret env
      else ret env
  | None =>
      s <- lift (py_index states i) ;;
      reset_to env {| sd_states := Some s; sd_model := None; sd_ep_meta := None |}
  end.

(** A method of [env.viewer] is called: an attribute of [None] is an
    AttributeError. *)
Definition on_viewer (ev : event) (f : Env -> Env) (env : Env) : T Env :=
  if viewer_is_none env then raise AttributeError else call ev f env.

(** Lines 116-127: the on-screen viewer. *)
Definition show (env : Env) : T Env :=
  if render then
    env <- (if viewer_is_none env
            then call CallInitRenderer env_initialize_renderer env else ret env) ;;
    on_viewer CallViewerUpdate viewer_update env
  else ret env.

(** Lines 130-144: the video frame, every [video_skip]-th iteration. *)
Definition capture (env : Env) (video_count : Z) : T Z :=
  if write_video then
    r <- lift (py_mod video_count video_skip) ;;
    (if r =? 0 then
       cams <- lift (iter_names camera_names) ;;
       let video_img :=
         map (fun cam => np_flip (sim_render env (render_height args)
                                    (render_width args) cam)) cams in
       frame <- lift (np_concatenate video_img) ;;
       emit (AppendData frame)
     else ret tt) ;;
    ret (video_count + 1)
  else ret video_count.

Definition loop_body (env : Env) (video_count : Z) (i : Z) : T (Env * Z) :=
  env <- advance env i ;;
  env <- show env ;;
  video_count <- capture env video_count ;;
  ret (env, video_count).

(** [for i in tqdm(range(start_frame, end_frame))], with the [break]
    of first-only mode. *)
Fixpoint for_steps (idxs : list Z) (env : Env) (video_count : Z) : T (Env * Z) :=
  match idxs with
  | [] => ret (env, video_count)
  | i :: rest =>
      emit (Progress i) ;;
      st <- loop_body env video_count i ;;
      if first then ret st else for_steps rest (fst st) (snd st)
  end.

Definition playback_trajectory_with_env (env : Env) (initial_state : state_dict)
    (draw : Z) : T Env :=
  assert AssertRenderXorVideo (negb (render && write_video)) ;;
  (if verbose then
     ep_meta <- match sd_ep_meta initial_state with
                | None => raise KeyError
                | Some None => raise TypeError
                | Some (Some s) => decode_json s
                end ;;
     match json_get_lang ep_meta with
     | Some lang => emit (PrintInstruction lang)
     | None => ret tt
     end ;;
     emit PrintSpawning
   else ret tt) ;;
  env <- reset_to env initial_state ;;
  match actions with
  | Some acts => assert AssertEqualLength (py_len states =? py_len acts)
  | None => ret tt
  end ;;
  (if negb render then emit PrintRunning else ret tt) ;;
  w <- lift (select_window (num_frames args) traj_len draw) ;;
  st <- for_steps (py_range (fst w) (snd w)) env 0 ;;
  if render then on_viewer CallViewerClose viewer_close (fst st)
  else ret (fst st).

End WithEnv.

(** ** playback_trajectory_with_obs *)

(** [traj_grp["obs/<name>_image"]] *)
Definition obs_images (traj_grp : episode) (name : string)
  : exn + list Image :=
  match assoc (name ++ "_image")%string (ep_obs traj_grp) with
  | Some imgs => inr imgs
  | None => inl KeyError
  end.

(** [[traj_grp["obs/<k>_image"][i] for k in image_names]] *)
Fixpoint gather_obs (traj_grp : episode) (names : list string) (i : Z)
  : exn + list Image :=
  match names with
  | [] => inr []
  | k :: rest =>
      match obs_images traj_grp k with
      | inl e => inl e
      | inr imgs =>
          match py_index imgs i with
          | inl e => inl e
          | inr im =>
              match gather_obs traj_grp rest i with
              | inl e => inl e
              | inr ims => inr (im :: ims)
              end
          end
      end
  end.

(** [video_writer.append_data(frame)] *)
Definition append_data (video_writer : option string) (frame : Image) : T unit :=
  match video_writer with
  | Some _ => emit (AppendData frame)
  | None => raise AttributeError
  end.

Section WithObs.

Variables (traj_grp : episode) (video_writer : option string) (video_skip : Z)
          (image_names : list string) (first : bool).

Definition obs_body (video_count : Z) (i : Z) : T Z :=
  r <- lift (py_mod video_count video_skip) ;;
  (if r =? 0 then
     im <- lift (gather_obs traj_grp image_names i) ;;
     frame <- lift (np_concatenate im) ;;
     append_data video_writer frame
   else ret tt) ;;
  ret (video_count + 1).

Fixpoint for_obs (idxs : list Z) (video_count : Z) : T Z :=
  match idxs with
  | [] => ret video_count
  | i :: rest =>
      video_count <- obs_body video_count i ;;
      if first then ret video_count else for_obs rest video_count
  end.

End WithObs.

Definition playback_trajectory_with_obs (traj_grp : episode)
    (video_writer : option string) (video_skip : Z)
    (image_names : option (list string)) (first : bool) : T unit :=
  match image_names with
  | None => raise (AssertionError AssertImageNames)
  | Some names =>
      name0 <- lift (py_index names 0) ;;
      seq0 <- lift (obs_images traj_grp name0) ;;
      let traj_len := py_len seq0 in
      for_obs traj_grp video_writer video_skip names first
        (py_range 0 traj_len) 0 ;;
      ret tt
  end.

(** ** The dataset on disk *)

(** The files do not change while a run lasts: opening a path gives the
    same answer each time. *)
Class World : Type := {
  h5py_File : string -> option h5file;     (* [None]: the open raises *)
  expanduser : string -> string            (* os.path.expanduser *)
}.

Context {W : World}.

Definition require {A : Type} (e : exn) (o : option A) : exn + A :=
  match o with
  | Some a => inr a
  | None => inl e
  end.

(** [f["data/<ep>"]] *)
Definition get_episode (f : h5file) (ep : string) : exn + episode :=
  match f_data f with
  | Some d => require KeyError (assoc ep d)
  | None => inl KeyError
  end.

(** The error message names the global [args.dataset], whatever path was
    passed in. *)
Definition get_env_metadata_from_dataset (args_dataset dataset_path : string)
  : T Json :=
  let dataset_path := expanduser dataset_path in
  f <- match h5py_File dataset_path with
       | Some f => ret f
       | None => emit (PrintErrorOpening args_dataset) ;; raise (SystemExit 1)
       end ;;
  _ <- lift (require KeyError (f_data f)) ;;
  env_args <- lift (require KeyError (f_env_args f)) ;;
  decode_json env_args.

(** Lines 312-332 edit the decoded dictionary (absolute control, the
    renderer switches, the language key) before [robosuite.make]; the
    edits are [env_kwargs_of], the off-screen switch is passed along. *)
Definition make_env_from_args (args : Args) : T Env :=
  env_meta <- get_env_metadata_from_dataset (dataset args) (dataset args) ;;
  env_kwargs <- lift (env_kwargs_of env_meta (use_abs_actions args)) ;;
  (if verbose args
   then emit (PrintInitializing (kwargs_env_name env_kwargs)) else ret tt) ;;
  emit (CallMake env_kwargs (negb (render args))) ;;
  ret (robosuite_make env_kwargs (negb (render args))).

(** [s[:-4]] *)
Definition drop_last4 (s : string) : string :=
  substring 0 (String.length s - 4) s.

Fixpoint emit_all (evs : list event) : T unit :=
  match evs with
  | [] => ret tt
  | ev :: rest => emit ev ;; emit_all rest
  end.

Definition finish_video (video_writer : option string) : T unit :=
  match video_writer with
  | Some ep_path => emit (PrintSaved ep_path) ;; emit CloseWriter
  | None => ret tt
  end.

(** ** process_demo *)

Definition process_demo (args : Args) (ep : string) (draw : Z) : T unit :=
  emit (PrintPlayingBack ep) ;;
  let write_video := negb (render args) in
  video_writer <-
    (if write_video then
       match video_path args with
       | None => raise TypeError
       | Some vp =>
           let ep_path := (drop_last4 vp ++ "_" ++ ep ++ ".mp4")%string in
           emit (OpenWriter ep_path) ;; ret (Some ep_path)
       end
     else ret None) ;;
  f <- match h5py_File (dataset args) with
       | Some f => ret f
       | None => emit (PrintErrorOpening (dataset args)) ;; raise (SystemExit 1)
       end ;;
  if use_obs args then
    traj_grp <- lift (get_episode f ep) ;;
    playback_trajectory_with_obs traj_grp video_writer (video_skip args)
      (render_image_names args) (first args) ;;
    finish_video video_writer
  else
    env <- make_env_from_args args ;;
    grp <- lift (get_episode f ep) ;;
    states <- lift (require KeyError (ep_states grp)) ;;
    state0 <- lift (py_index states 0) ;;
    model_file <- lift (require KeyError (ep_model_file grp)) ;;
    hidden <- lift (hide_pinch_sites model_file) ;;
    emit_all (map PrintSiteInvisible (fst hidden)) ;;
    let model := if use_current_env_model args
                 then sim_model_get_xml env else snd hidden in
    let initial_state := {| sd_states := Some state0;
                            sd_model := Some model;
                            sd_ep_meta := Some (ep_ep_meta grp) |} in
    states <- (if extend_states args then
                 final <- lift (py_index states (-1)) ;;
                 ret (states ++ repeat final 50)
               else ret states) ;;
    assert AssertRelXorAbs (negb (use_actions args && use_abs_actions args)) ;;
    actions <- (if use_actions args then
                  a <- lift (require KeyError (ep_actions grp)) ;; ret (Some a)
                else if use_abs_actions args then
                  a <- lift (require KeyError (ep_actions_abs grp)) ;; ret (Some a)
                else ret None) ;;
    _ <- playback_trajectory_with_env args states actions (render args)
           video_writer (video_skip args) (render_image_names args)
           (first args) (verbose args) env initial_state draw ;;
    finish_video video_writer ;;
    emit CallEnvClose.

End Program.

(** ** Strings, sorting and shuffling used by the run driver *)

(** [s.split(".hdf5")[0]]: what precedes the first occurrence. *)
Definition split_hdf5_head (s : string) : string :=
  match index 0 ".hdf5" s with
  | Some k => substring 0 k s
  | None => s
  end.

(** [elem[5:]] *)
Definition drop5 (s : string) : string :=
  substring 5 (String.length s - 5) s.

(** Iterating a [str] yields its one-character strings. *)
Fixpoint chars (s : string) : list string :=
  match s with
  | EmptyString => []
  | String c rest => String c EmptyString :: chars rest
  end.

(** A character of a [string] stands for the code point of its number:
    the text modelled is the text of code points below 256.  [int]
    strips the blanks of ASCII (tab to carriage return, and the space)
    and, past ASCII, the white space of Unicode: below 256 that is the
    next-line control and the no-break space. *)
Definition is_space (c : ascii) : bool :=
  let k := nat_of_ascii c in
  (Nat.eqb k 32 || (Nat.leb 9 k && Nat.leb k 13) || Nat.eqb k 133
   || Nat.eqb k 160)%bool.

Definition digit_val (c : ascii) : option Z :=
  let k := nat_of_ascii c in
  if (Nat.leb 48 k && Nat.leb k 57)%bool then Some (Z.of_nat (k - 48)) else None.

Definition is_underscore (c : ascii) : bool := Nat.eqb (nat_of_ascii c) 95.

(** Decimal digits, a single underscore allowed between two digits. *)
Fixpoint parse_digits (s : list ascii) (acc : Z) (after_digit : bool)
  : option Z :=
  match s with
  | [] => if after_digit then Some acc else None
  | c :: rest =>
      match digit_val c with
      | Some d => parse_digits rest (10 * acc + d) true
      | None =>
          if (is_underscore c && after_digit)%bool then
            match rest with
            | d :: _ =>
                match digit_val d with
                | Some _ => parse_digits rest acc false
                | None => None
                end
            | [] => None
            end
          else None
      end
  end.

Fixpoint lstrip (s : list ascii) : list ascii :=
  match s with
  | c :: rest => if is_space c then lstrip rest else s
  | [] => []
  end.

Definition strip (s : list ascii) : list ascii :=
  rev (lstrip (rev (lstrip s))).

(** [sys.get_int_max_str_digits()], as CPython sets it when nothing
    configures it. *)
Definition int_max_str_digits : Z := 4300.

Definition is_digit (c : ascii) : bool :=
  match digit_val c with Some _ => true | None => false end.

(** The digits of a numeral, leading zeros too; underscores do not
    count. *)
Definition count_digits (s : list ascii) : Z :=
  Z.of_nat (List.length (filter is_digit s)).

(** The numeral after the sign: refused when it has more digits than
    the limit. *)
Definition parse_numeral (s : list ascii) : option Z :=
  if int_max_str_digits <? count_digits s then None
  else parse_digits s 0 false.

(** [int(s)]: surrounding white space, an optional sign, decimal
    digits.  No code point from 127 to 255 is a decimal digit. *)
Definition py_int (s : string) : exn + Z :=
  let body := strip (list_ascii_of_string s) in
  let parsed :=
    match body with
    | c :: rest =>
        if Nat.eqb (nat_of_ascii c) 45 then option_map Z.opp (parse_numeral rest)
        else if Nat.eqb (nat_of_ascii c) 43 then parse_numeral rest
        else parse_numeral body
    | [] => None
    end in
  match parsed with
  | Some z => inr z
  | None => inl ValueError
  end.

(** [[int(elem[5:]) for elem in demos]] *)
Fixpoint suffix_numbers (demos : list string) : exn + list Z :=
  match demos with
  | [] => inr []
  | elem :: rest =>
      match py_int (drop5 elem) with
      | inl e => inl e
      | inr k =>
          match suffix_numbers rest with
          | inl e => inl e
          | inr ks => inr (k :: ks)
          end
      end
  end.

(** ** The array numpy makes of a list of Python integers *)

(** A Python integer alone is an int64 when it fits, else a uint64
    when it fits, else a Python object. *)
Definition fits_int64 (k : Z) : bool := (- 2 ^ 63 <=? k) && (k <? 2 ^ 63).

Definition fits_uint64 (k : Z) : bool := (0 <=? k) && (k <? 2 ^ 64).

(** The float64 nearest to an integer, ties to the even significand of
    53 bits, as the integer it is. *)
Definition np_float64 (k : Z) : Z :=
  let m := Z.abs k in
  if m <? 2 ^ 53 then k
  else
    let s := 2 ^ (Z.log2 m - 52) in
    let q := m / s in
    let r := m mod s in
    let q' := if 2 * r <? s then q
              else if s <? 2 * r then q + 1
              else if Z.even q then q else q + 1 in
    Z.sgn k * (q' * s).

(** [np.array(keys)], by the values compared when it is sorted: the
    element types are promoted to one.  int64 alone, uint64 alone and
    Python objects keep every key as it is; int64 together with uint64
    is float64. *)
Definition np_array (keys : list Z) : list Z :=
  if forallb fits_int64 keys then keys
  else if negb (forallb (fun k => fits_int64 k || fits_uint64 k) keys) then keys
  else if forallb (fun k => negb (fits_int64 k)) keys then keys
  else map np_float64 keys.

(** [np.argsort]: the indices in an order that sorts the array.  numpy
    leaves the order of equal elements to the sorting kernel; here the
    earlier index comes first. *)
Fixpoint insert_key (x : Z * nat) (l : list (Z * nat)) : list (Z * nat) :=
  match l with
  | [] => [x]
  | y :: l' => if fst x <=? fst y then x :: l else y :: insert_key x l'
  end.

Definition np_argsort (keys : list Z) : list nat :=
  map snd (fold_right insert_key []
             (combine (np_array keys) (seq 0 (List.length keys)))).

(** Lines 483-484. *)
Definition order_demos (demos : list string) : exn + list string :=
  match suffix_numbers demos with
  | inl e => inl e
  | inr keys => inr (map (fun i => nth i demos "") (np_argsort keys))
  end.

(** [x[i], x[j] = x[j], x[i]] *)
Definition swap {A : Type} (i j : nat) (x : list A) : list A :=
  match nth_error x i, nth_error x j with
  | Some a, Some b =>
      let x1 := firstn i x ++ b :: skipn (S i) x in
      firstn j x1 ++ a :: skipn (S j) x1
  | _, _ => x
  end.

(** [random.shuffle]: for [i] from the last index down to 1, exchange
    position [i] with a position drawn from [range(i + 1)]. *)
Fixpoint shuffle_from {A : Type} (i : nat) (c : nat) (draws : nat -> Z)
    (x : list A) : list A :=
  match i with
  | O => x
  | S i' =>
      let j := Z.to_nat (draws c mod Z.of_nat (S i)) in
      shuffle_from i' (S c) draws (swap i j x)
  end.

Definition random_shuffle {A : Type} (draws : nat -> Z) (x : list A) : list A :=
  shuffle_from (List.length x - 1) 0 draws x.

(** The status the interpreter exits with. *)
Definition exit_status {A : Type} (r : exn + A) : Z :=
  match r with
  | inr _ => 0
  | inl (SystemExit code) => code
  | inl _ => 1
  end.

Section Dispatch.

Context {B : Backend} {W : World}.

Definition set_video_path (args : Args) (p : string) : Args :=
  {| dataset := dataset args; filter_key := filter_key args; n := n args;
     num_parallel_jobs := num_parallel_jobs args; num_frames := num_frames args;
     use_obs := use_obs args; use_actions := use_actions args;
     use_abs_actions := use_abs_actions args; render := render args;
     video_path := Some p; video_skip := video_skip args;
     render_image_names := render_image_names args;
     render_height := render_height args; render_width := render_width args;
     first := first args; extend_states := extend_states args;
     verbose := verbose args;
     use_current_env_model := use_current_env_model args |}.

Definition set_render_image_names (args : Args) (names : list string) : Args :=
  {| dataset := dataset args; filter_key := filter_key args; n := n args;
     num_parallel_jobs := num_parallel_jobs args; num_frames := num_frames args;
     use_obs := use_obs args; use_actions := use_actions args;
     use_abs_actions := use_abs_actions args; render := render args;
     video_path := video_path args; video_skip := video_skip args;
     render_image_names := Some names;
     render_height := render_height args; render_width := render_width args;
     first := first args; extend_states := extend_states args;
     verbose := verbose args;
     use_current_env_model := use_current_env_model args |}.

(** Lines 441-465: the argument checking of [playback_dataset]; the
    namespace is returned with the defaults filled in. *)
Definition check_args (args : Args) : T Args :=
  let write_video := negb (render args) in
  let args :=
    match video_path args with
    | None =>
        let head := split_hdf5_head (dataset args) in
        set_video_path args
          (if use_actions args then head ++ "_use_actions.mp4"
           else if use_abs_actions args then head ++ "_use_abs_actions.mp4"
           else head ++ ".mp4")%string
    | Some _ => args
    end in
  assert AssertArgsRenderXorVideo (negb (render args && write_video)) ;;
  args <- match render_image_names args with
          | None =>
              _ <- get_env_metadata_from_dataset (dataset args) (dataset args) ;;
              ret (set_render_image_names args (chars "robot0_agentview_center"))
          | Some _ => ret args
          end ;;
  (if render args then
     names <- lift (require TypeError (render_image_names args)) ;;
     assert AssertOneCamera (py_len names =? 1)
   else ret tt) ;;
  (if use_obs args then
     assert AssertObsNeedsVideo write_video ;;
     assert AssertObsNoActions
       (negb (use_actions args) && negb (use_abs_actions args))
   else ret tt) ;;
  ret args.

(** Lines 473-489: the working episode list. *)
Definition list_demos (args : Args) (f : h5file) (shuffle_draws : nat -> Z)
  : T (list string) :=
  demos <- match filter_key args with
           | Some key =>
               emit (PrintFilterKey key) ;;
               lift (require KeyError (assoc key (f_mask f)))
           | None =>
               match f_data f with
               | Some d => ret (map fst d)
               | None => raise NameError     (* [demos] was never bound *)
               end
           end ;;
  demos <- lift (order_demos demos) ;;
  match n args with
  | Some k => ret (py_slice_to (random_shuffle shuffle_draws demos) k)
  | None => ret demos
  end.

(** Lines 493-494: one episode after the other, in this process. *)
Fixpoint run_sequential (args : Args) (demos : list string)
    (window_draws : nat -> Z) (k : nat) : T unit :=
  match demos with
  | [] => ret tt
  | ep :: rest =>
      process_demo args ep (window_draws k) ;;
      run_sequential args rest window_draws (S k)
  end.

(** Each submitted episode runs in a worker process of its own; what a
    worker does is its own trace and result. *)
Fixpoint submit_all (args : Args) (demos : list string)
    (window_draws : nat -> Z) (k : nat) : list (string * T unit) :=
  match demos with
  | [] => []
  | ep :: rest =>
      (ep, process_demo args ep (window_draws k))
        :: submit_all args rest window_draws (S k)
  end.

(** Lines 499-506: the parent collects the futures as they complete. *)
Fixpoint collect (completed : list (string * T unit)) : T unit :=
  match completed with
  | [] => ret tt
  | (ep, job) :: rest =>
      match result_of job with
      | inr _ => collect rest
      | inl e =>
          if is_Exception e
          then emit (PrintEpisodeError ep e) ;; collect rest
          else raise e
      end
  end.

(** The futures in the order [as_completed] yields them: [completion]
    lists positions of the submission order. *)
Fixpoint in_completion_order {A : Type} (jobs : list A) (completion : list nat)
  : list A :=
  match completion with
  | [] => []
  | k :: rest =>
      match nth_error jobs k with
      | Some j => j :: in_completion_order jobs rest
      | None => in_completion_order jobs rest
      end
  end.

(** What a run leaves behind: the parent process, and the worker
    processes of parallel dispatch. *)
Record run : Type := {
  parent : T unit;
  workers : list (string * T unit)
}.

(** Lines 491-506. *)
Definition dispatch (args : Args) (demos : list string)
    (window_draws : nat -> Z) (completion : list nat) : run :=
  if num_parallel_jobs args =? 1 then
    {| parent := run_sequential args demos window_draws 0; workers := [] |}
  else if num_parallel_jobs args <=? 0 then
    {| parent := raise ValueError; workers := [] |}
  else
    let jobs := submit_all args demos window_draws 0 in
    {| parent := collect (in_completion_order jobs completion);
       workers := jobs |}.

(** ** playback_dataset *)

Definition playback_dataset (args : Args) (shuffle_draws window_draws : nat -> Z)
    (completion : list nat) : run :=
  let prologue :=
    args <- check_args args ;;
    f <- match h5py_File (dataset args) with
         | Some f => ret f
         | None => emit (PrintErrorOpening (dataset args)) ;; raise (SystemExit 1)
         end ;;
    demos <- list_demos args f shuffle_draws ;;
    ret (args, demos) in
  match prologue with
  | (t, inl e) => {| parent := (t, inl e); workers := [] |}
  | (t, inr (args, demos)) =>
      let r := dispatch args demos window_draws completion in
      {| parent := (t ++ trace_of (parent r), result_of (parent r));
         workers := workers r |}
  end.

End Dispatch.

(** ** A small concrete backend, to run the model on *)

Module Toy.

Record toy_env : Type := {
  qpos : list Z;            (* the flattened state *)
  scene : string;           (* the scene currently loaded *)
  has_viewer : bool
}.

Definition with_qpos (e : toy_env) (q : list Z) : toy_env :=
  {| qpos := q; scene := scene e; has_viewer := has_viewer e |}.

Fixpoint vec_eqb (a b : list Z) : bool :=
  match a, b with
  | [], [] => true
  | x :: a', y :: b' => (x =? y) && vec_eqb a' b'
  | _, _ => false
  end.

Fixpoint sum_sq_diff (a b : list Z) : Z :=
  match a, b with
  | x :: a', y :: b' => (x - y) * (x - y) + sum_sq_diff a' b'
  | _, _ => 0
  end.

(** JSON documents of the toy world: the text ["{}"] is the empty
    object, the empty text is not JSON, and any other text is an object
    whose ["lang"] is that text. *)
Definition toy_loads (s : string) : option (option string) :=
  if String.eqb s "" then None
  else if String.eqb s "{}" then Some None
  else Some (Some s).

#[local] Instance backend : Backend := {|
  StateVec := list Z;
  Action := Z;
  Image := list Z;
  Err := Z;
  Json := option string;
  EnvKwargs := string;
  Env := toy_env;
  np_all_equal := vec_eqb;
  np_norm_diff := fun a b => Z.sqrt (sum_sq_diff a b);
  np_concat_h := fun x xs => x ++ List.concat xs;
  np_flip := fun im => rev im;
  json_loads := toy_loads;
  json_empty := None;
  json_get_lang := fun j => j;
  env_kwargs_of := fun j _ =>
    match j with Some name => inr name | None => inl KeyError end;
  kwargs_env_name := fun kw => kw;
  hide_pinch_sites := fun xml =>
    if String.eqb xml "" then inl ParseError else inr ([], xml);
  robosuite_version_id := 5;
  robosuite_make := fun kw _ => {| qpos := []; scene := kw; has_viewer := false |};
  postprocess_model_xml := fun xml => xml;
  has_set_attrs_from_ep_meta := fun _ => false;
  has_set_ep_meta := fun _ => true;
  has_update_sites := fun _ => false;
  has_update_state := fun _ => true;
  env_set_attrs_from_ep_meta := fun e _ => e;
  env_set_ep_meta := fun e _ => e;
  env_reset := fun e => with_qpos e [];
  env_edit_model_xml := fun _ xml => xml;
  env_reset_from_xml_string := fun e xml =>
    {| qpos := []; scene := xml; has_viewer := has_viewer e |};
  sim_reset := fun e => e;
  sim_set_state_from_flattened := fun e s => with_qpos e s;
  sim_forward := fun e => e;
  env_update_sites := fun e => e;
  env_update_state := fun e => e;
  env_step := fun e a => with_qpos e (map (Z.add a) (qpos e));
  sim_get_state := qpos;
  sim_model_get_xml := scene;
  sim_render := fun e h w cam => qpos e;
  viewer_is_none := fun e => negb (has_viewer e);
  env_initialize_renderer := fun e =>
    {| qpos := qpos e; scene := scene e; has_viewer := true |};
  viewer_update := fun e => e;
  viewer_close := fun e =>
    {| qpos := qpos e; scene := scene e; has_viewer := false |};
  initialize_renderer_binds_viewer := fun _ => eq_refl;
  viewer_update_keeps_viewer := fun _ => eq_refl
|}.

(** Four recorded states; the recorded actions reproduce them except for
    the last transition. *)
Definition demo_states : list (@StateVec backend) :=
  [[0; 0]; [1; 1]; [3; 3]; [7; 7]].
Definition demo_actions : list (@Action backend) := [1; 2; 3; 0].

(** Another state sequence of the same length. *)
Definition flat_states : list (@StateVec backend) := [[0]; [0]; [0]; [0]].

Definition demo_episode : episode := {|
  ep_states := Some demo_states;
  ep_actions := Some demo_actions;
  ep_actions_abs := Some demo_actions;
  ep_model_file := Some "<mujoco/>";
  ep_ep_meta := Some "pick the apple";
  ep_obs := [("cam_image", [[1]; [2]; [3]; [4]; [5]])]
|}.

(** An episode whose stored scene does not parse. *)
Definition broken_episode : episode := {|
  ep_states := Some demo_states;
  ep_actions := Some demo_actions;
  ep_actions_abs := None;
  ep_model_file := Some "";
  ep_ep_meta := None;
  ep_obs := []
|}.

Definition demo_file : h5file := {|
  f_data := Some [("demo_10", demo_episode); ("demo_2", demo_episode);
                  ("demo_3", broken_episode)];
  f_env_args := Some "Kitchen";
  f_mask := [("train", ["demo_10"; "demo_2"])]
|}.

#[local] Instance world : World := {|
  h5py_File := fun path =>
    if String.eqb path "demos.hdf5" then Some demo_file else None;
  expanduser := fun path => path
|}.

(** The arguments of a run on the toy dataset: the window length, the
    sampling interval, action replay, state extension, on-screen
    rendering and the number of jobs vary. *)
Definition args_with (frames : option Z) (skip : Z)
    (replay_actions extend on_screen : bool) (jobs : Z) : Args := {|
  dataset := "demos.hdf5";
  filter_key := None;
  n := None;
  num_parallel_jobs := jobs;
  num_frames := frames;
  use_obs := false;
  use_actions := replay_actions;
  use_abs_actions := false;
  render := on_screen;
  video_path := Some "out.mp4";
  video_skip := skip;
  render_image_names := Some ["egoview"];
  render_height := 512;
  render_width := 512;
  first := false;
  extend_states := extend;
  verbose := false;
  use_current_env_model := false
|}.

Definition demo_args : Args := args_with None 1 false false false 1.

Definition demo_initial_state : state_dict := {|
  sd_states := Some [0; 0];
  sd_model := Some "<mujoco/>";
  sd_ep_meta := Some (Some "pick the apple")
|}.

Definition demo_env : @Env backend :=
  {| qpos := []; scene := ""; has_viewer := false |}.

End Toy.

(** ** Observations on traces, and the conditions of a run *)

Section Observations.

Context {B : Backend}.

Definition is_reload (ev : event) : bool :=
  match ev with CallResetFromXml _ => true | _ => false end.

Definition is_append (ev : event) : bool :=
  match ev with AppendData _ => true | _ => false end.

Definition is_step (ev : event) : bool :=
  match ev with CallStep _ => true | _ => false end.

Definition is_warning (ev : event) : bool :=
  match ev with PrintDiverged _ _ => true | _ => false end.

(** The calls that replace or reset the structural scene model. *)
Definition touches_model (ev : event) : bool :=
  match ev with
  | CallSetAttrsFromEpMeta | CallSetEpMeta | CallReset
  | CallResetFromXml _ | CallSimReset => true
  | _ => false
  end.

Definition count (p : event -> bool) (t : list event) : nat :=
  List.length (filter p t).

(** The step indices the loop went through, in order. *)
Definition progress_of (t : list event) : list Z :=
  flat_map (fun ev => match ev with Progress i => [i] | _ => [] end) t.

(** The trace without the divergence warnings. *)
Definition without_warnings (t : list event) : list event :=
  filter (fun ev => negb (is_warning ev)) t.

Definition returned {A : Type} (m : T A) : bool :=
  match result_of m with inr _ => true | inl _ => false end.

(** The initial state can be loaded: its episode meta-data, where the
    script decodes it, is there and is JSON. *)
Definition loadable (verbose : bool) (initial_state : state_dict) : bool :=
  match sd_ep_meta initial_state with
  | Some (Some s) =>
      match sd_model initial_state with
      | Some _ => match json_loads s with Some _ => true | None => false end
      | None =>
          if verbose
          then match json_loads s with Some _ => true | None => false end
          else true
      end
  | _ => negb verbose
  end.

(** A video writer comes with a sampling interval other than zero and at
    least one camera. *)
Definition video_ready (video_writer : option string) (video_skip : Z)
    (camera_names : option (list string)) : bool :=
  match video_writer with
  | None => true
  | Some _ =>
      negb (video_skip =? 0) &&
      match camera_names with Some (_ :: _) => true | _ => false end
  end.

(** Recorded actions, when given, are as many as the recorded states. *)
Definition actions_fit (states : list StateVec) (actions : option (list Action))
  : bool :=
  match actions with
  | None => true
  | Some acts => py_len states =? py_len acts
  end.

(** [ceil(a / b)] for a positive [b]. *)
Definition ceil_div (a b : Z) : Z := (a + b - 1) / b.

End Observations.


Section Hooks.

Context {B : Backend}.

(** What the update hooks at the end of [reset_to] do to the
    environment, and the calls they make. *)
Definition after_hooks (env : Env) : Env :=
  let env1 := if has_update_sites env then env_update_sites env else env in
  if has_update_state env1 then env_update_state env1 else env1.

Definition hook_calls (env : Env) : list event :=
  (if has_update_sites env then [CallUpdateSites] else []) ++
  (if has_update_state
        (if has_update_sites env then env_update_sites env else env)
   then [CallUpdateState] else []).

(** The frame [capture] hands to the writer. *)
Definition frame_of (args : Args) (env : Env) (cam : string) (cams : list string)
  : Image :=
  let shot c := np_flip (sim_render env (render_height args) (render_width args) c) in
  np_concat_h (shot cam) (map shot cams).

End Hooks.

(** The number of iteration counters in [[c, c + n)] that the sampling
    interval [k] divides. *)
Fixpoint sampled (k c : Z) (n : nat) : nat :=
  match n with
  | O => O
  | S n' => ((if (c mod k =? 0)%Z then 1 else 0) + sampled k (c + 1) n')%nat
  end.

(** The indices the loop goes through: all of them, or the first one
    only in first-only mode. *)
Definition visited (first : bool) (idxs : list Z) : list Z :=
  if first then firstn 1 idxs else idxs.

Section ObsReady.

Context {B : Backend}.

(** The trajectory length observation playback reads: the length of the
    first named image sequence. *)
Definition obs_length (traj_grp : episode) (image_names : list string)
  : option Z :=
  match image_names with
  | name0 :: _ =>
      match obs_images traj_grp name0 with
      | inr imgs => Some (py_len imgs)
      | inl _ => None
      end
  | [] => None
  end.

(** Every named image sequence is stored and is at least as long as the
    first one. *)
Definition obs_ready (traj_grp : episode) (image_names : list string) : bool :=
  match obs_length traj_grp image_names with
  | Some len =>
      forallb (fun k => match obs_images traj_grp k with
                        | inr imgs => len <=? py_len imgs
                        | inl _ => false
                        end) image_names
  | None => false
  end.

End ObsReady.

Section EpisodeLoadable.

Context {B : Backend}.

(** The stored episode meta-data can be decoded where the script decodes
    it: it is JSON when present, and present when [verbose] is set. *)
Definition episode_loadable (verbose : bool) (grp : episode) : bool :=
  match ep_ep_meta grp with
  | Some s => match json_loads s with Some _ => true | None => false end
  | None => negb verbose
  end.

(** The action sequence a run replays. *)
Definition replayed_actions (args : Args) (grp : episode)
  : option (list Action) :=
  if use_actions args then ep_actions grp else ep_actions_abs grp.

End EpisodeLoadable.

(** The number an episode identifier is ordered by: what [int] makes of
    the text after the five-character prefix (0 stands in where that
    text is not a number; [order_demos] raises there). *)
Definition suffix_number (elem : string) : Z :=
  match py_int (drop5 elem) with
  | inr k => k
  | inl _ => 0
  end.

(** [a] stands before [b] in [l]. *)
Definition stands_before {A : Type} (a b : A) (l : list A) : Prop :=
  exists l1 l2 l3, l = l1 ++ a :: l2 ++ b :: l3.

Section WriterEvents.

Context {B : Backend}.

Definition is_open_writer (ev : event) : bool :=
  match ev with OpenWriter _ => true | _ => false end.

End WriterEvents.

Section Reports.

Context {B : Backend}.

(** The error lines the parent prints for the given futures. *)
Definition reports (completed : list (string * T unit)) : list event :=
  flat_map (fun j => match result_of (snd j) with
                     | inl e => [PrintEpisodeError (fst j) e]
                     | inr _ => []
                     end) completed.

(** The workers whose episode ran to completion. *)
Definition completions (jobs : list (string * T unit)) : nat :=
  List.length (filter (fun j => returned (snd j)) jobs).

(** Every failure among the jobs is an [Exception]. *)
Definition failures_are_exceptions (jobs : list (string * T unit)) : Prop :=
  forall ep job e,
    In (ep, job) jobs -> result_of job = inl e -> is_Exception e = true.

End Reports.

(** ** Shapes of runs the proofs speak about *)

Section Shapes.

Context {B : Backend}.

(** Facts about a piece of trace that the proofs below carry along. *)
Definition quiet (t : list event) : Prop :=
  count is_append t = 0%nat /\ count is_step t = 0%nat /\ progress_of t = [].

(** Facts about the trace of the loop that do not depend on the mode. *)
Definition calm (t : list event) : Prop :=
  count touches_model t = 0%nat /\ progress_of t = [].

(** No event of the kind [p] happens in [m]. *)
Definition clean (p : event -> bool) {A : Type} (m : T A) : Prop :=
  count p (trace_of m) = 0%nat.

(** At most one event of the kind [p] happens in [m], and exactly one
    when [m] returns. *)
Definition once (p : event -> bool) {A : Type} (m : T A) : Prop :=
  (count p (trace_of m) <= 1)%nat
  /\ (returned m = true -> count p (trace_of m) = 1%nat).

Definition stops {A : Type} (m : T A) : Prop := returned m = false.

(** [m] raises, and no event of the kind [p] happens before it does. *)
Definition aborts (p : event -> bool) {A : Type} (m : T A) : Prop :=
  clean p m /\ stops m.

(** Two runs that differ at most in the divergence warnings printed. *)
Definition same_but_warnings {A : Type} (m m' : T A) : Prop :=
  without_warnings (trace_of m) = without_warnings (trace_of m')
  /\ result_of m = result_of m'.

(** Whatever [m] raises satisfies [P]. *)
Definition raises_only (P : exn -> Prop) {A : Type} (m : T A) : Prop :=
  forall e, result_of m = inl e -> P e.

(** The events the playback loop can produce. *)
Definition is_loop_event (ev : event) : bool :=
  match ev with
  | Progress _ | CallStep _ | PrintDiverged _ _ | CallSetState _ | CallForward
  | CallUpdateSites | CallUpdateState | CallInitRenderer | CallViewerUpdate
  | AppendData _ => true
  | _ => false
  end.

End Shapes.

(** The order [np_argsort] sorts by. *)
Definition le_key (x y : Z * nat) : Prop := fst x <= fst y.


(** Identifiers of the form [demo_<n>], [<n>] written with the decimal
    digits [ds], and the number those digits denote. *)
Definition digit_char (d : nat) : ascii := ascii_of_nat (48 + d).

Definition demo_id (ds : list nat) : string :=
  ("demo_" ++ string_of_list_ascii (map digit_char ds))%string.

Definition numeral_value (ds : list nat) : Z :=
  fold_left (fun acc d => 10 * acc + Z.of_nat d) ds 0.

(** ** Further observations on traces *)

(** [l[a:b]] for [0 <= a]. *)
Definition py_slice {A : Type} (l : list A) (a b : Z) : list A :=
  firstn (Z.to_nat (b - a)) (skipn (Z.to_nat a) l).

(** The path of the video an episode is written to (process_demo,
    line 351). *)
Definition episode_video_path (video_path ep : string) : string :=
  (drop_last4 video_path ++ "_" ++ ep ++ ".mp4")%string.

Section MoreObservations.

Context {B : Backend}.

(** The states handed to [set_state_from_flattened], in order. *)
Definition restored_states (t : list event) : list StateVec :=
  flat_map (fun ev => match ev with CallSetState s => [s] | _ => [] end) t.

(** The actions handed to [env.step], in order. *)
Definition stepped_actions (t : list event) : list Action :=
  flat_map (fun ev => match ev with CallStep a => [a] | _ => [] end) t.

(** The episodes announced by [process_demo], in order. *)
Definition played_of (t : list event) : list string :=
  flat_map (fun ev => match ev with PrintPlayingBack ep => [ep] | _ => [] end) t.

Definition is_restore (ev : event) : bool :=
  match ev with CallSetState _ => true | _ => false end.

(** Calls on the on-screen viewer. *)
Definition is_viewer (ev : event) : bool :=
  match ev with
  | CallInitRenderer | CallViewerUpdate | CallViewerClose => true
  | _ => false
  end.

Definition is_viewer_update (ev : event) : bool :=
  match ev with CallViewerUpdate => true | _ => false end.

Definition is_playing_back (ev : event) : bool :=
  match ev with PrintPlayingBack _ => true | _ => false end.

Definition is_close_writer (ev : event) : bool :=
  match ev with CloseWriter => true | _ => false end.

Definition is_env_close (ev : event) : bool :=
  match ev with CallEnvClose => true | _ => false end.

(** The making of an environment, and the calls of its methods, of its
    simulator and of its viewer. *)
Definition is_sim_call (ev : event) : bool :=
  match ev with
  | CallMake _ _
  | CallSetAttrsFromEpMeta | CallSetEpMeta | CallReset | CallResetFromXml _
  | CallSimReset | CallSetState _ | CallForward | CallUpdateSites
  | CallUpdateState | CallStep _ | CallInitRenderer | CallViewerUpdate
  | CallViewerClose | CallEnvClose => true
  | _ => false
  end.

(** The value stored under ["states"], as the list of states it makes
    [reset_to] restore. *)
Definition initial_restore (init : state_dict) : list StateVec :=
  match sd_states init with
  | Some s => [s]
  | None => []
  end.

(** The events [process_demo] produces itself, outside the functions it
    calls. *)
Definition is_episode_mark (ev : event) : bool :=
  match ev with
  | PrintPlayingBack _ | OpenWriter _ | PrintSaved _ | CloseWriter
  | CallEnvClose => true
  | _ => false
  end.

(** Opening and closing of the resources an episode holds. *)
Definition is_lifecycle (ev : event) : bool :=
  match ev with
  | OpenWriter _ | CloseWriter | CallEnvClose => true
  | _ => false
  end.

Definition lifecycle_of (t : list event) : list event := filter is_lifecycle t.

(** The exceptions an [except Exception] clause catches. *)
Definition caught (e : exn) : Prop := is_Exception e = true.

(** The events of the kind [p] in [m] are [evs] when [m] returns, and
    there is none when it raises. *)
Definition on_return (p : event -> bool) (evs : list event) {A : Type}
    (m : T A) : Prop :=
  filter p (trace_of m) = if returned m then evs else [].

End MoreObservations.

(** ** ObservationKeyToModalityDict *)

Module ObsKeys.

(** The dictionary: keys in insertion order, each once. *)
Definition dict : Type := list (string * string).

(** [dict.__setitem__] *)
Fixpoint setitem (d : dict) (k v : string) : dict :=
  match d with
  | [] => [(k, v)]
  | (k', v') :: rest =>
      if String.eqb k k' then (k, v) :: rest else (k', v') :: setitem rest k v
  end.

(** What [__getitem__] leaves behind: the keys it announced on standard
    output, the dictionary afterwards, and the value or the exception. *)
Record lookup : Type := {
  announced : list string;
  after : dict;
  value : exn + string
}.

(** [ObservationKeyToModalityDict.__getitem__] *)
Definition getitem (d : dict) (item : string) : lookup :=
  let missing := match assoc item d with Some _ => false | None => true end in
  let d' := if missing then setitem d item "low_dim" else d in
  {| announced := if missing then [item] else [];
     after := d';
     value := match assoc item d' with
              | Some v => inr v
              | None => inl KeyError
              end |}.

End ObsKeys.

(** What a loop with the [break] of first-only mode gets through of the
    items [l] it is given. *)
Definition first_only {A : Type} (first : bool) (l : list A) : list A :=
  if first then firstn 1 l else l.

Section Defaults.

Context {B : Backend}.

(** The namespace after lines 443-457 of [playback_dataset] have filled
    in the video path and the image names that were not given. *)
Definition with_defaults (args : Args) : Args :=
  let args :=
    match video_path args with
    | None =>
        let head := split_hdf5_head (dataset args) in
        set_video_path args
          (if use_actions args then head ++ "_use_actions.mp4"
           else if use_abs_actions args then head ++ "_use_abs_actions.mp4"
           else head ++ ".mp4")%string
    | Some _ => args
    end in
  match render_image_names args with
  | None => set_render_image_names args (chars "robot0_agentview_center")
  | Some _ => args
  end.

End Defaults.

(** ** More runs on the toy dataset *)

Module ToyRuns.

#[local] Existing Instance Toy.backend.
#[local] Existing Instance Toy.world.

(** Arguments as the command line leaves them when only the dataset is
    named, with the playback mode and on-screen rendering varying. *)
Definition bare_args (from_obs replay_actions on_screen : bool) : Args := {|
  dataset := "demos.hdf5";
  filter_key := None;
  n := None;
  num_parallel_jobs := 1;
  num_frames := None;
  use_obs := from_obs;
  use_actions := replay_actions;
  use_abs_actions := false;
  render := on_screen;
  video_path := None;
  video_skip := 5;
  render_image_names := None;
  render_height := 512;
  render_width := 512;
  first := false;
  extend_states := false;
  verbose := false;
  use_current_env_model := false
|}.

(** Observation playback of the stored camera, every second image. *)
Definition obs_args : Args := {|
  dataset := "demos.hdf5";
  filter_key := None;
  n := None;
  num_parallel_jobs := 1;
  num_frames := None;
  use_obs := true;
  use_actions := false;
  use_abs_actions := false;
  render := false;
  video_path := Some "out.mp4";
  video_skip := 2;
  render_image_names := Some ["cam"];
  render_height := 512;
  render_width := 512;
  first := false;
  extend_states := false;
  verbose := false;
  use_current_env_model := false
|}.

(** Two episodes out of the dataset. *)
Definition sample_args : Args := {|
  dataset := "demos.hdf5";
  filter_key := None;
  n := Some 2;
  num_parallel_jobs := 1;
  num_frames := None;
  use_obs := false;
  use_actions := false;
  use_abs_actions := false;
  render := false;
  video_path := Some "out.mp4";
  video_skip := 1;
  render_image_names := Some ["egoview"];
  render_height := 512;
  render_width := 512;
  first := false;
  extend_states := false;
  verbose := false;
  use_current_env_model := false
|}.

(** A dataset with a group under [data] that is not an episode. *)
Definition odd_data : list (string * episode) :=
  [("demo_1", Toy.demo_episode); ("notes", Toy.broken_episode)].

Definition odd_file : h5file := {|
  f_data := Some odd_data;
  f_env_args := Some "Kitchen";
  f_mask := []
|}.

(** The images stored for the camera of the toy episode. *)
Definition cam_images : list (@Image Toy.backend) := [[1]; [2]; [3]; [4]; [5]].

(** A modality dictionary with one key. *)
Definition modalities : ObsKeys.dict := [("robot0_eef_pos", "low_dim")]%string.

(** Futures as they completed: an episode that failed with an
    exception, then one whose worker exited. *)
Definition failed_job : string * T unit := ("demo_3"%string, ([], inl ParseError)).
Definition exited_job : T unit := ([], inl (SystemExit 1)).

End ToyRuns.

(** ** Divergence warnings, and a reference for them *)

Section DivergenceObservations.

Context {B : Backend}.

(** The divergence warnings printed, in order: the norm and the step. *)
Definition warnings_of (t : list event) : list (Err * Z) :=
  flat_map (fun ev => match ev with
                      | PrintDiverged err i => [(err, i)]
                      | _ => []
                      end) t.

(** What the on-screen display of an iteration makes of the environment
    (lines 116-121); without it the environment is as it was. *)
Definition shown (render : bool) (env : Env) : Env :=
  if render
  then viewer_update (if viewer_is_none env
                      then env_initialize_renderer env else env)
  else env.

(** The specification's words for one step of action replay: at a step
    [i] other than the final index of the trajectory, the state of the
    environment just stepped is compared with [states[i + 1]]; when
    they differ, the norm of the difference is reported if [verbose] is
    set or [i] is the last index but one. *)
Definition divergence_at (states : list StateVec) (verbose : bool)
    (stepped : Env) (i : Z) : list (Err * Z) :=
  if i <? py_len states - 1 then
    match py_index states (i + 1) with
    | inr recorded =>
        if negb (np_all_equal recorded (sim_get_state stepped))
           && (verbose || (i =? py_len states - 2))
        then [(np_norm_diff recorded (sim_get_state stepped), i)]
        else []
    | inl _ => []
    end
  else [].

(** The specification's words for the whole window: every index is
    stepped with its action, whatever was reported before. *)
Fixpoint divergence_report (states : list StateVec) (acts : list Action)
    (render verbose : bool) (idxs : list Z) (env : Env) : list (Err * Z) :=
  match idxs with
  | [] => []
  | i :: rest =>
      match py_index acts i with
      | inr a =>
          let stepped := env_step env a in
          divergence_at states verbose stepped i
          ++ divergence_report states acts render verbose rest
               (shown render stepped)
      | inl _ => []
      end
  end.

End DivergenceObservations.

(** * Properties *)

(** ** Python built-ins *)

Lemma py_range_length (a b : Z) : List.length (py_range a b) = Z.to_nat (b - a).
Proof. unfold py_range. now rewrite length_map, length_seq. Qed.

Lemma py_range_len (a b : Z) : py_len (py_range a b) = Z.max 0 (b - a).
Proof. unfold py_len. rewrite py_range_length. lia. Qed.

Lemma py_range_in (a b i : Z) : In i (py_range a b) <-> a <= i < b.
Proof.
  unfold py_range. rewrite in_map_iff. split.
  - intros (k & <- & Hk). apply in_seq in Hk. lia.
  - intros H. exists (Z.to_nat (i - a)). split; [lia|]. apply in_seq. lia.
Qed.

Lemma py_range_empty (a b : Z) : b <= a -> py_range a b = [].
Proof.
  intros H. unfold py_range. replace (Z.to_nat (b - a)) with 0%nat by lia.
  reflexivity.
Qed.

Lemma py_index_inr {A : Type} (l : list A) (i : Z) :
  0 <= i < py_len l ->
  exists x, py_index l i = inr x /\ nth_error l (Z.to_nat i) = Some x.
Proof.
  intros H. unfold py_index.
  destruct (i <? 0) eqn:Hneg; [lia|].
  destruct ((i <? 0) || (py_len l <=? i)) eqn:Hout; [lia|].
  destruct (nth_error l (Z.to_nat i)) as [x|] eqn:Hnth.
  - exists x. now split.
  - apply nth_error_None in Hnth. unfold py_len in H. lia.
Qed.

Lemma py_index_same_length {A C : Type} (l : list A) (l' : list C) (i : Z) :
  List.length l = List.length l' ->
  (exists x y, py_index l i = inr x /\ py_index l' i = inr y)
  \/ (py_index l i = inl IndexError /\ py_index l' i = inl IndexError).
Proof.
  intros H. unfold py_index, py_len. rewrite <- H.
  set (j := if i <? 0 then i + Z.of_nat (List.length l) else i).
  destruct ((j <? 0) || (Z.of_nat (List.length l) <=? j)) eqn:Hout.
  - now right.
  - destruct (nth_error l (Z.to_nat j)) as [x|] eqn:Hx;
      destruct (nth_error l' (Z.to_nat j)) as [y|] eqn:Hy.
    + left. now exists x, y.
    + apply nth_error_None in Hy. lia.
    + apply nth_error_None in Hx. lia.
    + now right.
Qed.

Lemma randrange_range (n draw : Z) :
  0 < n -> exists r, randrange n draw = inr r /\ 0 <= r < n.
Proof.
  intros H. unfold randrange. destruct (n <=? 0) eqn:E; [lia|].
  exists (draw mod n). split; [reflexivity|]. now apply Z.mod_pos_bound.
Qed.

Lemma randrange_onto (n r : Z) : 0 <= r < n -> randrange n r = inr r.
Proof.
  intros H. unfold randrange. destruct (n <=? 0) eqn:E; [lia|].
  now rewrite Z.mod_small.
Qed.

(** ** The monad *)

Section MonadFacts.

Context {B : Backend}.

Lemma bind_inr {A C : Type} (m : T A) (k : A -> T C) t a :
  m = (t, inr a) -> bind m k = (t ++ fst (k a), snd (k a)).
Proof. intros ->. unfold bind. now destruct (k a). Qed.

Lemma bind_inv {A C : Type} (m : T A) (k : A -> T C) (t : list event) (c : C) :
  bind m k = (t, inr c) ->
  exists t1 a t2, m = (t1, inr a) /\ k a = (t2, inr c) /\ t = t1 ++ t2.
Proof.
  destruct m as [t1 [e|a]]; cbn; [discriminate|].
  destruct (k a) as [t2 r] eqn:Hk. intros [= <- ->].
  now exists t1, a, t2.
Qed.

Lemma bind_ret {A C : Type} (a : A) (k : A -> T C) : bind (ret a) k = k a.
Proof. unfold bind, ret. now destruct (k a). Qed.

Lemma bind_emit {C : Type} (ev : event) (k : unit -> T C) :
  bind (emit ev) k = (ev :: fst (k tt), snd (k tt)).
Proof. unfold bind, emit. now destruct (k tt). Qed.

Lemma bind_lift_inr {A C : Type} (a : A) (k : A -> T C) :
  bind (lift (inr a)) k = k a.
Proof. unfold bind, lift. now destruct (k a). Qed.

Lemma count_app (p : event -> bool) (t1 t2 : list event) :
  count p (t1 ++ t2) = (count p t1 + count p t2)%nat.
Proof. unfold count. now rewrite filter_app, length_app. Qed.

Lemma progress_of_app (t1 t2 : list event) :
  progress_of (t1 ++ t2) = progress_of t1 ++ progress_of t2.
Proof. unfold progress_of. now rewrite flat_map_app. Qed.

Lemma without_warnings_app (t1 t2 : list event) :
  without_warnings (t1 ++ t2) = without_warnings t1 ++ without_warnings t2.
Proof. unfold without_warnings. now rewrite filter_app. Qed.

End MonadFacts.

(** ** reset_to *)

Section ResetFacts.

Context {B : Backend}.

Lemma bind_call {C : Type} (ev : event) (f : Env -> Env) (env : Env)
    (k : Env -> T C) :
  bind (call ev f env) k = (ev :: fst (k (f env)), snd (k (f env))).
Proof. unfold call, bind, emit, ret. cbn. now destruct (k (f env)). Qed.

Lemma reset_to_states_only (env : Env) (s : StateVec) :
  let env2 := sim_forward (sim_set_state_from_flattened env s) in
  reset_to env {| sd_states := Some s; sd_model := None; sd_ep_meta := None |}
  = (CallSetState s :: CallForward :: hook_calls env2, inr (after_hooks env2)).
Proof.
  cbv zeta. unfold reset_to, hook_calls, after_hooks, call. cbn.
  destruct (has_update_sites _); cbn; destruct (has_update_state _); reflexivity.
Qed.

Lemma hook_calls_quiet (env : Env) :
  count touches_model (hook_calls env) = 0%nat
  /\ count is_append (hook_calls env) = 0%nat
  /\ count is_step (hook_calls env) = 0%nat
  /\ progress_of (hook_calls env) = [].
Proof.
  unfold hook_calls.
  destruct (has_update_sites env); destruct (has_update_state _); cbn; auto.
Qed.

Lemma reset_to_loadable (verbose : bool) (env : Env) (init : state_dict) :
  loadable verbose init = true ->
  exists t env',
    reset_to env init = (t, inr env')
    /\ count is_reload t = (match sd_model init with Some _ => 1 | None => 0 end)%nat
    /\ quiet t
    /\ match sd_model init with Some _ => In CallReset t | None => True end.
Proof.
  destruct init as [st [model|] meta]; unfold loadable; cbn [sd_ep_meta sd_model sd_states].
  - intros Hload.
    assert (exists j, match meta with
                      | Some (Some s) => decode_json s
                      | _ => ret json_empty
                      end = ([], inr j)) as [j Hj].
    { destruct meta as [[s|]|]; try (eexists; reflexivity).
      unfold decode_json. destruct (json_loads s); [eexists; reflexivity|discriminate]. }
    unfold reset_to. cbn [sd_ep_meta sd_model sd_states]. rewrite Hj.
    unfold call, quiet. cbn.
    destruct (has_set_attrs_from_ep_meta env); [|destruct (has_set_ep_meta env)];
      destruct st; cbn;
      destruct (has_update_sites _); cbn; destruct (has_update_state _); cbn;
      do 2 eexists; (split; [reflexivity|]); cbn; auto 10.
  - intros _. unfold reset_to, call, quiet. cbn.
    destruct st; cbn;
      destruct (has_update_sites _); cbn; destruct (has_update_state _); cbn;
      eauto 10.
Qed.

End ResetFacts.

(** ** The loop of playback_trajectory_with_env *)

Lemma capture_frame {B : Backend} (args : Args) (video_writer : option string)
    (video_skip : Z) (camera_names : option (list string))
    (env : Env) (vc : Z) (path cam : string) (cams : list string) :
  video_writer = Some path -> camera_names = Some (cam :: cams) ->
  video_skip <> 0 ->
  capture args video_writer video_skip camera_names env vc
  = (if vc mod video_skip =? 0 then [AppendData (frame_of args env cam cams)] else [],
     inr (vc + 1)).
Proof.
  intros -> -> Hskip. unfold capture, py_mod. cbv zeta iota.
  destruct (video_skip =? 0) eqn:E; [lia|].
  rewrite bind_lift_inr. destruct (vc mod video_skip =? 0); reflexivity.
Qed.

Section LoopFacts.

Context {B : Backend}.

Variables (args : Args) (states : list StateVec) (actions : option (list Action))
          (render : bool) (video_writer : option string) (video_skip : Z)
          (camera_names : option (list string)) (verbose : bool).

Hypothesis Hfit : actions_fit states actions = true.
Hypothesis Hvideo : video_ready video_writer video_skip camera_names = true.

Lemma calm_app (t1 t2 : list event) : calm t1 -> calm t2 -> calm (t1 ++ t2).
Proof.
  intros (a1 & p1) (a2 & p2). unfold calm.
  rewrite !count_app, progress_of_app, a1, a2, p1, p2. auto.
Qed.

Lemma advance_ok (env : Env) (i : Z) :
  0 <= i < py_len states ->
  exists t env',
    advance states actions verbose env i = (t, inr env')
    /\ calm t /\ count is_append t = 0%nat.
Proof.
  intros Hi. unfold advance. destruct actions as [acts|].
  - cbn in Hfit. apply Z.eqb_eq in Hfit.
    destruct (py_index_inr acts i) as (a & Ha & _); [lia|].
    rewrite Ha, bind_lift_inr, bind_call.
    destruct (i <? py_len states - 1) eqn:Hlast.
    + destruct (py_index_inr states (i + 1)) as (s & Hs & _); [lia|].
      rewrite Hs, bind_lift_inr.
      destruct (negb (np_all_equal s _)); [|cbn; do 2 eexists; repeat split].
      destruct (verbose || (i =? py_len states - 2)); cbn;
        do 2 eexists; repeat split.
    + cbn. do 2 eexists; repeat split.
  - destruct (py_index_inr states i) as (s & Hs & _); [lia|].
    rewrite Hs, bind_lift_inr, reset_to_states_only.
    do 2 eexists. split; [reflexivity|].
    destruct (hook_calls_quiet
                (sim_forward (sim_set_state_from_flattened env s)))
      as (Hm & Ha & _ & Hp).
    unfold calm, count in *. cbn. auto.
Qed.

Lemma show_ok (env : Env) :
  exists t env',
    show render env = (t, inr env') /\ calm t /\ count is_append t = 0%nat.
Proof.
  unfold show. destruct render; [|do 2 eexists; repeat split].
  destruct (viewer_is_none env) eqn:E.
  - rewrite bind_call. unfold on_viewer.
    rewrite initialize_renderer_binds_viewer. cbn.
    do 2 eexists; repeat split.
  - rewrite bind_ret. unfold on_viewer. rewrite E. cbn.
    do 2 eexists; repeat split.
Qed.

(** After [show] on screen the viewer is bound. *)
Lemma show_binds_viewer (env env' : Env) (t : list event) :
  show true env = (t, inr env') -> viewer_is_none env' = false.
Proof.
  unfold show. destruct (viewer_is_none env) eqn:E.
  - rewrite bind_call. unfold on_viewer.
    rewrite initialize_renderer_binds_viewer. cbn. intros [= _ <-].
    now rewrite viewer_update_keeps_viewer, initialize_renderer_binds_viewer.
  - rewrite bind_ret. unfold on_viewer. rewrite E. cbn. intros [= _ <-].
    now rewrite viewer_update_keeps_viewer.
Qed.

Lemma show_off (env : Env) : show false env = ([], inr env).
Proof. reflexivity. Qed.


Lemma capture_ok (env : Env) (vc : Z) :
  exists t,
    capture args video_writer video_skip camera_names env vc
    = (t, inr (match video_writer with Some _ => vc + 1 | None => vc end))
    /\ calm t
    /\ count is_append t
       = match video_writer with
         | Some _ => if vc mod video_skip =? 0 then 1%nat else 0%nat
         | None => 0%nat
         end.
Proof.
  unfold capture. destruct video_writer as [path|]; cbn in Hvideo; cbv zeta iota.
  - apply andb_true_iff in Hvideo as [Hskip Hcams].
    unfold py_mod. destruct (video_skip =? 0); [discriminate|].
    rewrite bind_lift_inr.
    destruct camera_names as [[|cam cams]|]; try discriminate.
    destruct (vc mod video_skip =? 0); cbn; eexists; repeat split.
  - eexists; repeat split.
Qed.

Lemma loop_body_ok (env : Env) (vc i : Z) :
  0 <= i < py_len states ->
  exists t env',
    loop_body args states actions render video_writer video_skip camera_names
      verbose env vc i
    = (t, inr (env', match video_writer with Some _ => vc + 1 | None => vc end))
    /\ calm t
    /\ count is_append t
       = match video_writer with
         | Some _ => if vc mod video_skip =? 0 then 1%nat else 0%nat
         | None => 0%nat
         end.
Proof.
  intros Hi. unfold loop_body.
  destruct (advance_ok env i Hi) as (t1 & e1 & H1 & C1 & A1).
  destruct (show_ok e1) as (t2 & e2 & H2 & C2 & A2).
  destruct (capture_ok e2 vc) as (t3 & H3 & C3 & A3).
  rewrite (bind_inr _ _ _ _ H1). cbn [fst snd].
  rewrite (bind_inr _ _ _ _ H2). cbn [fst snd].
  rewrite (bind_inr _ _ _ _ H3). cbn [fst snd ret].
  exists (t1 ++ t2 ++ t3 ++ []), e2. split; [reflexivity|].
  rewrite app_nil_r. split.
  - auto using calm_app.
  - rewrite !count_app, A1, A2, A3. reflexivity.
Qed.

(** On screen, an iteration leaves the viewer bound. *)
Lemma loop_body_binds_viewer (env env' : Env) (vc vc' i : Z) (t : list event) :
  loop_body args states actions true video_writer video_skip camera_names
    verbose env vc i = (t, inr (env', vc')) ->
  viewer_is_none env' = false.
Proof.
  unfold loop_body. intros H.
  apply bind_inv in H as (t1 & e1 & t1' & _ & H & _).
  apply bind_inv in H as (t2 & e2 & t2' & Hshow & H & _).
  apply bind_inv in H as (t3 & v3 & t3' & _ & H & _).
  injection H as _ <- _. now apply show_binds_viewer in Hshow.
Qed.

Lemma for_steps_binds_viewer (first : bool) (idxs : list Z) :
  idxs <> [] ->
  forall (env env' : Env) (vc vc' : Z) (t : list event),
    for_steps args states actions true video_writer video_skip camera_names
      first verbose idxs env vc = (t, inr (env', vc')) ->
    viewer_is_none env' = false.
Proof.
  induction idxs as [|i rest IH]; [congruence|]. intros _ env env' vc vc' t.
  cbn [for_steps]. intros H.
  apply bind_inv in H as (t0 & [] & t0' & _ & H & _).
  apply bind_inv in H as (t1 & [e1 v1] & t1' & Hbody & H & _).
  apply loop_body_binds_viewer in Hbody.
  destruct first; [injection H as _ <- _; exact Hbody|].
  destruct rest as [|j rest'].
  - cbn in H. injection H as _ <- _. exact Hbody.
  - cbn [fst snd] in H. now apply (IH ltac:(discriminate) _ _ _ _ _ H).
Qed.

Lemma for_steps_ok (idxs : list Z) :
  Forall (fun i => 0 <= i < py_len states) idxs ->
  forall (env : Env) (vc : Z),
  exists t env',
    for_steps args states actions render video_writer video_skip camera_names
      false verbose idxs env vc
    = (t, inr (env', match video_writer with
                     | Some _ => vc + py_len idxs
                     | None => vc
                     end))
    /\ count touches_model t = 0%nat
    /\ progress_of t = idxs
    /\ count is_append t
       = match video_writer with
         | Some _ => sampled video_skip vc (List.length idxs)
         | None => 0%nat
         end.
Proof.
  induction 1 as [|i rest Hi Hrest IH]; intros env vc.
  - exists [], env. split; [|repeat split; destruct video_writer; reflexivity].
    cbn. unfold ret. do 3 f_equal.
    destruct video_writer; [unfold py_len; cbn; lia|reflexivity].
  - cbn [for_steps]. rewrite bind_emit. cbn [fst snd].
    destruct (loop_body_ok env vc i Hi) as (t1 & e1 & H1 & (M1 & P1) & A1).
    rewrite (bind_inr _ _ _ _ H1). cbn [fst snd].
    destruct (IH e1 (match video_writer with Some _ => vc + 1 | None => vc end))
      as (t2 & e2 & H2 & M2 & P2 & A2).
    rewrite H2. cbn [fst snd].
    exists (Progress i :: t1 ++ t2), e2. repeat split.
    + f_equal. f_equal. f_equal. destruct video_writer; [|reflexivity].
      unfold py_len. cbn [List.length]. lia.
    + change (Progress i :: t1 ++ t2) with ([Progress i] ++ t1 ++ t2).
      rewrite !count_app, M1, M2. reflexivity.
    + change (Progress i :: t1 ++ t2) with ([Progress i] ++ t1 ++ t2).
      rewrite !progress_of_app, P1, P2. reflexivity.
    + change (Progress i :: t1 ++ t2) with ([Progress i] ++ t1 ++ t2).
      rewrite !count_app, A1, A2. destruct video_writer; reflexivity.
Qed.

Lemma for_steps_first (idxs : list Z) (env : Env) (vc : Z) :
  for_steps args states actions render video_writer video_skip camera_names
    true verbose idxs env vc
  = for_steps args states actions render video_writer video_skip camera_names
      false verbose (firstn 1 idxs) env vc.
Proof.
  destruct idxs as [|i rest]; [reflexivity|]. cbn [firstn for_steps].
  f_equal.
  destruct (loop_body args states actions render video_writer video_skip
              camera_names verbose env vc i) as [t [e|[e v]]]; reflexivity.
Qed.

Lemma for_steps_visited (first : bool) (idxs : list Z) :
  Forall (fun i => 0 <= i < py_len states) idxs ->
  forall (env : Env) (vc : Z),
  exists t env',
    for_steps args states actions render video_writer video_skip camera_names
      first verbose idxs env vc
    = (t, inr (env', match video_writer with
                     | Some _ => vc + py_len (visited first idxs)
                     | None => vc
                     end))
    /\ count touches_model t = 0%nat
    /\ progress_of t = visited first idxs
    /\ count is_append t
       = match video_writer with
         | Some _ => sampled video_skip vc (List.length (visited first idxs))
         | None => 0%nat
         end.
Proof.
  intros Hall env vc. destruct first; cbn [visited].
  - rewrite for_steps_first. apply for_steps_ok.
    destruct idxs as [|i rest]; [constructor|].
    inversion Hall; subst. cbn. auto.
  - now apply for_steps_ok.
Qed.

End LoopFacts.

(** ** Window selection *)

Lemma select_window_ok (num_frames : option Z) (traj_len draw : Z) :
  0 <= traj_len ->
  exists a b,
    select_window num_frames traj_len draw = inr (a, b)
    /\ 0 <= a
    /\ b <= traj_len
    /\ b - a = match num_frames with
               | None => traj_len
               | Some nf => Z.min nf traj_len
               end
    /\ a <= traj_len - (b - a).
Proof.
  intros HL. unfold select_window. destruct num_frames as [nf|].
  - destruct (randrange_range (traj_len - Z.min nf traj_len + 1) draw)
      as (r & Hr & Hrange); [lia|].
    rewrite Hr. exists r, (r + Z.min nf traj_len). repeat split; lia.
  - exists 0, traj_len. repeat split; lia.
Qed.

Lemma py_range_within (a b len : Z) :
  0 <= a -> b <= len -> Forall (fun i => 0 <= i < len) (py_range a b).
Proof.
  intros Ha Hb. apply Forall_forall. intros i Hi. apply py_range_in in Hi. lia.
Qed.

Lemma py_len_nonneg {A : Type} (l : list A) : 0 <= py_len l.
Proof. unfold py_len. lia. Qed.

(** ** Frame sampling arithmetic *)

Lemma ceil_div_step (c k : Z) :
  0 < k ->
  ceil_div (c + 1) k = ceil_div c k + (if c mod k =? 0 then 1 else 0).
Proof.
  intros Hk. unfold ceil_div.
  pose proof (Z.div_mod c k ltac:(lia)) as Hc.
  pose proof (Z.mod_pos_bound c k Hk) as Hm.
  destruct (c mod k =? 0) eqn:E.
  - apply Z.eqb_eq in E.
    replace (c + 1 + k - 1) with ((c / k + 1) * k + 0) by lia.
    replace (c + k - 1) with ((c / k) * k + (k - 1)) by lia.
    rewrite !Z.div_add_l by lia.
    rewrite Z.div_small with (a := k - 1) by lia.
    rewrite Z.div_0_l by lia. lia.
  - apply Z.eqb_neq in E.
    replace (c + 1 + k - 1) with ((c / k + 1) * k + c mod k) by lia.
    replace (c + k - 1) with ((c / k + 1) * k + (c mod k - 1)) by lia.
    rewrite !Z.div_add_l by lia.
    rewrite (Z.div_small (c mod k) k), (Z.div_small (c mod k - 1) k) by lia.
    lia.
Qed.

Lemma sampled_ceil (k : Z) (n : nat) (c : Z) :
  0 < k ->
  Z.of_nat (sampled k c n) = ceil_div (c + Z.of_nat n) k - ceil_div c k.
Proof.
  intros Hk. revert c. induction n as [|n IH]; intros c.
  - cbn [sampled]. replace (c + Z.of_nat 0) with c by lia. lia.
  - cbn [sampled]. rewrite Nat2Z.inj_add, IH.
    replace (c + 1 + Z.of_nat n) with (c + Z.of_nat (S n)) by lia.
    rewrite (ceil_div_step c k Hk). destruct (c mod k =? 0); lia.
Qed.

Lemma ceil_div_zero (k : Z) : 0 < k -> ceil_div 0 k = 0.
Proof. intros Hk. unfold ceil_div. apply Z.div_small. lia. Qed.

(** [ceil_div] is the ceiling of the quotient. *)
Lemma ceil_div_spec (a k : Z) :
  0 < k -> k * (ceil_div a k - 1) < a <= k * ceil_div a k.
Proof.
  intros Hk. unfold ceil_div.
  pose proof (Z.div_mod (a + k - 1) k ltac:(lia)).
  pose proof (Z.mod_pos_bound (a + k - 1) k Hk). lia.
Qed.

(** ** A whole run of playback_trajectory_with_env *)

Section RunFacts.

Context {B : Backend}.

Variables (args : Args) (states : list StateVec) (actions : option (list Action))
          (render : bool) (video_writer : option string) (video_skip : Z)
          (camera_names : option (list string)) (verbose : bool).

Let write_video : bool := match video_writer with Some _ => true | None => false end.

Hypothesis Hxor : render && write_video = false.
Hypothesis Hfit : actions_fit states actions = true.
Hypothesis Hvideo : video_ready video_writer video_skip camera_names = true.

Lemma prelude_ok (init : state_dict) :
  loadable verbose init = true ->
  exists t,
    (if verbose then
       ep_meta <- match sd_ep_meta init with
                  | None => raise KeyError
                  | Some None => raise TypeError
                  | Some (Some s) => decode_json s
                  end ;;
       match json_get_lang ep_meta with
       | Some lang => emit (PrintInstruction lang)
       | None => ret tt
       end ;;
       emit PrintSpawning
     else ret tt) = (t, inr tt)
    /\ count is_reload t = 0%nat /\ quiet t.
Proof.
  unfold loadable. destruct verbose.
  - destruct (sd_ep_meta init) as [[s|]|]; try discriminate.
    intros Hs.
    assert (json_loads s <> None) as Hj.
    { destruct (sd_model init); destruct (json_loads s); congruence. }
    unfold decode_json. destruct (json_loads s) as [j|]; [|congruence].
    rewrite bind_ret. destruct (json_get_lang j); cbn;
      eexists; repeat split.
  - intros _. exists []. repeat split.
Qed.

Lemma py_range_nonempty (a b : Z) : a < b -> py_range a b <> [].
Proof.
  intros H E. apply (f_equal (@List.length Z)) in E.
  rewrite py_range_length in E. cbn in E. lia.
Qed.

Lemma visited_nonempty (first : bool) (idxs : list Z) :
  idxs <> [] -> visited first idxs <> [].
Proof. destruct first, idxs; cbn; congruence. Qed.

(** A run whose inputs are in order returns, unless it is an on-screen
    run over an empty window: there the viewer may never have been
    bound. *)
Lemma playback_ok (first : bool) (env : Env) (init : state_dict) (draw : Z) :
  loadable verbose init = true ->
  exists a b,
    select_window (num_frames args) (py_len states) draw = inr (a, b)
    /\ (render = false \/ a < b ->
        exists t env',
          playback_trajectory_with_env args states actions render video_writer
            video_skip camera_names first verbose env init draw = (t, inr env')
          /\ count is_reload t
             = match sd_model init with Some _ => 1 | None => 0 end%nat
          /\ progress_of t = visited first (py_range a b)
          /\ count is_append t
             = match video_writer with
               | Some _ =>
                   sampled video_skip 0
                     (List.length (visited first (py_range a b)))
               | None => 0%nat
               end).
Proof.
  intros Hload.
  destruct (select_window_ok (num_frames args) (py_len states) draw
              (py_len_nonneg states)) as (a & b & Hw & Ha & Hb & _).
  exists a, b. split; [exact Hw|]. intros Hbound.
  unfold playback_trajectory_with_env.
  fold write_video. rewrite Hxor. cbn [negb assert]. rewrite bind_ret.
  destruct (prelude_ok init Hload) as (t0 & H0 & R0 & A0 & S0 & P0).
  rewrite (bind_inr _ _ _ _ H0). cbn [fst snd].
  destruct (reset_to_loadable verbose env init Hload)
    as (t1 & e1 & H1 & R1 & (A1 & S1 & P1) & _).
  rewrite (bind_inr _ _ _ _ H1). cbn [fst snd].
  assert (match actions with
          | Some acts => assert AssertEqualLength (py_len states =? py_len acts)
          | None => ret tt
          end = ([], inr tt)) as H2.
  { unfold actions_fit in Hfit. destruct actions; [rewrite Hfit|]; reflexivity. }
  rewrite (bind_inr _ _ _ _ H2). cbn [fst snd].
  assert (exists t3, (if negb render then emit PrintRunning else ret tt)
                     = (t3, inr tt)
                     /\ count is_reload t3 = 0%nat /\ quiet t3)
    as (t3 & H3 & R3 & A3 & S3 & P3).
  { destruct render; cbn; eexists; repeat split. }
  rewrite (bind_inr _ _ _ _ H3). cbn [fst snd].
  rewrite Hw, bind_lift_inr. cbn [fst snd].
  destruct (for_steps_visited args states actions render video_writer video_skip
              camera_names verbose Hfit Hvideo first (py_range a b)
              (py_range_within a b _ Ha Hb) e1 0)
    as (t4 & e4 & H4 & M4 & P4 & A4).
  rewrite (bind_inr _ _ _ _ H4). cbn [fst snd].
  assert (count is_reload t4 = 0%nat) as R4.
  { clear - M4. unfold count in *. induction t4 as [|ev t IH]; [reflexivity|].
    cbn in *. destruct ev; cbn in *; try discriminate; auto. }
  assert (exists t5 e5, (if render
                         then on_viewer CallViewerClose viewer_close e4
                         else ret e4) = (t5, inr e5)
                        /\ count is_reload t5 = 0%nat
                        /\ count is_append t5 = 0%nat /\ progress_of t5 = [])
    as (t5 & e5 & H5 & R5 & A5 & P5).
  { destruct render eqn:Hr; [|cbn; do 2 eexists; repeat split].
    destruct Hbound as [Hoff|Hab]; [discriminate|].
    unfold on_viewer.
    rewrite (for_steps_binds_viewer args states actions video_writer video_skip
               camera_names verbose first (py_range a b)
               (py_range_nonempty a b Hab) _ _ _ _ _ H4).
    cbn. do 2 eexists; repeat split. }
  rewrite H5. cbn [fst snd].
  exists (t0 ++ t1 ++ [] ++ t3 ++ [] ++ t4 ++ t5), e5.
  split; [reflexivity|].
  rewrite !count_app, !progress_of_app, R0, R1, R3, R4, R5, A0, A1, A3, A4, A5,
    P0, P1, P3, P4, P5.
  cbn. rewrite app_nil_r. repeat split; lia.
Qed.

End RunFacts.

(** ** playback_trajectory_with_obs *)

Section ObsFacts.

Context {B : Backend}.

Variables (traj_grp : episode) (path : string) (video_skip : Z)
          (image_names : list string).

Hypothesis Hskip : video_skip <> 0.

Lemma gather_obs_ok (names : list string) (len i : Z) :
  forallb (fun k => match obs_images traj_grp k with
                    | inr imgs => len <=? py_len imgs
                    | inl _ => false
                    end) names = true ->
  0 <= i < len ->
  exists ims,
    gather_obs traj_grp names i = inr ims
    /\ List.length ims = List.length names.
Proof.
  intros Hall Hi. induction names as [|k rest IH]; cbn in *.
  - now exists [].
  - apply andb_true_iff in Hall as [Hk Hrest].
    destruct (obs_images traj_grp k) as [e|imgs]; [discriminate|].
    destruct (py_index_inr imgs i) as (im & Him & _); [lia|].
    rewrite Him. destruct (IH Hrest) as (ims & -> & Hlen).
    exists (im :: ims). cbn. auto.
Qed.

Lemma obs_body_ok (len vc i : Z) :
  image_names <> [] ->
  forallb (fun k => match obs_images traj_grp k with
                    | inr imgs => len <=? py_len imgs
                    | inl _ => false
                    end) image_names = true ->
  0 <= i < len ->
  exists t,
    obs_body traj_grp (Some path) video_skip image_names vc i = (t, inr (vc + 1))
    /\ count is_append t = if vc mod video_skip =? 0 then 1%nat else 0%nat.
Proof.
  intros Hne Hall Hi. unfold obs_body, py_mod.
  destruct (video_skip =? 0) eqn:E; [lia|]. rewrite bind_lift_inr.
  destruct (vc mod video_skip =? 0).
  - destruct (gather_obs_ok image_names len i Hall Hi) as (ims & -> & Hlen).
    rewrite bind_lift_inr.
    destruct ims as [|im ims].
    + destruct image_names; [congruence|discriminate].
    + cbn. eexists. split; reflexivity.
  - cbn. eexists. split; reflexivity.
Qed.

Lemma for_obs_ok (len : Z) (idxs : list Z) :
  image_names <> [] ->
  forallb (fun k => match obs_images traj_grp k with
                    | inr imgs => len <=? py_len imgs
                    | inl _ => false
                    end) image_names = true ->
  Forall (fun i => 0 <= i < len) idxs ->
  forall vc,
  exists t,
    for_obs traj_grp (Some path) video_skip image_names false idxs vc
    = (t, inr (vc + py_len idxs))
    /\ count is_append t = sampled video_skip vc (List.length idxs).
Proof.
  intros Hne Hall. induction 1 as [|i rest Hi Hrest IH]; intros vc.
  - exists []. split; [|reflexivity]. cbn. unfold ret. do 2 f_equal.
    unfold py_len. cbn. lia.
  - cbn [for_obs].
    destruct (obs_body_ok len vc i Hne Hall Hi) as (t1 & H1 & A1).
    rewrite (bind_inr _ _ _ _ H1). cbn [fst snd].
    destruct (IH (vc + 1)) as (t2 & H2 & A2). rewrite H2. cbn [fst snd].
    exists (t1 ++ t2). split.
    + do 2 f_equal. unfold py_len. cbn [List.length]. lia.
    + rewrite count_app, A1, A2. reflexivity.
Qed.

Lemma playback_obs_ok :
  obs_ready traj_grp image_names = true ->
  exists len t,
    obs_length traj_grp image_names = Some len
    /\ playback_trajectory_with_obs traj_grp (Some path) video_skip
         (Some image_names) false = (t, inr tt)
    /\ count is_append t = sampled video_skip 0 (Z.to_nat len).
Proof.
  unfold obs_ready. destruct (obs_length traj_grp image_names) as [len|] eqn:Hlen;
    [|discriminate].
  intros Hall. exists len.
  unfold obs_length in Hlen. destruct image_names as [|name0 rest] eqn:Hnames;
    [discriminate|].
  destruct (obs_images traj_grp name0) as [e|seq0] eqn:Hseq; [discriminate|].
  injection Hlen as <-.
  unfold playback_trajectory_with_obs.
  change (py_index (name0 :: rest) 0) with (@inr exn _ name0).
  rewrite bind_lift_inr, Hseq, bind_lift_inr.
  rewrite <- Hnames in *.
  destruct (for_obs_ok (py_len seq0) (py_range 0 (py_len seq0))
              ltac:(congruence) Hall
              (py_range_within 0 (py_len seq0) (py_len seq0) ltac:(lia) ltac:(lia)) 0)
    as (t & Ht & At).
  rewrite (bind_inr _ _ _ _ Ht). cbn [fst snd ret].
  exists (t ++ []). split; [reflexivity|]. split; [reflexivity|].
  rewrite app_nil_r, At, py_range_length. f_equal. lia.
Qed.

End ObsFacts.

(** ** Facts that hold of every run, failing or not *)

Section Always.

Context {B : Backend}.

Lemma trace_bind {A C : Type} (m : T A) (k : A -> T C) :
  trace_of (bind m k)
  = trace_of m ++ match result_of m with
                  | inr a => trace_of (k a)
                  | inl _ => []
                  end.
Proof.
  destruct m as [t [e|a]]; cbn.
  - now rewrite app_nil_r.
  - now destruct (k a).
Qed.

Lemma result_bind {A C : Type} (m : T A) (k : A -> T C) :
  result_of (bind m k)
  = match result_of m with
    | inr a => result_of (k a)
    | inl e => inl e
    end.
Proof. destruct m as [t [e|a]]; cbn; [reflexivity|now destruct (k a)]. Qed.

Variable p : event -> bool.

Lemma clean_ret {A : Type} (a : A) : clean p (ret a).
Proof. reflexivity. Qed.

Lemma clean_raise {A : Type} (e : exn) : clean p (@raise B A e).
Proof. reflexivity. Qed.

Lemma clean_lift {A : Type} (r : exn + A) : clean p (lift r).
Proof. reflexivity. Qed.

Lemma clean_assert (site : assert_site) (b : bool) : clean p (assert site b).
Proof. now destruct b. Qed.

Lemma clean_emit (ev : event) : p ev = false -> clean p (emit ev).
Proof. intros H. unfold clean, count. cbn. now rewrite H. Qed.

Lemma clean_call (ev : event) (f : Env -> Env) (env : Env) :
  p ev = false -> clean p (call ev f env).
Proof. intros H. unfold clean, count. cbn. now rewrite H. Qed.

Lemma clean_on_viewer (ev : event) (f : Env -> Env) (env : Env) :
  p ev = false -> clean p (on_viewer ev f env).
Proof.
  intros H. unfold on_viewer.
  destruct (viewer_is_none env); [apply clean_raise|now apply clean_call].
Qed.

Lemma clean_bind {A C : Type} (m : T A) (k : A -> T C) :
  clean p m -> (forall a, clean p (k a)) -> clean p (bind m k).
Proof.
  unfold clean. intros Hm Hk. rewrite trace_bind, count_app, Hm.
  destruct (result_of m); [reflexivity|apply Hk].
Qed.

Lemma clean_bind_stops {A C : Type} (m : T A) (k : A -> T C) :
  clean p m -> stops m -> clean p (bind m k).
Proof.
  unfold clean, stops, returned. intros Hm Hs.
  rewrite trace_bind, count_app, Hm.
  destruct (result_of m); [reflexivity|discriminate].
Qed.

Lemma stops_here {A C : Type} (m : T A) (k : A -> T C) :
  stops m -> stops (bind m k).
Proof.
  unfold stops, returned. intros Hm. rewrite result_bind.
  destruct (result_of m); [reflexivity|discriminate].
Qed.

Lemma once_after {A C : Type} (m : T A) (k : A -> T C) :
  clean p m -> (forall a, once p (k a)) -> once p (bind m k).
Proof.
  unfold clean, once, returned. intros Hm Hk.
  rewrite trace_bind, result_bind, count_app, Hm.
  destruct (result_of m) as [e|a]; cbn.
  - split; [lia|discriminate].
  - apply Hk.
Qed.

Lemma once_before {A C : Type} (m : T A) (k : A -> T C) :
  once p m -> (forall a, clean p (k a)) -> once p (bind m k).
Proof.
  unfold clean, once, returned. intros [Hle Heq] Hk.
  rewrite trace_bind, result_bind, count_app.
  destruct (result_of m) as [e|a]; cbn.
  - split; [lia|discriminate].
  - rewrite Hk. split; [lia|]. intros _. rewrite Heq; reflexivity.
Qed.

Lemma clean_emit_all (evs : list event) :
  (forall ev, In ev evs -> p ev = false) -> clean p (emit_all evs).
Proof.
  induction evs as [|ev rest IH]; intros H; cbn [emit_all].
  - apply clean_ret.
  - apply clean_bind; [apply clean_emit, H; now left|].
    intros _. apply IH. intros ev' Hin. apply H. now right.
Qed.

End Always.

(** Discharges [clean p m] for straight-line code whose events are not
    of the kind [p]. *)
Ltac clean_step :=
  first
    [ apply clean_ret
    | apply clean_raise
    | apply clean_lift
    | apply clean_assert
    | apply clean_emit; reflexivity
    | apply clean_call; reflexivity
    | apply clean_on_viewer; reflexivity
    | apply clean_bind; [|intros ?]
    | match goal with
      | |- clean _ (if ?b then _ else _) => destruct b
      | |- clean _ (match ?x with _ => _ end) => destruct x
      | |- clean _ (let _ := _ in _) => cbv zeta
      end ].

Ltac clean_all := repeat clean_step.

Section AlwaysPlayback.

Context {B : Backend}.

Lemma clean_decode_json (p : event -> bool) (s : string) :
  clean p (decode_json s).
Proof. unfold decode_json. clean_all. Qed.

Lemma clean_reset_to_states (p : event -> bool) (env : Env) (s : StateVec) :
  p (CallSetState s) = false -> p CallForward = false ->
  p CallUpdateSites = false -> p CallUpdateState = false ->
  clean p (reset_to env
             {| sd_states := Some s; sd_model := None; sd_ep_meta := None |}).
Proof.
  intros H1 H2 H3 H4. rewrite reset_to_states_only. unfold clean, count, hook_calls.
  cbn. rewrite H1, H2.
  destruct (has_update_sites _); destruct (has_update_state _);
    cbn; rewrite ?H3, ?H4; reflexivity.
Qed.

Variables (args : Args) (states : list StateVec) (actions : option (list Action))
          (render : bool) (video_writer : option string) (video_skip : Z)
          (camera_names : option (list string)) (first verbose : bool).

Section BlindToLoop.

Variable p : event -> bool.
Hypothesis Hp : forall ev, is_loop_event ev = true -> p ev = false.

Lemma clean_loop_body (env : Env) (vc i : Z) :
  clean p
    (loop_body args states actions render video_writer video_skip camera_names
       verbose env vc i).
Proof.
  unfold loop_body, advance, show, capture.
  apply clean_bind.
  - destruct actions.
    + repeat first [apply clean_emit; now apply Hp
                   |apply clean_call; now apply Hp
                   |clean_step].
    + apply clean_bind; [clean_all|]. intros s.
      apply clean_reset_to_states; now apply Hp.
  - intros env1.
    repeat first [apply clean_emit; now apply Hp
                 |apply clean_call; now apply Hp
                 |apply clean_on_viewer; now apply Hp
                 |clean_step].
Qed.

Lemma clean_for_steps (idxs : list Z) :
  forall (env : Env) (vc : Z),
    clean p
      (for_steps args states actions render video_writer video_skip
         camera_names first verbose idxs env vc).
Proof.
  induction idxs as [|i rest IH]; intros env vc; cbn [for_steps].
  - apply clean_ret.
  - apply clean_bind; [apply clean_emit; now apply Hp|]. intros _.
    apply clean_bind; [apply clean_loop_body|]. intros st.
    destruct first; [apply clean_ret|apply IH].
Qed.

End BlindToLoop.

Lemma clean_model_for_steps (idxs : list Z) (env : Env) (vc : Z) :
  clean touches_model
    (for_steps args states actions render video_writer video_skip
       camera_names first verbose idxs env vc).
Proof.
  apply clean_for_steps. intros ev. destruct ev; cbn; congruence.
Qed.

Lemma count_reload_le_model (t : list event) :
  (count is_reload t <= count touches_model t)%nat.
Proof.
  unfold count. induction t as [|ev t IH]; [reflexivity|].
  destruct ev; cbn; lia.
Qed.

Lemma clean_reload_of_model {A : Type} (m : T A) :
  clean touches_model m -> clean is_reload m.
Proof.
  unfold clean. intros H. pose proof (count_reload_le_model (trace_of m)). lia.
Qed.

Lemma once_reload_reset_to (env : Env) (init : state_dict) (model : string) :
  sd_model init = Some model -> once is_reload (reset_to env init).
Proof.
  intros Hm. unfold reset_to. rewrite Hm.
  apply once_before.
  - apply once_after.
    { destruct (sd_ep_meta init) as [[s|]|];
        [apply clean_decode_json|apply clean_ret|apply clean_ret]. }
    intros ep_meta. apply once_after; [clean_all|]. intros env1.
    apply once_after; [clean_all|]. intros env2.
    apply once_before; [|intros; clean_all].
    unfold once, call. cbn. split; [lia|reflexivity].
  - intros env1. clean_all.
Qed.

Lemma once_reload_playback (env : Env) (init : state_dict) (model : string)
    (draw : Z) :
  sd_model init = Some model ->
  once is_reload
    (playback_trajectory_with_env args states actions render video_writer
       video_skip camera_names first verbose env init draw).
Proof.
  intros Hm. unfold playback_trajectory_with_env.
  apply once_after; [clean_all|]. intros _.
  apply once_after; [clean_all; apply clean_decode_json|]. intros _.
  apply once_before; [now apply once_reload_reset_to with (model := model)|].
  intros env1.
  apply clean_bind; [clean_all|]. intros _.
  apply clean_bind; [clean_all|]. intros _.
  apply clean_bind; [clean_all|]. intros w.
  apply clean_bind; [apply clean_reload_of_model, clean_model_for_steps|].
  intros st. clean_all.
Qed.

End AlwaysPlayback.

(** ** What a run restores and steps *)

Lemma py_slice_range {A : Type} (l : list A) (a b : Z) :
  0 <= a -> b <= py_len l ->
  flat_map (fun i => match py_index l i with inr x => [x] | inl _ => [] end)
    (py_range a b)
  = py_slice l a b.
Proof.
  intros Ha Hb. unfold py_range, py_slice.
  destruct (Z.le_gt_cases b a) as [Hba|Hba].
  { now replace (Z.to_nat (b - a)) with 0%nat by lia. }
  remember (Z.to_nat (b - a)) as n eqn:Hn.
  assert (Z.of_nat n <= py_len l - a) as Hle by lia.
  clear Hn Hb Hba. revert a l Ha Hle.
  induction n as [|n IH]; intros a l Ha Hle; [reflexivity|].
  cbn [seq map flat_map].
  destruct (py_index_inr l (a + Z.of_nat 0)) as (x & Hx & Hnth); [lia|].
  rewrite Hx. cbn [app].
  replace (Z.to_nat (a + Z.of_nat 0)) with (Z.to_nat a) in Hnth by lia.
  apply nth_error_split in Hnth as (l1 & l2 & -> & Hlen).
  assert (skipn (Z.to_nat a) (l1 ++ x :: l2) = x :: l2) as Hskip.
  { rewrite <- Hlen, skipn_app, skipn_all, Nat.sub_diag. reflexivity. }
  rewrite Hskip. cbn [firstn]. f_equal.
  rewrite <- seq_shift, map_map.

  assert (skipn (Z.to_nat (a + 1)) (l1 ++ x :: l2) = l2) as Hskip'.
  { replace (Z.to_nat (a + 1)) with (S (List.length l1)) by lia.
    change (l1 ++ x :: l2) with (l1 ++ [x] ++ l2).
    rewrite app_assoc.
    replace (S (List.length l1)) with (List.length (l1 ++ [x]))
      by (rewrite length_app; cbn; lia).
    rewrite skipn_app, skipn_all, Nat.sub_diag. reflexivity. }
  transitivity (firstn n (skipn (Z.to_nat (a + 1)) (l1 ++ x :: l2)));
    [|now rewrite Hskip'].
  rewrite (map_ext (fun k => a + Z.of_nat (S k)) (fun k => a + 1 + Z.of_nat k))
    by (intros; lia).
  apply IH; [lia|]. unfold py_len in *. lia.
Qed.

Section ReplayFacts.

Context {B : Backend}.

Lemma restored_states_app (t1 t2 : list event) :
  restored_states (t1 ++ t2) = restored_states t1 ++ restored_states t2.
Proof. unfold restored_states. now rewrite flat_map_app. Qed.

Lemma stepped_actions_app (t1 t2 : list event) :
  stepped_actions (t1 ++ t2) = stepped_actions t1 ++ stepped_actions t2.
Proof. unfold stepped_actions. now rewrite flat_map_app. Qed.

Lemma warnings_of_app (t1 t2 : list event) :
  warnings_of (t1 ++ t2) = warnings_of t1 ++ warnings_of t2.
Proof. unfold warnings_of. now rewrite flat_map_app. Qed.

Lemma hook_calls_silent (env : Env) :
  restored_states (hook_calls env) = [] /\ stepped_actions (hook_calls env) = [].
Proof.
  unfold hook_calls. destruct (has_update_sites env);
    destruct (has_update_state _); now split.
Qed.

Lemma reset_to_restores (verbose : bool) (env : Env) (init : state_dict) :
  loadable verbose init = true ->
  exists t env',
    reset_to env init = (t, inr env')
    /\ restored_states t = initial_restore init
    /\ stepped_actions t = [].
Proof.
  destruct init as [st [model|] meta]; unfold loadable, initial_restore;
    cbn [sd_ep_meta sd_model sd_states].
  - intros Hload.
    assert (exists j, match meta with
                      | Some (Some s) => decode_json s
                      | _ => ret json_empty
                      end = ([], inr j)) as [j Hj].
    { destruct meta as [[s|]|]; try (eexists; reflexivity).
      unfold decode_json. destruct (json_loads s); [eexists; reflexivity|discriminate]. }
    unfold reset_to. cbn [sd_ep_meta sd_model sd_states]. rewrite Hj.
    unfold call. cbn.
    destruct (has_set_attrs_from_ep_meta env); [|destruct (has_set_ep_meta env)];
      destruct st; cbn;
      destruct (has_update_sites _); cbn; destruct (has_update_state _); cbn;
      do 2 eexists; (split; [reflexivity|]); cbn; auto.
  - intros _. unfold reset_to, call. cbn.
    destruct st; cbn;
      destruct (has_update_sites _); cbn; destruct (has_update_state _); cbn;
      do 2 eexists; (split; [reflexivity|]); cbn; auto.
Qed.

Variables (args : Args) (states : list StateVec)
          (render : bool) (video_writer : option string) (video_skip : Z)
          (camera_names : option (list string)) (verbose : bool).

Hypothesis Hvideo : video_ready video_writer video_skip camera_names = true.

Lemma show_silent (env : Env) :
  exists t,
    show render env = (t, inr (shown render env))
    /\ restored_states t = [] /\ stepped_actions t = []
    /\ warnings_of t = [] /\ progress_of t = [].
Proof.
  unfold show, shown. destruct render; [|eexists; repeat split].
  destruct (viewer_is_none env) eqn:E.
  - rewrite bind_call. unfold on_viewer.
    rewrite initialize_renderer_binds_viewer. cbn.
    eexists; repeat split.
  - rewrite bind_ret. unfold on_viewer. rewrite E. cbn.
    eexists; repeat split.
Qed.

Lemma capture_silent (env : Env) (vc : Z) :
  exists t vc',
    capture args video_writer video_skip camera_names env vc = (t, inr vc')
    /\ restored_states t = [] /\ stepped_actions t = []
    /\ warnings_of t = [] /\ progress_of t = [].
Proof.
  unfold capture. destruct video_writer as [path|]; cbn in Hvideo; cbv zeta iota.
  - apply andb_true_iff in Hvideo as [Hskip Hcams].
    unfold py_mod. destruct (video_skip =? 0); [discriminate|].
    rewrite bind_lift_inr.
    destruct camera_names as [[|cam cams]|]; try discriminate.
    destruct (vc mod video_skip =? 0); cbn; do 2 eexists; repeat split.
  - do 2 eexists; repeat split.
Qed.

Lemma loop_body_state_replay (env : Env) (vc i : Z) (s : StateVec) :
  py_index states i = inr s ->
  exists t st,
    loop_body args states None render video_writer video_skip camera_names
      verbose env vc i = (t, inr st)
    /\ restored_states t = [s] /\ stepped_actions t = [].
Proof.
  intros Hs. unfold loop_body.
  set (env2 := sim_forward (sim_set_state_from_flattened env s)).
  assert (advance states None verbose env i
          = (CallSetState s :: CallForward :: hook_calls env2,
             inr (after_hooks env2))) as H1.
  { unfold advance. rewrite Hs, bind_lift_inr. apply reset_to_states_only. }
  rewrite (bind_inr _ _ _ _ H1). cbn [fst snd].
  destruct (hook_calls_silent env2) as [Hr0 Hs0].
  destruct (show_silent (after_hooks env2)) as (t2 & H2 & Hr2 & Hs2 & _).
  rewrite (bind_inr _ _ _ _ H2). cbn [fst snd].
  destruct (capture_silent (shown render (after_hooks env2)) vc)
    as (t3 & vc' & H3 & Hr3 & Hs3 & _).
  rewrite (bind_inr _ _ _ _ H3). cbn [fst snd ret].
  do 2 eexists. split; [reflexivity|].
  change ((CallSetState s :: CallForward :: hook_calls env2) ++ t2 ++ t3 ++ [])
    with ([CallSetState s] ++ [CallForward] ++ hook_calls env2 ++ t2 ++ t3 ++ []).
  rewrite !restored_states_app, !stepped_actions_app,
    Hr0, Hs0, Hr2, Hs2, Hr3, Hs3.
  split; reflexivity.
Qed.

Lemma for_steps_state_replay (idxs : list Z) :
  Forall (fun i => 0 <= i < py_len states) idxs ->
  forall (env : Env) (vc : Z),
  exists t st,
    for_steps args states None render video_writer video_skip camera_names
      false verbose idxs env vc = (t, inr st)
    /\ restored_states t
       = flat_map (fun i => match py_index states i with
                            | inr x => [x]
                            | inl _ => []
                            end) idxs
    /\ stepped_actions t = [].
Proof.
  induction 1 as [|i rest Hi Hrest IH]; intros env vc.
  - do 2 eexists. repeat split.
  - cbn [for_steps flat_map]. rewrite bind_emit. cbn [fst snd].
    destruct (py_index_inr states i Hi) as (s & Hs & _).
    destruct (loop_body_state_replay env vc i s Hs)
      as (t1 & st1 & H1 & Hr1 & Hs1).
    rewrite (bind_inr _ _ _ _ H1). cbn [fst snd].
    destruct (IH (fst st1) (snd st1)) as (t4 & st & H4 & Hr4 & Hs4).
    rewrite H4. cbn [fst snd]. do 2 eexists. split; [reflexivity|].
    rewrite Hs.
    change (Progress i :: t1 ++ t4) with ([Progress i] ++ t1 ++ t4).
    rewrite !restored_states_app, !stepped_actions_app, Hr1, Hs1, Hr4, Hs4.
    split; reflexivity.
Qed.

Variable acts : list Action.
Hypothesis Hfit : py_len states = py_len acts.

Lemma advance_action (env : Env) (i : Z) (a : Action) :
  0 <= i < py_len states ->
  py_index acts i = inr a ->
  exists t1,
    advance states (Some acts) verbose env i
    = (CallStep a :: t1, inr (env_step env a))
    /\ restored_states t1 = [] /\ stepped_actions t1 = []
    /\ progress_of t1 = []
    /\ warnings_of t1 = divergence_at states verbose (env_step env a) i.
Proof.
  intros Hi Ha. unfold advance, divergence_at.
  rewrite Ha, bind_lift_inr, bind_call.
  destruct (i <? py_len states - 1) eqn:Hlast; [|eexists; repeat split].
  destruct (py_index_inr states (i + 1)) as (s & Hs & _); [lia|].
  rewrite Hs, bind_lift_inr.
  destruct (negb (np_all_equal s _)); [|eexists; repeat split].
  destruct (verbose || (i =? py_len states - 2)); eexists; repeat split.
Qed.

Lemma loop_body_action_replay (env : Env) (vc i : Z) (a : Action) :
  0 <= i < py_len states ->
  py_index acts i = inr a ->
  exists t vc',
    loop_body args states (Some acts) render video_writer video_skip
      camera_names verbose env vc i
    = (t, inr (shown render (env_step env a), vc'))
    /\ restored_states t = [] /\ stepped_actions t = [a]
    /\ progress_of t = []
    /\ warnings_of t = divergence_at states verbose (env_step env a) i.
Proof.
  intros Hi Ha. unfold loop_body.
  destruct (advance_action env i a Hi Ha) as (t1 & H1 & Hr1 & Hs1 & Hp1 & Hw1).
  rewrite (bind_inr _ _ _ _ H1). cbn [fst snd].
  destruct (show_silent (env_step env a)) as (t2 & H2 & Hr2 & Hs2 & Hw2 & Hp2).
  rewrite (bind_inr _ _ _ _ H2). cbn [fst snd].
  destruct (capture_silent (shown render (env_step env a)) vc)
    as (t3 & vc1 & H3 & Hr3 & Hs3 & Hw3 & Hp3).
  rewrite (bind_inr _ _ _ _ H3). cbn [fst snd ret].
  do 2 eexists. split; [reflexivity|].
  change ((CallStep a :: t1) ++ t2 ++ t3 ++ [])
    with ([CallStep a] ++ t1 ++ t2 ++ t3 ++ []).
  rewrite !restored_states_app, !stepped_actions_app, !progress_of_app,
    !warnings_of_app, Hr1, Hs1, Hp1, Hw1, Hr2, Hs2, Hp2, Hw2, Hr3, Hs3, Hp3, Hw3.
  cbn. rewrite !app_nil_r. repeat split.
Qed.

Lemma for_steps_action_replay (idxs : list Z) :
  Forall (fun i => 0 <= i < py_len states) idxs ->
  forall (env : Env) (vc : Z),
  exists t env' vc',
    for_steps args states (Some acts) render video_writer video_skip
      camera_names false verbose idxs env vc = (t, inr (env', vc'))
    /\ restored_states t = []
    /\ stepped_actions t
       = flat_map (fun i => match py_index acts i with
                            | inr x => [x]
                            | inl _ => []
                            end) idxs
    /\ progress_of t = idxs
    /\ warnings_of t = divergence_report states acts render verbose idxs env
    /\ env' = fold_left (fun e a => shown render (env_step e a))
                (stepped_actions t) env.
Proof.
  induction 1 as [|i rest Hi Hrest IH]; intros env vc.
  - do 3 eexists. repeat split.
  - cbn [for_steps flat_map divergence_report]. rewrite bind_emit. cbn [fst snd].
    destruct (py_index_inr acts i) as (a & Ha & _); [lia|].
    destruct (loop_body_action_replay env vc i a Hi Ha)
      as (t1 & vc1 & H1 & Hr1 & Hs1 & Hp1 & Hw1).
    rewrite (bind_inr _ _ _ _ H1). cbn [fst snd].
    destruct (IH (shown render (env_step env a)) vc1)
      as (t4 & env' & vc' & H4 & Hr4 & Hs4 & Hp4 & Hw4 & He4).
    rewrite H4. cbn [fst snd]. do 3 eexists. split; [reflexivity|].
    rewrite Ha. cbv zeta.
    change (Progress i :: t1 ++ t4) with ([Progress i] ++ t1 ++ t4).
    rewrite !restored_states_app, !stepped_actions_app, !progress_of_app,
      !warnings_of_app, Hr1, Hs1, Hp1, Hw1, Hr4, Hp4, Hw4.
    cbn [app flat_map progress_of warnings_of restored_states stepped_actions
         fold_left].
    repeat split; [now rewrite Hs4|exact He4].
Qed.

End ReplayFacts.

Section WholeRuns.

Context {B : Backend}.

Lemma no_warnings (t : list event) :
  count is_warning t = 0%nat -> warnings_of t = [].
Proof.
  unfold count. induction t as [|ev t IH]; [reflexivity|].
  destruct ev; cbn; try discriminate; exact IH.
Qed.

Lemma prelude_silent (verbose : bool) (init : state_dict) :
  loadable verbose init = true ->
  exists t,
    (if verbose then
       ep_meta <- match sd_ep_meta init with
                  | None => raise KeyError
                  | Some None => raise TypeError
                  | Some (Some s) => decode_json s
                  end ;;
       match json_get_lang ep_meta with
       | Some lang => emit (PrintInstruction lang)
       | None => ret tt
       end ;;
       emit PrintSpawning
     else ret tt) = (t, inr tt)
    /\ restored_states t = [] /\ stepped_actions t = []
    /\ progress_of t = [] /\ count is_append t = 0%nat
    /\ count is_viewer t = 0%nat
    /\ warnings_of t = [] /\ count touches_model t = 0%nat.
Proof.
  unfold loadable. destruct verbose.
  - destruct (sd_ep_meta init) as [[s|]|]; try discriminate.
    intros Hs.
    assert (json_loads s <> None) as Hj.
    { destruct (sd_model init); destruct (json_loads s); congruence. }
    unfold decode_json. destruct (json_loads s) as [j|]; [|congruence].
    rewrite bind_ret. destruct (json_get_lang j); cbn;
      eexists; repeat split.
  - intros _. exists []. repeat split.
Qed.

Variables (args : Args) (states : list StateVec) (actions : option (list Action))
          (render : bool) (video_writer : option string) (video_skip : Z)
          (camera_names : option (list string)) (first verbose : bool).

Hypothesis Hxor :
  render && (match video_writer with Some _ => true | None => false end) = false.
Hypothesis Hfit : actions_fit states actions = true.

(** A run is its initial load followed by the loop over the window and
    the closing of the viewer. *)
Lemma playback_prefix (env : Env) (init : state_dict) (draw : Z) :
  loadable verbose init = true ->
  exists tpre env1 a b,
    result_of (reset_to env init) = inr env1
    /\ select_window (num_frames args) (py_len states) draw = inr (a, b)
    /\ 0 <= a /\ b <= py_len states
    /\ playback_trajectory_with_env args states actions render video_writer
         video_skip camera_names first verbose env init draw
       = bind (tpre, inr tt)
           (fun _ =>
              st <- for_steps args states actions render video_writer
                      video_skip camera_names first verbose (py_range a b)
                      env1 0 ;;
              if render then on_viewer CallViewerClose viewer_close (fst st)
              else ret (fst st))
    /\ restored_states tpre = initial_restore init
    /\ stepped_actions tpre = []
    /\ progress_of tpre = []
    /\ count is_append tpre = 0%nat
    /\ count is_viewer tpre = 0%nat
    /\ warnings_of tpre = []
    /\ count touches_model tpre
       = count touches_model (trace_of (reset_to env init)).
Proof.
  intros Hload.
  destruct (select_window_ok (num_frames args) (py_len states) draw
              (py_len_nonneg states)) as (a & b & Hw & Ha & Hb & _).
  destruct (prelude_silent verbose init Hload)
    as (t0 & H0 & R0 & S0 & P0 & A0 & V0 & W0 & M0).
  destruct (reset_to_restores verbose env init Hload) as (t1 & e1 & H1 & R1 & S1).
  destruct (reset_to_loadable verbose env init Hload)
    as (t1' & e1' & H1' & _ & (A1 & _ & P1) & _).
  rewrite H1 in H1'. injection H1' as <- <-.
  assert (count is_viewer t1 = 0%nat) as V1.
  { change t1 with (trace_of (t1, @inr exn _ e1)). rewrite <- H1.
    change (clean is_viewer (reset_to env init)).
    unfold reset_to. clean_all; apply clean_decode_json. }
  assert (warnings_of t1 = []) as W1.
  { apply no_warnings.
    change t1 with (trace_of (t1, @inr exn _ e1)). rewrite <- H1.
    change (clean is_warning (reset_to env init)).
    unfold reset_to. clean_all; apply clean_decode_json. }
  assert (exists t3, (if negb render then emit PrintRunning else ret tt)
                     = (t3, inr tt)
                     /\ restored_states t3 = [] /\ stepped_actions t3 = []
                     /\ progress_of t3 = [] /\ count is_append t3 = 0%nat
                     /\ count is_viewer t3 = 0%nat
                     /\ warnings_of t3 = [] /\ count touches_model t3 = 0%nat)
    as (t3 & H3 & R3 & S3 & P3 & A3 & V3 & W3 & M3).
  { destruct render; cbn; eexists; repeat split. }
  exists (t0 ++ t1 ++ t3), e1, a, b.
  split; [now rewrite H1|]. split; [exact Hw|]. split; [exact Ha|].
  split; [exact Hb|]. split.
  - unfold playback_trajectory_with_env. rewrite Hxor. cbn [negb assert].
    rewrite bind_ret, (bind_inr _ _ _ _ H0). cbn [fst snd].
    rewrite (bind_inr _ _ _ _ H1). cbn [fst snd].
    assert (match actions with
            | Some acts => assert AssertEqualLength (py_len states =? py_len acts)
            | None => ret tt
            end = ([], inr tt)) as H2.
    { unfold actions_fit in Hfit. destruct actions; [rewrite Hfit|]; reflexivity. }
    rewrite (bind_inr _ _ _ _ H2). cbn [fst snd].
    rewrite (bind_inr _ _ _ _ H3). cbn [fst snd].
    rewrite Hw, bind_lift_inr. cbn [fst snd].
    rewrite (bind_inr _ _ (t0 ++ t1 ++ t3) tt eq_refl).
    cbn [app]. now rewrite <- !app_assoc.
  - rewrite !restored_states_app, !stepped_actions_app, !progress_of_app,
      !warnings_of_app, !count_app, R0, R1, R3, S0, S1, S3, P0, P1, P3,
      A0, A1, A3, V0, V1, V3, W0, W1, W3, M0, M3, H1.
    rewrite app_nil_r. cbn [trace_of fst]. repeat split. lia.
Qed.

(** After the loop the viewer is closed, when the run is on screen: it
    is bound as soon as one iteration has run. *)
Lemma close_after_loop (idxs : list Z) (env : Env) (vc : Z)
    (t : list event) (st : Env * Z) :
  for_steps args states actions render video_writer video_skip camera_names
    first verbose idxs env vc = (t, inr st) ->
  render = false \/ idxs <> [] ->
  (if render then on_viewer CallViewerClose viewer_close (fst st)
   else ret (fst st))
  = (if render then [CallViewerClose] else [],
     inr (if render then viewer_close (fst st) else fst st)).
Proof.
  intros Hl Hne. destruct render eqn:Hr; [|reflexivity].
  destruct Hne as [Hoff|Hne]; [discriminate|]. destruct st as [e v].
  unfold on_viewer. cbn [fst].
  now rewrite (for_steps_binds_viewer args states actions video_writer
                 video_skip camera_names verbose first idxs Hne _ _ _ _ _ Hl).
Qed.

End WholeRuns.

Section ReplayRuns.

Context {B : Backend}.

Lemma indexed_first_only {A : Type} (l : list A) (first : bool) (a b : Z) :
  0 <= a -> b <= py_len l ->
  flat_map (fun i => match py_index l i with inr x => [x] | inl _ => [] end)
    (visited first (py_range a b))
  = first_only first (py_slice l a b).
Proof.
  intros Ha Hb. unfold visited, first_only. destruct first.
  - rewrite <- (py_slice_range l a b Ha Hb).
    pose proof (py_range_within a b (py_len l) Ha Hb) as Hin.
    destruct (py_range a b) as [|i rest]; [reflexivity|].
    inversion Hin as [|? ? Hi _]; subst.
    destruct (py_index_inr l i Hi) as (x & Hx & _).
    cbn [firstn flat_map]. rewrite Hx. reflexivity.
  - apply py_slice_range; assumption.
Qed.

Lemma for_steps_as_visited (args : Args) (states : list StateVec)
    (actions : option (list Action)) (render : bool)
    (video_writer : option string) (video_skip : Z)
    (camera_names : option (list string)) (first verbose : bool)
    (idxs : list Z) (env : Env) (vc : Z) :
  for_steps args states actions render video_writer video_skip camera_names
    first verbose idxs env vc
  = for_steps args states actions render video_writer video_skip camera_names
      false verbose (visited first idxs) env vc.
Proof.
  destruct first; [apply for_steps_first|reflexivity].
Qed.

Lemma visited_forall (P : Z -> Prop) (first : bool) (idxs : list Z) :
  Forall P idxs -> Forall P (visited first idxs).
Proof.
  intros H. destruct first; [|exact H]. unfold visited.
  destruct H; cbn [firstn]; repeat constructor; assumption.
Qed.

(** A state replay whose inputs are in order; on screen it returns
    when its window is not empty. *)
Lemma state_replay_run
    (args : Args) (states : list StateVec) (render : bool)
    (video_writer : option string) (video_skip : Z)
    (camera_names : option (list string)) (first verbose : bool)
    (env : Env) (init : state_dict) (draw : Z) :
  render && (match video_writer with Some _ => true | None => false end) = false ->
  video_ready video_writer video_skip camera_names = true ->
  loadable verbose init = true ->
  exists a b,
    select_window (num_frames args) (py_len states) draw = inr (a, b)
    /\ (render = false \/ a < b ->
        exists t env',
          playback_trajectory_with_env args states None render video_writer
            video_skip camera_names first verbose env init draw = (t, inr env')
          /\ restored_states t
             = initial_restore init ++ first_only first (py_slice states a b)
          /\ stepped_actions t = []
          /\ count touches_model t
             = count touches_model (trace_of (reset_to env init))).
Proof.
  intros Hxor Hvideo Hload.
  destruct (playback_prefix args states None render video_writer video_skip
              camera_names first verbose Hxor eq_refl env init draw Hload)
    as (tpre & env1 & a & b & _ & Hw & Ha & Hb & Hrun & Rp & Sp & _ & _ & _
        & _ & Mp).
  exists a, b. split; [exact Hw|]. intros Hwin.
  pose proof (visited_forall _ first _ (py_range_within a b _ Ha Hb)) as Hin.
  destruct (for_steps_state_replay args states render video_writer video_skip
              camera_names verbose Hvideo _ Hin env1 0)
    as (tl & st & Hl & Rl & Sl).
  rewrite <- for_steps_as_visited in Hl.
  assert (render = false \/ py_range a b <> []) as Hne.
  { destruct Hwin; [now left|right; now apply py_range_nonempty]. }
  pose proof (close_after_loop args states None render video_writer
                video_skip camera_names first verbose Hxor (py_range a b)
                env1 0 tl st Hl Hne) as Hclose.
  pose proof (clean_model_for_steps args states None render video_writer
                video_skip camera_names first verbose (py_range a b) env1 0)
    as Ml.
  unfold clean in Ml. rewrite Hl in Ml. cbn [trace_of fst] in Ml.
  rewrite indexed_first_only in Rl by assumption.
  rewrite Hrun. cbn [bind fst snd]. rewrite Hl. cbn [bind fst snd].
  rewrite Hclose. cbn [fst snd].
  do 2 eexists. split; [reflexivity|].
  rewrite !restored_states_app, !stepped_actions_app, !count_app,
    Rp, Rl, Sp, Sl, Mp, Ml.
  destruct render; cbn; rewrite ?app_nil_r; repeat split; lia.
Qed.

(** An action replay whose inputs are in order. *)
Lemma action_replay_run
    (args : Args) (states : list StateVec) (acts : list Action) (render : bool)
    (video_writer : option string) (video_skip : Z)
    (camera_names : option (list string)) (first verbose : bool)
    (env : Env) (init : state_dict) (draw : Z) :
  render && (match video_writer with Some _ => true | None => false end) = false ->
  py_len states = py_len acts ->
  video_ready video_writer video_skip camera_names = true ->
  loadable verbose init = true ->
  exists a b env1,
    select_window (num_frames args) (py_len states) draw = inr (a, b)
    /\ result_of (reset_to env init) = inr env1
    /\ (render = false \/ a < b ->
        exists t env',
          playback_trajectory_with_env args states (Some acts) render
            video_writer video_skip camera_names first verbose env init draw
          = (t, inr env')
          /\ restored_states t = initial_restore init
          /\ stepped_actions t = first_only first (py_slice acts a b)
          /\ (render = false ->
              env' = fold_left env_step
                       (first_only first (py_slice acts a b)) env1)).
Proof.
  intros Hxor Hlen Hvideo Hload.
  assert (actions_fit states (Some acts) = true) as Hfit
    by (unfold actions_fit; now apply Z.eqb_eq).
  destruct (playback_prefix args states (Some acts) render video_writer
              video_skip camera_names first verbose Hxor Hfit env init draw
              Hload)
    as (tpre & env1 & a & b & H1 & Hw & Ha & Hb & Hrun & Rp & Sp & _).
  exists a, b, env1. split; [exact Hw|]. split; [exact H1|]. intros Hwin.
  pose proof (visited_forall _ first _ (py_range_within a b _ Ha Hb)) as Hin.
  destruct (for_steps_action_replay args states render video_writer video_skip
              camera_names verbose Hvideo acts Hlen _ Hin env1 0)
    as (tl & e' & vc' & Hl & Rl & Sl & _ & _ & El).
  rewrite <- for_steps_as_visited in Hl.
  assert (render = false \/ py_range a b <> []) as Hne.
  { destruct Hwin; [now left|right; now apply py_range_nonempty]. }
  pose proof (close_after_loop args states (Some acts) render video_writer
                video_skip camera_names first verbose Hxor (py_range a b)
                env1 0 tl (e', vc') Hl Hne) as Hclose.
  cbn [fst] in Hclose.
  rewrite indexed_first_only in Sl by (rewrite <- ?Hlen; assumption).
  rewrite Hrun. cbn [bind fst snd]. rewrite Hl. cbn [bind fst snd].
  rewrite Hclose. cbn [fst snd].
  do 2 eexists. split; [reflexivity|].
  rewrite !restored_states_app, !stepped_actions_app, Rp, Rl, Sp, Sl.
  split; [destruct render; cbn; now rewrite ?app_nil_r|].
  split; [destruct render; cbn; now rewrite ?app_nil_r|].
  intros Hoff. rewrite Hoff in *. rewrite El, Sl. reflexivity.
Qed.

End ReplayRuns.

(** ** Divergence in action replay (claim C1) *)

Section Divergence.

Context {B : Backend}.

Lemma same_refl {A : Type} (m : T A) : same_but_warnings m m.
Proof. now split. Qed.

Lemma same_bind {A C : Type} (m m' : T A) (k k' : A -> T C) :
  same_but_warnings m m' ->
  (forall a, same_but_warnings (k a) (k' a)) ->
  same_but_warnings (bind m k) (bind m' k').
Proof.
  intros [Ht Hr] Hk. unfold same_but_warnings.
  rewrite !trace_bind, !result_bind, !without_warnings_app, Ht, <- Hr.
  destruct (result_of m) as [e|a]; [now split|].
  destruct (Hk a) as [Ht' Hr']. now rewrite Ht', Hr'.
Qed.

Lemma same_bind_l {A C : Type} (m : T A) (k k' : A -> T C) :
  (forall a, same_but_warnings (k a) (k' a)) ->
  same_but_warnings (bind m k) (bind m k').
Proof. intros Hk. apply same_bind; [apply same_refl|exact Hk]. Qed.

Variables (args : Args) (states states' : list StateVec) (acts : list Action)
          (render : bool) (video_writer : option string) (video_skip : Z)
          (camera_names : option (list string)) (first verbose : bool).

Hypothesis Hlen : List.length states = List.length states'.

Lemma py_len_same : py_len states' = py_len states.
Proof. unfold py_len. now rewrite Hlen. Qed.

Lemma advance_same (env : Env) (i : Z) :
  same_but_warnings (advance states (Some acts) verbose env i)
                    (advance states' (Some acts) verbose env i).
Proof.
  unfold advance. rewrite py_len_same.
  apply same_bind_l. intros a. apply same_bind_l. intros env1.
  destruct (i <? py_len states - 1); [|apply same_refl].
  destruct (py_index_same_length states states' (i + 1) Hlen)
    as [(s & s' & Hs & Hs')|[Hs Hs']]; rewrite Hs, Hs'; [|apply same_refl].
  rewrite !bind_lift_inr.
  destruct (negb (np_all_equal s _)), (negb (np_all_equal s' _)),
    (verbose || (i =? py_len states - 2)); split; reflexivity.
Qed.

Lemma loop_body_same (env : Env) (vc i : Z) :
  same_but_warnings
    (loop_body args states (Some acts) render video_writer video_skip
       camera_names verbose env vc i)
    (loop_body args states' (Some acts) render video_writer video_skip
       camera_names verbose env vc i).
Proof.
  unfold loop_body. apply same_bind; [apply advance_same|].
  intros env1. apply same_refl.
Qed.

Lemma for_steps_same (idxs : list Z) :
  forall (env : Env) (vc : Z),
    same_but_warnings
      (for_steps args states (Some acts) render video_writer video_skip
         camera_names first verbose idxs env vc)
      (for_steps args states' (Some acts) render video_writer video_skip
         camera_names first verbose idxs env vc).
Proof.
  induction idxs as [|i rest IH]; intros env vc; cbn [for_steps].
  - apply same_refl.
  - apply same_bind_l. intros _.
    apply same_bind; [apply loop_body_same|]. intros st.
    destruct first; [apply same_refl|apply IH].
Qed.

Lemma playback_same (env : Env) (init : state_dict) (draw : Z) :
  same_but_warnings
    (playback_trajectory_with_env args states (Some acts) render video_writer
       video_skip camera_names first verbose env init draw)
    (playback_trajectory_with_env args states' (Some acts) render video_writer
       video_skip camera_names first verbose env init draw).
Proof.
  unfold playback_trajectory_with_env. rewrite py_len_same.
  do 6 (apply same_bind_l; intros ?).
  apply same_bind; [apply for_steps_same|]. intros st. apply same_refl.
Qed.

End Divergence.

(** An action replay whose inputs are in order, seen as a whole: it
    goes through its window, steps with the window's actions and warns
    as [divergence_report] says. *)
Lemma action_replay_warns {B : Backend} (args : Args) (states : list StateVec)
    (acts : list Action) (render : bool) (video_writer : option string)
    (video_skip : Z) (camera_names : option (list string)) (verbose : bool)
    (env : Env) (init : state_dict) (draw a b : Z) :
  py_len states = py_len acts ->
  render && (match video_writer with Some _ => true | None => false end)
    = false ->
  video_ready video_writer video_skip camera_names = true ->
  loadable verbose init = true ->
  select_window (num_frames args) (py_len states) draw = inr (a, b) ->
  (render = true -> a < b) ->
  exists env1 t env',
    result_of (reset_to env init) = inr env1
    /\ playback_trajectory_with_env args states (Some acts) render
         video_writer video_skip camera_names false verbose env init draw
       = (t, inr env')
    /\ progress_of t = py_range a b
    /\ stepped_actions t = py_slice acts a b
    /\ warnings_of t
       = divergence_report states acts render verbose (py_range a b) env1.
Proof.
  intros Hfit Hxor Hvideo Hload Hsel Hwin.
  assert (actions_fit states (Some acts) = true) as Hfit'.
  { cbn. now apply Z.eqb_eq. }
  destruct (playback_prefix args states (Some acts) render video_writer
              video_skip camera_names false verbose Hxor Hfit' env init draw
              Hload)
    as (tpre & env1 & a' & b' & Hreset & Hsel' & Ha & Hb & Hrun & _ & Spre
        & Ppre & _ & _ & Wpre & _).
  rewrite Hsel in Hsel'. injection Hsel' as <- <-.
  destruct (for_steps_action_replay args states render video_writer video_skip
              camera_names verbose Hvideo acts Hfit (py_range a b)
              (py_range_within a b _ Ha Hb) env1 0)
    as (tl & e' & vc' & Hl & _ & Sl & Pl & Wl & _).
  assert (render = false \/ py_range a b <> []) as Hne.
  { destruct render; [right|now left]. apply py_range_nonempty. now apply Hwin. }
  pose proof (close_after_loop args states (Some acts) render video_writer
                video_skip camera_names false verbose Hxor (py_range a b) env1 0
                tl (e', vc') Hl Hne) as Hclose.
  cbn [fst] in Hclose.
  rewrite Hrun. cbn [bind fst snd]. rewrite Hl. cbn [bind fst snd].
  rewrite Hclose. cbn [fst snd].
  exists env1. do 2 eexists. split; [exact Hreset|]. split; [reflexivity|].
  rewrite !progress_of_app, !stepped_actions_app, !warnings_of_app,
    Ppre, Spre, Wpre, Pl, Sl, Wl.
  rewrite (py_slice_range acts a b Ha) by (rewrite <- Hfit; exact Hb).
  destruct render; cbn; rewrite ?app_nil_r; repeat split.
Qed.


(** ** Scene reloads (claim C2) *)

Section ProcessDemoReloads.

Context {B : Backend} {W : World}.

Lemma clean_get_env_metadata (p : event -> bool) (a d : string) :
  p (PrintErrorOpening a) = false ->
  clean p (get_env_metadata_from_dataset a d).
Proof.
  intros H. unfold get_env_metadata_from_dataset.
  apply clean_bind.
  - destruct (h5py_File _); [apply clean_ret|].
    apply clean_bind; [now apply clean_emit|intros; apply clean_raise].
  - intros f. clean_all. apply clean_decode_json.
Qed.

Lemma clean_make_env (p : event -> bool) (args : Args) :
  (forall s, p (PrintErrorOpening s) = false) ->
  (forall s, p (PrintInitializing s) = false) ->
  (forall kw b, p (CallMake kw b) = false) ->
  clean p (make_env_from_args args).
Proof.
  intros H1 H2 H3. unfold make_env_from_args.
  apply clean_bind; [now apply clean_get_env_metadata|]. intros meta.
  apply clean_bind; [apply clean_lift|]. intros kw.
  apply clean_bind.
  { destruct (verbose args); [now apply clean_emit|apply clean_ret]. }
  intros _. apply clean_bind; [now apply clean_emit|intros; apply clean_ret].
Qed.

Lemma clean_finish_video (p : event -> bool) (vw : option string) :
  (forall s, p (PrintSaved s) = false) -> p CloseWriter = false ->
  clean p (finish_video vw).
Proof.
  intros H1 H2. unfold finish_video. destruct vw; [|apply clean_ret].
  apply clean_bind; [now apply clean_emit|intros; now apply clean_emit].
Qed.

Lemma once_reload_process_demo (args : Args) (ep : string) (draw : Z) :
  use_obs args = false ->
  once is_reload (process_demo args ep draw).
Proof.
  intros Hobs. unfold process_demo. rewrite Hobs.
  apply once_after; [clean_all|]. intros _. cbv zeta.
  apply once_after; [clean_all|]. intros vw.
  apply once_after; [clean_all|]. intros f.
  apply once_after; [now apply clean_make_env|]. intros env.
  apply once_after; [clean_all|]. intros grp.
  apply once_after; [clean_all|]. intros states.
  apply once_after; [clean_all|]. intros state0.
  apply once_after; [clean_all|]. intros model_file.
  apply once_after; [clean_all|]. intros hidden.
  apply once_after.
  { apply clean_emit_all. intros ev Hin. apply in_map_iff in Hin as (s & <- & _).
    reflexivity. }
  intros _.
  apply once_after; [clean_all|]. intros states'.
  apply once_after; [clean_all|]. intros _.
  apply once_after; [clean_all|]. intros actions.
  apply once_before.
  - eapply once_reload_playback. reflexivity.
  - intros _. apply clean_bind; [now apply clean_finish_video|].
    intros _. now apply clean_emit.
Qed.

End ProcessDemoReloads.


(** ** Window selection (claims C3 and C9) *)

(** Every start of the valid range is drawn for some state of the
    generator. *)
Lemma select_window_every_start (w traj_len start : Z) :
  0 <= w <= traj_len -> 0 <= start <= traj_len - w ->
  select_window (Some w) traj_len start = inr (start, start + w).
Proof.
  intros Hw Hs. unfold select_window.
  rewrite Z.min_l by lia. now rewrite randrange_onto by lia.
Qed.

(** A negative [num_frames] is not rejected: the loop body never runs. *)
Lemma select_window_negative (w traj_len draw : Z) :
  w < 0 -> 0 <= traj_len ->
  exists a b,
    select_window (Some w) traj_len draw = inr (a, b) /\ py_range a b = [].
Proof.
  intros Hw HL.
  destruct (select_window_ok (Some w) traj_len draw HL)
    as (a & b & H & _ & _ & Hlen & _).
  exists a, b. split; [exact H|]. apply py_range_empty. lia.
Qed.



(** ** Frame sampling (claim C4) *)


(** ** On-screen rendering and video output (claim C5) *)

Section RenderOrVideo.

Context {B : Backend} {W : World}.

Lemma clean_writer_playback_env (args : Args) (states : list StateVec)
    (actions : option (list Action)) (render : bool)
    (video_writer : option string) (video_skip : Z)
    (camera_names : option (list string)) (first verbose : bool)
    (env : Env) (init : state_dict) (draw : Z) :
  clean is_open_writer
    (playback_trajectory_with_env args states actions render video_writer
       video_skip camera_names first verbose env init draw).
Proof.
  unfold playback_trajectory_with_env.
  apply clean_bind; [clean_all|]. intros _.
  apply clean_bind; [clean_all; apply clean_decode_json|]. intros _.
  apply clean_bind.
  { unfold reset_to. clean_all; apply clean_decode_json. }
  intros env1.
  apply clean_bind; [clean_all|]. intros _.
  apply clean_bind; [clean_all|]. intros _.
  apply clean_bind; [clean_all|]. intros w.
  apply clean_bind.
  { apply clean_for_steps. intros ev. destruct ev; cbn; congruence. }
  intros st. clean_all.
Qed.

Lemma clean_writer_for_obs (traj_grp : episode) (video_writer : option string)
    (video_skip : Z) (names : list string) (first : bool) (idxs : list Z) :
  forall vc,
    clean is_open_writer
      (for_obs traj_grp video_writer video_skip names first idxs vc).
Proof.
  induction idxs as [|i rest IH]; intros vc; cbn [for_obs].
  - apply clean_ret.
  - apply clean_bind.
    + unfold obs_body, append_data. clean_all.
    + intros vc'. destruct first; [apply clean_ret|apply IH].
Qed.

Lemma clean_writer_playback_obs (traj_grp : episode)
    (video_writer : option string) (video_skip : Z)
    (image_names : option (list string)) (first : bool) :
  clean is_open_writer
    (playback_trajectory_with_obs traj_grp video_writer video_skip
       image_names first).
Proof.
  unfold playback_trajectory_with_obs. destruct image_names; [|apply clean_raise].
  apply clean_bind; [clean_all|]. intros name0.
  apply clean_bind; [clean_all|]. intros seq0.
  apply clean_bind; [apply clean_writer_for_obs|]. intros _. apply clean_ret.
Qed.

Lemma process_demo_on_screen_opens_no_writer (args : Args) (ep : string)
    (draw : Z) :
  render args = true ->
  clean is_open_writer (process_demo args ep draw).
Proof.
  intros Hr. unfold process_demo. rewrite Hr. cbn [negb].
  apply clean_bind; [clean_all|]. intros _. cbv zeta.
  rewrite bind_ret.
  apply clean_bind; [clean_all|]. intros f.
  destruct (use_obs args).
  - apply clean_bind; [clean_all|]. intros grp.
    apply clean_bind; [apply clean_writer_playback_obs|]. intros _.
    apply clean_ret.
  - apply clean_bind; [now apply clean_make_env|]. intros env.
    do 5 (apply clean_bind; [clean_all|]; intros ?).
    apply clean_bind.
    { apply clean_emit_all. intros ev Hin.
      apply in_map_iff in Hin as (s & <- & _). reflexivity. }
    intros _.
    do 3 (apply clean_bind; [clean_all|]; intros ?).
    apply clean_bind; [apply clean_writer_playback_env|]. intros _.
    apply clean_bind; [apply clean_ret|]. intros _. now apply clean_emit.
Qed.

Lemma raises_only_bind (P : exn -> Prop) {A C : Type} (m : T A) (k : A -> T C) :
  raises_only P m -> (forall a, raises_only P (k a)) ->
  raises_only P (bind m k).
Proof.
  unfold raises_only. intros Hm Hk e. rewrite result_bind.
  destruct (result_of m) as [e'|a] eqn:E; [|apply Hk].
  intros [= ->]. now apply Hm.
Qed.

Lemma raises_only_returning (P : exn -> Prop) {A : Type} (t : list event) (a : A) :
  raises_only P (t, inr a).
Proof. intros e. discriminate. Qed.

Lemma raises_only_raising (P : exn -> Prop) {A : Type} (t : list event) (e : exn) :
  P e -> raises_only P (t, @inl exn A e).
Proof. intros H e' [= <-]. exact H. Qed.

Lemma raises_only_require (P : exn -> Prop) (e : exn) {A : Type} (o : option A) :
  P e -> raises_only P (lift (require e o)).
Proof.
  intros H. destruct o; [apply raises_only_returning|now apply raises_only_raising].
Qed.

Lemma raises_only_assert (P : exn -> Prop) (site : assert_site) (b : bool) :
  P (AssertionError site) -> raises_only P (assert site b).
Proof.
  intros H. destruct b; [apply raises_only_returning|now apply raises_only_raising].
Qed.

Lemma get_env_metadata_raises (P : exn -> Prop) (a d : string) :
  P (SystemExit 1) -> P KeyError -> P JSONDecodeError ->
  raises_only P (get_env_metadata_from_dataset a d).
Proof.
  intros Hexit Hkey Hjson. unfold get_env_metadata_from_dataset.
  apply raises_only_bind.
  { destruct (h5py_File _); [apply raises_only_returning|].
    apply raises_only_bind; [apply raises_only_returning|]. intros _.
    now apply raises_only_raising. }
  intros f. apply raises_only_bind; [now apply raises_only_require|]. intros _.
  apply raises_only_bind; [now apply raises_only_require|]. intros s.
  unfold decode_json. destruct (json_loads s);
    [apply raises_only_returning|now apply raises_only_raising].
Qed.

Lemma check_args_raises (P : exn -> Prop) (args : Args) :
  P (AssertionError AssertOneCamera) ->
  P (AssertionError AssertObsNeedsVideo) ->
  P (AssertionError AssertObsNoActions) ->
  P (SystemExit 1) -> P KeyError -> P JSONDecodeError -> P TypeError ->
  raises_only P (check_args args).
Proof.
  intros H1 H2 H3 Hexit Hkey Hjson Htype. unfold check_args.
  set (args1 := match video_path args with None => _ | Some _ => args end).
  assert (render args1 = render args) as Hr.
  { subst args1. now destruct (video_path args). }
  rewrite Hr, andb_negb_r. cbn [negb assert]. rewrite bind_ret.
  apply raises_only_bind.
  { destruct (render_image_names args1); [apply raises_only_returning|].
    apply raises_only_bind; [now apply get_env_metadata_raises|]. intros _.
    apply raises_only_returning. }
  intros args2. apply raises_only_bind.
  { destruct (render args2); [|apply raises_only_returning].
    apply raises_only_bind; [now apply raises_only_require|]. intros names.
    now apply raises_only_assert. }
  intros _. apply raises_only_bind; [|intros; apply raises_only_returning].
  destruct (use_obs args2); [|apply raises_only_returning].
  apply raises_only_bind; [now apply raises_only_assert|]. intros _.
  now apply raises_only_assert.
Qed.

Lemma check_args_render_assert (args : Args) :
  result_of (check_args args) <> inl (AssertionError AssertArgsRenderXorVideo).
Proof.
  intros H.
  apply (check_args_raises
           (fun e => e <> AssertionError AssertArgsRenderXorVideo) args)
    in H; try discriminate.
  now apply H.
Qed.

Lemma check_args_on_screen_accepted (args : Args) (cam path : string) :
  render args = true ->
  video_path args = Some path ->
  render_image_names args = Some [cam] ->
  use_obs args = false ->
  check_args args = ([], inr args).
Proof.
  intros Hr Hv Hn Ho. unfold check_args. rewrite Hv. cbv zeta.
  rewrite Hn, Hr. cbn. rewrite Hr, Hn, Ho. reflexivity.
Qed.

End RenderOrVideo.

(** C5, as the code has it: video output is not requested on its own, it
    is what a run does when on-screen rendering is off.  The assertion
    of the argument check on the two therefore never fails, and a run
    with [--render] and a [--video_path] is accepted: it plays on
    screen and opens no video writer.  Only
    [playback_trajectory_with_env] called with [render] set and a video
    writer fails, on its own assertion, before any effect. *)
Theorem render_and_video_never_both {B : Backend} {W : World} :
  (forall args : Args,
      result_of (check_args args)
      <> inl (AssertionError AssertArgsRenderXorVideo))
  /\ (forall (args : Args) (cam path : string),
         render args = true ->
         video_path args = Some path ->
         render_image_names args = Some [cam] ->
         use_obs args = false ->
         check_args args = ([], inr args))
  /\ (forall (args : Args) (ep : string) (draw : Z),
         render args = true ->
         count is_open_writer (trace_of (process_demo args ep draw)) = 0%nat)
  /\ (forall (args : Args) (states : list StateVec)
             (actions : option (list Action)) (path : string) (video_skip : Z)
             (camera_names : option (list string)) (first verbose : bool)
             (env : Env) (init : state_dict) (draw : Z),
         playback_trajectory_with_env args states actions true (Some path)
           video_skip camera_names first verbose env init draw
         = ([], inl (AssertionError AssertRenderXorVideo))).
Proof.
  split; [exact check_args_render_assert|].
  split; [exact check_args_on_screen_accepted|].
  split; [exact process_demo_on_screen_opens_no_writer|].
  reflexivity.
Qed.

(** ** Dispatch (claim C6) *)

Section DispatchFacts.

Context {B : Backend} {W : World}.

Lemma submit_all_names (args : Args) (demos : list string) (draws : nat -> Z)
    (k : nat) :
  map fst (submit_all args demos draws k) = demos.
Proof.
  revert k. induction demos as [|ep rest IH]; intros k;
    cbn [submit_all map fst]; [reflexivity|].
  now rewrite IH.
Qed.

Lemma submit_all_nth (args : Args) (demos : list string) (draws : nat -> Z)
    (k i : nat) (ep : string) :
  nth_error demos i = Some ep ->
  nth_error (submit_all args demos draws k) i
  = Some (ep, process_demo args ep (draws (k + i)%nat)).
Proof.
  revert k i. induction demos as [|ep' rest IH]; intros k [|i];
    cbn [submit_all nth_error]; try discriminate.
  - intros [= ->]. now rewrite Nat.add_0_r.
  - intros H. rewrite (IH (S k) i H).
    now replace (S k + i)%nat with (k + S i)%nat by lia.
Qed.

Lemma submit_all_length (args : Args) (demos : list string) (draws : nat -> Z)
    (k : nat) :
  List.length (submit_all args demos draws k) = List.length demos.
Proof. now rewrite <- (submit_all_names args demos draws k) at 2; rewrite length_map. Qed.

Lemma collect_caught (completed : list (string * T unit)) :
  failures_are_exceptions completed ->
  collect completed = (reports completed, inr tt).
Proof.
  unfold failures_are_exceptions.
  induction completed as [|[ep job] rest IH]; intros Hexc; [reflexivity|].
  cbn [collect reports flat_map fst snd].
  assert (forall ep' job' e, In (ep', job') rest -> result_of job' = inl e ->
                             is_Exception e = true) as Hrest.
  { intros ep' job' e Hin. apply (Hexc ep' job' e). now right. }
  specialize (IH Hrest).
  destruct (result_of job) as [e|[]] eqn:Hres.
  - rewrite (Hexc ep job e (or_introl eq_refl) Hres).
    rewrite bind_emit, IH. reflexivity.
  - rewrite IH. reflexivity.
Qed.

Lemma in_completion_order_all {A : Type} (jobs : list A) :
  in_completion_order jobs (seq 0 (List.length jobs)) = jobs.
Proof.
  assert (forall (pre : list A),
             in_completion_order (pre ++ jobs)
               (seq (List.length pre) (List.length jobs)) = jobs) as H.
  { induction jobs as [|j rest IH]; intros pre; [reflexivity|].
    cbn [List.length seq in_completion_order].
    rewrite nth_error_app2 by lia. rewrite Nat.sub_diag. cbn [nth_error].
    f_equal. specialize (IH (pre ++ [j])).
    rewrite <- app_assoc, length_app in IH. cbn in IH.
    rewrite Nat.add_1_r in IH. exact IH. }
  exact (H []).
Qed.

Lemma in_completion_order_perm {A : Type} (jobs : list A) (c c' : list nat) :
  Permutation c c' ->
  Permutation (in_completion_order jobs c) (in_completion_order jobs c').
Proof.
  induction 1 as [|k c c' _ IH|k k' c|c c' c'' _ IH1 _ IH2];
    cbn [in_completion_order].
  - constructor.
  - destruct (nth_error jobs k); [now constructor|exact IH].
  - destruct (nth_error jobs k), (nth_error jobs k');
      try reflexivity. apply perm_swap.
  - now transitivity (in_completion_order jobs c').
Qed.

Lemma completed_is_permutation {A : Type} (jobs : list A) (completion : list nat) :
  Permutation completion (seq 0 (List.length jobs)) ->
  Permutation (in_completion_order jobs completion) jobs.
Proof.
  intros H. rewrite <- (in_completion_order_all jobs) at 2.
  now apply in_completion_order_perm.
Qed.

Lemma reports_perm (l l' : list (string * T unit)) :
  Permutation l l' -> Permutation (reports l) (reports l').
Proof. intros H. unfold reports. now apply Permutation_flat_map. Qed.

Lemma reports_returned (l : list (string * T unit)) :
  (forall j, In j l -> returned (snd j) = true) -> reports l = [].
Proof.
  induction l as [|j rest IH]; intros H; [reflexivity|].
  cbn [reports flat_map]. fold (reports rest).
  rewrite IH by (intros; apply H; now right).
  specialize (H j (or_introl eq_refl)). unfold returned in H.
  now destruct (result_of (snd j)).
Qed.

Lemma completions_returned (l : list (string * T unit)) :
  (forall j, In j l -> returned (snd j) = true) ->
  completions l = List.length l.
Proof.
  induction l as [|j rest IH]; intros H; [reflexivity|].
  unfold completions in *. cbn [filter].
  rewrite (H j (or_introl eq_refl)). cbn [List.length].
  f_equal. apply IH. intros; apply H; now right.
Qed.

Lemma run_sequential_stops (args : Args) (before : list string) (ep : string)
    (after : list string) (draws : nat -> Z) (e : exn) :
  forall k,
    (forall i ep', nth_error before i = Some ep' ->
                   returned (process_demo args ep' (draws (k + i)%nat)) = true) ->
    result_of (process_demo args ep (draws (k + List.length before)%nat)) = inl e ->
    result_of (run_sequential args (before ++ ep :: after) draws k) = inl e
    /\ trace_of (run_sequential args (before ++ ep :: after) draws k)
       = trace_of (run_sequential args (before ++ [ep]) draws k).
Proof.
  induction before as [|ep0 rest IH]; intros k Hbefore Hfail.
  - cbn [app run_sequential List.length] in *. rewrite Nat.add_0_r in Hfail.
    rewrite !result_bind, !trace_bind, Hfail. now split.
  - cbn [app run_sequential].
    pose proof (Hbefore 0%nat ep0 eq_refl) as H0. rewrite Nat.add_0_r in H0.
    unfold returned in H0.
    destruct (IH (S k)) as [Hres Htr].
    { intros i ep' Hi. replace (S k + i)%nat with (k + S i)%nat by lia.
      now apply Hbefore. }
    { cbn [List.length] in Hfail.
      now replace (S k + List.length rest)%nat
        with (k + S (List.length rest))%nat by lia. }
    rewrite !result_bind, !trace_bind.
    destruct (result_of (process_demo args ep0 (draws k))); [discriminate|].
    now rewrite Hres, Htr.
Qed.

End DispatchFacts.

Lemma dispatch_parallel {B : Backend} {W : World} :
  (forall (args : Args) (demos : list string) (window_draws : nat -> Z)
          (completion : list nat),
      1 < num_parallel_jobs args ->
      Permutation completion (seq 0 (List.length demos)) ->
      let r := dispatch args demos window_draws completion in
      map fst (workers r) = demos
      /\ (forall i ep, nth_error demos i = Some ep ->
                       nth_error (workers r) i
                       = Some (ep, process_demo args ep (window_draws i)))
      /\ (failures_are_exceptions (workers r) ->
          returned (parent r) = true
          /\ Permutation (trace_of (parent r)) (reports (workers r)))
      /\ (forall before ep job after e,
             workers r = before ++ (ep, job) :: after ->
             result_of job = inl e ->
             is_Exception e = true ->
             (forall j, In j (before ++ after) -> returned (snd j) = true) ->
             parent r = ([PrintEpisodeError ep e], inr tt)
             /\ completions (workers r) = (List.length demos - 1)%nat)).
Proof.
  intros args demos window_draws completion Hjobs Hperm r.
  assert (r = {| parent := collect (in_completion_order
                                      (submit_all args demos window_draws 0)
                                      completion);
                 workers := submit_all args demos window_draws 0 |}) as ->.
  { subst r. unfold dispatch.
    destruct (num_parallel_jobs args =? 1) eqn:E1; [lia|].
    destruct (num_parallel_jobs args <=? 0) eqn:E0; [lia|]. reflexivity. }
  cbn [parent workers].
  set (jobs := submit_all args demos window_draws 0).
  assert (Permutation (in_completion_order jobs completion) jobs) as Hdone.
  { apply completed_is_permutation. subst jobs.
    now rewrite submit_all_length. }
  split; [apply submit_all_names|]. split.
  { intros i ep Hi. subst jobs. now rewrite (submit_all_nth _ _ _ 0 i ep Hi). }
  assert (failures_are_exceptions jobs ->
          collect (in_completion_order jobs completion)
          = (reports (in_completion_order jobs completion), inr tt)) as Hcollect.
  { intros Hexc. apply collect_caught. intros ep job e Hin.
    apply (Hexc ep job e). now apply (Permutation_in _ Hdone). }
  split.
  + intros Hexc. rewrite (Hcollect Hexc). split; [reflexivity|].
    now apply reports_perm.
  + intros before ep job after e Hjobs' Hres Hexc Hothers.
    assert (failures_are_exceptions jobs) as Hall.
    { intros ep' job' e' Hin Hres'. rewrite Hjobs' in Hin.
      apply in_app_or in Hin as [Hin|[Heq|Hin]].
      - specialize (Hothers (ep', job') ltac:(apply in_or_app; now left)).
        unfold returned in Hothers. cbn in Hothers. rewrite Hres' in Hothers.
        discriminate.
      - injection Heq as <- <-. congruence.
      - specialize (Hothers (ep', job') ltac:(apply in_or_app; now right)).
        unfold returned in Hothers. cbn in Hothers. rewrite Hres' in Hothers.
        discriminate. }
    assert (reports jobs = [PrintEpisodeError ep e]) as Hrep.
    { rewrite Hjobs'. unfold reports. rewrite flat_map_app. cbn [flat_map].
      fold (reports before). fold (reports after).
      rewrite !reports_returned
        by (intros; apply Hothers, in_or_app; auto).
      cbn [fst snd]. now rewrite Hres. }
    split.
    * rewrite (Hcollect Hall). f_equal.
      apply Permutation_length_1_inv. rewrite <- Hrep.
      symmetry. now apply reports_perm.
    * assert (List.length jobs = List.length demos) as Hlen.
      { subst jobs. apply submit_all_length. }
      rewrite <- Hlen, Hjobs'. unfold completions.
      rewrite filter_app, !length_app. cbn [filter snd].
      unfold returned at 2. rewrite Hres.
      fold (completions before). fold (completions after).
      rewrite !completions_returned
        by (intros; apply Hothers, in_or_app; auto).
      cbn [List.length]. lia.
Qed.

Lemma dispatch_sequential {B : Backend} {W : World} :
  (forall (args : Args) (before : list string) (ep : string)
             (after : list string) (window_draws : nat -> Z)
             (completion : list nat) (e : exn),
         num_parallel_jobs args = 1 ->
         (forall i ep', nth_error before i = Some ep' ->
                        returned (process_demo args ep' (window_draws i)) = true) ->
         result_of (process_demo args ep (window_draws (List.length before)))
         = inl e ->
         let r := dispatch args (before ++ ep :: after) window_draws completion in
         result_of (parent r) = inl e
         /\ trace_of (parent r)
            = trace_of (parent (dispatch args (before ++ [ep]) window_draws
                                  completion))
         /\ workers r = []).
Proof.
  intros args before ep after window_draws completion e Hjobs Hbefore Hfail r.
  subst r. unfold dispatch. rewrite Hjobs. cbn [Z.eqb Pos.eqb parent workers].
  destruct (run_sequential_stops args before ep after window_draws e 0)
    as [Hres Htr]; auto.
Qed.

(** C6: in parallel dispatch every episode is run by a worker of its
    own; an exception a worker raised is caught where the parent takes
    the future's result and is printed with the episode identifier, and
    the parent returns.  With one failing episode out of N the parent
    prints that one report and N - 1 workers ran to completion.  In
    sequential mode nothing catches: the exception of the first failing
    episode is the result of the dispatch loop, and the episodes after
    it leave no trace. *)
Theorem parallel_isolates_sequential_propagates {B : Backend} {W : World} :
  (forall (args : Args) (demos : list string) (window_draws : nat -> Z)
          (completion : list nat),
      1 < num_parallel_jobs args ->
      Permutation completion (seq 0 (List.length demos)) ->
      let r := dispatch args demos window_draws completion in
      map fst (workers r) = demos
      /\ (forall i ep, nth_error demos i = Some ep ->
                       nth_error (workers r) i
                       = Some (ep, process_demo args ep (window_draws i)))
      /\ (failures_are_exceptions (workers r) ->
          returned (parent r) = true
          /\ Permutation (trace_of (parent r)) (reports (workers r)))
      /\ (forall before ep job after e,
             workers r = before ++ (ep, job) :: after ->
             result_of job = inl e ->
             is_Exception e = true ->
             (forall j, In j (before ++ after) -> returned (snd j) = true) ->
             parent r = ([PrintEpisodeError ep e], inr tt)
             /\ completions (workers r) = (List.length demos - 1)%nat))
  /\ (forall (args : Args) (before : list string) (ep : string)
             (after : list string) (window_draws : nat -> Z)
             (completion : list nat) (e : exn),
         num_parallel_jobs args = 1 ->
         (forall i ep', nth_error before i = Some ep' ->
                        returned (process_demo args ep' (window_draws i)) = true) ->
         result_of (process_demo args ep (window_draws (List.length before)))
         = inl e ->
         let r := dispatch args (before ++ ep :: after) window_draws completion in
         result_of (parent r) = inl e
         /\ trace_of (parent r)
            = trace_of (parent (dispatch args (before ++ [ep]) window_draws
                                  completion))
         /\ workers r = []).
Proof.
  split; [exact dispatch_parallel|exact dispatch_sequential].
Qed.

(** ** Exit status (claim C7) *)

Section ExitStatus.

Context {B : Backend} {W : World}.

Lemma check_args_keeps (args args1 : Args) :
  result_of (check_args args) = inr args1 ->
  dataset args1 = dataset args
  /\ num_parallel_jobs args1 = num_parallel_jobs args.
Proof.
  unfold check_args.
  set (args0 := match video_path args with None => _ | Some _ => args end).
  assert (dataset args0 = dataset args
          /\ num_parallel_jobs args0 = num_parallel_jobs args) as [Hd Hj].
  { subst args0. now destruct (video_path args). }
  rewrite result_bind.
  destruct (result_of (assert _ _)); [discriminate|].
  rewrite result_bind.
  destruct (result_of match render_image_names args0 with
                      | Some _ => ret args0
                      | None => _
                      end) as [e|args2] eqn:H2; [discriminate|].
  assert (dataset args2 = dataset args0
          /\ num_parallel_jobs args2 = num_parallel_jobs args0) as [Hd2 Hj2].
  { revert H2. destruct (render_image_names args0).
    - now intros [= <-].
    - rewrite result_bind.
      destruct (result_of (get_env_metadata_from_dataset _ _));
        [discriminate|].
      now intros [= <-]. }
  rewrite result_bind.
  destruct (result_of (if render args2 then _ else ret tt)); [discriminate|].
  rewrite result_bind.
  destruct (result_of (if use_obs args2 then _ else ret tt)); [discriminate|].
  intros [= <-]. split; congruence.
Qed.

Lemma playback_dataset_unopened (args : Args) (sd wd : nat -> Z)
    (completion : list nat) :
  h5py_File (dataset args) = None ->
  playback_dataset args sd wd completion
  = {| parent :=
         match check_args args with
         | (t, inl e) => (t, inl e)
         | (t, inr _) => (t ++ [PrintErrorOpening (dataset args)],
                          inl (SystemExit 1))
         end;
       workers := [] |}.
Proof.
  intros Hfile. unfold playback_dataset.
  destruct (check_args args) as [t [e|args1]] eqn:Hc; [reflexivity|].
  destruct (check_args_keeps args args1) as [Hd _]; [now rewrite Hc|].
  cbn [bind]. rewrite Hd, Hfile. reflexivity.
Qed.

Lemma playback_dataset_dispatches (args args1 : Args) (f : h5file)
    (demos : list string) (sd wd : nat -> Z) (completion : list nat) :
  result_of (check_args args) = inr args1 ->
  h5py_File (dataset args) = Some f ->
  result_of (list_demos args1 f sd) = inr demos ->
  result_of (parent (playback_dataset args sd wd completion))
  = result_of (parent (dispatch args1 demos wd completion))
  /\ workers (playback_dataset args sd wd completion)
     = workers (dispatch args1 demos wd completion).
Proof.
  intros Hc Hfile Hdemos. unfold playback_dataset.
  destruct (check_args_keeps args args1 Hc) as [Hd _].
  destruct (check_args args) as [t [e|a]]; cbn in Hc; [discriminate|].
  injection Hc as ->. cbn [bind]. rewrite Hd, Hfile, bind_ret.
  destruct (list_demos args1 f sd) as [t' [e|d]]; cbn in Hdemos; [discriminate|].
  injection Hdemos as ->. cbn [bind ret app]. now split.
Qed.

End ExitStatus.

(** C7, as the code has it.  When the dataset file cannot be opened the
    process exits with status 1 and no episode is processed; when the
    argument check passed, what it printed last is the error message
    and it exits through [sys.exit(1)].  When the file opens, a parallel
    run whose failing episodes raise exceptions exits with status 0; a
    sequential run stops at the first failing episode with that
    episode's exception, and its status is then 1. *)
Theorem exit_status_of_run {B : Backend} {W : World} :
  (forall (args : Args) (sd wd : nat -> Z) (completion : list nat),
      h5py_File (dataset args) = None ->
      let r := playback_dataset args sd wd completion in
      exit_status (result_of (parent r)) = 1
      /\ workers r = []
      /\ trace_of (parent r)
         = trace_of (check_args args)
           ++ (if returned (check_args args)
               then [PrintErrorOpening (dataset args)] else [])
      /\ (returned (check_args args) = true ->
          result_of (parent r) = inl (SystemExit 1)))
  /\ (forall (args args1 : Args) (f : h5file) (demos : list string)
             (sd wd : nat -> Z) (completion : list nat),
         result_of (check_args args) = inr args1 ->
         h5py_File (dataset args) = Some f ->
         result_of (list_demos args1 f sd) = inr demos ->
         1 < num_parallel_jobs args ->
         Permutation completion (seq 0 (List.length demos)) ->
         failures_are_exceptions (submit_all args1 demos wd 0) ->
         let r := playback_dataset args sd wd completion in
         exit_status (result_of (parent r)) = 0
         /\ workers r = submit_all args1 demos wd 0)
  /\ (forall (args args1 : Args) (f : h5file) (before : list string)
             (ep : string) (after : list string) (sd wd : nat -> Z)
             (completion : list nat) (e : exn),
         result_of (check_args args) = inr args1 ->
         h5py_File (dataset args) = Some f ->
         result_of (list_demos args1 f sd) = inr (before ++ ep :: after) ->
         num_parallel_jobs args = 1 ->
         (forall i ep', nth_error before i = Some ep' ->
                        returned (process_demo args1 ep' (wd i)) = true) ->
         result_of (process_demo args1 ep (wd (List.length before))) = inl e ->
         let r := playback_dataset args sd wd completion in
         result_of (parent r) = inl e
         /\ (is_Exception e = true -> exit_status (result_of (parent r)) = 1)).
Proof.
  split; [|split].
  - intros args sd wd completion Hfile r. subst r.
    rewrite (playback_dataset_unopened args sd wd completion Hfile).
    cbn [parent workers].
    pose proof (check_args_raises (fun e => exit_status (@inl exn unit e) = 1)
                  args eq_refl eq_refl eq_refl eq_refl eq_refl eq_refl eq_refl)
      as Hraise.
    unfold raises_only in Hraise. unfold returned.
    destruct (check_args args) as [t [e|args1]]; cbn in *.
    + rewrite app_nil_r. repeat split; [|discriminate].
      specialize (Hraise e eq_refl). now destruct e.
    + repeat split.
  - intros args args1 f demos sd wd completion Hc Hfile Hdemos Hjobs Hperm Hexc r.
    subst r.
    destruct (playback_dataset_dispatches args args1 f demos sd wd completion
                Hc Hfile Hdemos) as [-> ->].
    destruct (check_args_keeps args args1 Hc) as [_ Hj].
    destruct (dispatch_parallel args1 demos wd
                completion ltac:(lia) Hperm) as (_ & _ & Hpar & _).
    assert (workers (dispatch args1 demos wd completion)
            = submit_all args1 demos wd 0) as Hw.
    { unfold dispatch. destruct (num_parallel_jobs args1 =? 1) eqn:E1; [lia|].
      destruct (num_parallel_jobs args1 <=? 0) eqn:E0; [lia|]. reflexivity. }
    rewrite Hw in Hpar. destruct (Hpar Hexc) as [Hret _].
    split; [|exact Hw]. unfold returned in Hret.
    now destruct (result_of (parent (dispatch args1 demos wd completion))).
  - intros args args1 f before ep after sd wd completion e Hc Hfile Hdemos Hjobs
      Hbefore Hfail r.
    subst r.
    destruct (playback_dataset_dispatches args args1 f _ sd wd completion
                Hc Hfile Hdemos) as [-> _].
    destruct (check_args_keeps args args1 Hc) as [_ Hj].
    destruct (dispatch_sequential args1 before ep
                after wd completion e ltac:(lia) Hbefore Hfail) as (-> & _).
    split; [reflexivity|]. now destruct e.
Qed.

(** ** Episode ordering (claim C8) *)

Lemma insert_key_perm (x : Z * nat) (l : list (Z * nat)) :
  Permutation (insert_key x l) (x :: l).
Proof.
  induction l as [|y l IH]; cbn [insert_key]; [reflexivity|].
  destruct (fst x <=? fst y); [reflexivity|].
  rewrite IH. apply perm_swap.
Qed.

Lemma sort_keys_perm (l : list (Z * nat)) :
  Permutation (fold_right insert_key [] l) l.
Proof.
  induction l as [|x l IH]; cbn [fold_right]; [reflexivity|].
  rewrite insert_key_perm. now constructor.
Qed.

Lemma insert_key_sorted (x : Z * nat) (l : list (Z * nat)) :
  Sorted le_key l -> Sorted le_key (insert_key x l).
Proof.
  induction 1 as [|y l Hl IH Hhd]; cbn [insert_key].
  - repeat constructor.
  - destruct (fst x <=? fst y) eqn:E.
    + apply Z.leb_le in E. constructor; [now constructor|now constructor].
    + apply Z.leb_gt in E. constructor; [exact IH|].
      destruct l as [|z l']; cbn [insert_key].
      * constructor. unfold le_key. lia.
      * destruct (fst x <=? fst z); constructor.
        -- unfold le_key. lia.
        -- now inversion Hhd.
Qed.

Lemma sort_keys_sorted (l : list (Z * nat)) :
  Sorted le_key (fold_right insert_key [] l).
Proof.
  induction l as [|x l IH]; cbn [fold_right]; [constructor|].
  now apply insert_key_sorted.
Qed.

Lemma le_key_trans : Relations_1.Transitive le_key.
Proof. intros x y z. unfold le_key. lia. Qed.

Lemma map_snd_combine_seq {A : Type} (l : list A) (k : nat) :
  map snd (combine l (seq k (List.length l))) = seq k (List.length l).
Proof.
  revert k. induction l as [|x l IH]; intros k; cbn; [reflexivity|].
  now rewrite IH.
Qed.

Lemma np_array_cases (keys : list Z) :
  np_array keys = keys \/ np_array keys = map np_float64 keys.
Proof.
  unfold np_array. destruct (forallb fits_int64 keys); [now left|].
  destruct (negb _); [now left|]. destruct (forallb _ keys); [now left|now right].
Qed.

Lemma np_array_int64 (keys : list Z) :
  forallb fits_int64 keys = true -> np_array keys = keys.
Proof. intros H. unfold np_array. now rewrite H. Qed.

Lemma np_array_length (keys : list Z) :
  List.length (np_array keys) = List.length keys.
Proof.
  destruct (np_array_cases keys) as [-> | ->]; [reflexivity|apply length_map].
Qed.

Lemma np_argsort_perm (keys : list Z) :
  Permutation (np_argsort keys) (seq 0 (List.length keys)).
Proof.
  unfold np_argsort. rewrite <- (np_array_length keys).
  rewrite <- (map_snd_combine_seq (np_array keys) 0) at 2.
  apply Permutation_map, sort_keys_perm.
Qed.

(** A number of 2^53 and more is rounded to a float of 2^53 and more. *)
Lemma np_float64_large (m : Z) :
  2 ^ 53 <= m ->
  let s := 2 ^ (Z.log2 m - 52) in
  let q := m / s in
  let r := m mod s in
  2 ^ 53 <= (if 2 * r <? s then q
             else if s <? 2 * r then q + 1
             else if Z.even q then q else q + 1) * s.
Proof.
  intros Hm s q r.
  assert (53 <= Z.log2 m) as Hlog.
  { change 53 with (Z.log2 (2 ^ 53)). now apply Z.log2_le_mono. }
  destruct (Z.log2_spec m ltac:(lia)) as [Hlo _].
  assert (2 ^ Z.log2 m = 2 ^ 52 * s) as Hsplit.
  { subst s. rewrite <- Z.pow_add_r by lia. f_equal. lia. }
  assert (2 ^ 53 <= 2 ^ Z.log2 m) as Hpow by (apply Z.pow_le_mono_r; lia).
  assert (0 < s) as Hs by (subst s; apply Z.pow_pos_nonneg; lia).
  assert (2 ^ 52 <= q) as Hq.
  { subst q. apply Z.div_le_lower_bound; lia. }
  set (q' := if 2 * r <? s then q
             else if s <? 2 * r then q + 1
             else if Z.even q then q else q + 1).
  assert (q <= q') as Hq'.
  { subst q'. destruct (2 * r <? s); [lia|].
    destruct (s <? 2 * r); [lia|]. destruct (Z.even q); lia. }
  rewrite Hsplit in Hpow. remember (2 ^ 52) as P. remember (2 ^ 53) as Q. nia.
Qed.

(** The float of a number below 2^53 in magnitude is the number, and no
    other number has it. *)
Lemma np_float64_keeps_small (a b : Z) :
  a < b ->
  Z.abs a < 2 ^ 53 \/ Z.abs b < 2 ^ 53 ->
  np_float64 a < np_float64 b.
Proof.
  intros Hlt Hsmall. unfold np_float64.
  destruct (Z.abs a <? 2 ^ 53) eqn:Ea, (Z.abs b <? 2 ^ 53) eqn:Eb;
    try apply Z.ltb_lt in Ea; try apply Z.ltb_lt in Eb;
    try apply Z.ltb_ge in Ea; try apply Z.ltb_ge in Eb.
  - exact Hlt.
  - assert (2 ^ 53 <= b) as Hb by lia.
    rewrite (Z.abs_eq b), (Z.sgn_pos b) by lia.
    pose proof (np_float64_large b Hb) as H. cbv zeta in H. lia.
  - assert (2 ^ 53 <= - a) as Ha by lia.
    rewrite (Z.abs_neq a), (Z.sgn_neg a) by lia.
    pose proof (np_float64_large (- a) Ha) as H. cbv zeta in H. lia.
  - lia.
Qed.

Lemma combine_seq_nth (keys : list Z) (k : Z) (i : nat) :
  In (k, i) (combine keys (seq 0 (List.length keys))) -> nth i keys 0 = k.
Proof.
  assert (forall (l : list Z) (s : nat),
             In (k, i) (combine l (seq s (List.length l))) ->
             (s <= i)%nat /\ nth (i - s) l 0 = k) as H.
  { induction l as [|x l IH]; intros s; cbn; [tauto|].
    intros [Heq|Hin].
    - injection Heq as -> ->. split; [lia|]. now rewrite Nat.sub_diag.
    - apply IH in Hin as [Hle Hnth]. split; [lia|].
      replace (i - s)%nat with (S (i - S s)) by lia. exact Hnth. }
  intros Hin. apply H in Hin as [_ Hnth]. now rewrite Nat.sub_0_r in Hnth.
Qed.

Lemma StronglySorted_map_in {A C : Type} (R : A -> A -> Prop)
    (R' : C -> C -> Prop) (g : A -> C) (l : list A) :
  (forall a b, In a l -> In b l -> R a b -> R' (g a) (g b)) ->
  StronglySorted R l -> StronglySorted R' (map g l).
Proof.
  intros Hg Hs. induction Hs as [|a l Hs IH Hall]; cbn [map]; constructor.
  - apply IH. intros x y Hx Hy. apply Hg; now right.
  - apply Forall_forall. intros c Hc. apply in_map_iff in Hc as (b & <- & Hb).
    apply Hg; [now left|now right|].
    rewrite Forall_forall in Hall. now apply Hall.
Qed.

Lemma np_argsort_sorted (keys : list Z) :
  StronglySorted
    (fun i j => nth i (np_array keys) 0 <= nth j (np_array keys) 0)
    (np_argsort keys).
Proof.
  unfold np_argsort. rewrite <- (np_array_length keys).
  apply StronglySorted_map_in with (R := le_key).
  - intros [k i] [k' j] Hi Hj Hle.
    apply (Permutation_in _ (sort_keys_perm _)) in Hi, Hj.
    apply combine_seq_nth in Hi, Hj. cbn [snd]. unfold le_key in Hle.
    cbn [fst] in Hle. lia.
  - apply Sorted_StronglySorted; [apply le_key_trans|apply sort_keys_sorted].
Qed.

(** The ordered list never decreases in the values numpy compares,
    [key] being what the array makes of a number. *)
Lemma ordered_by_array (key : Z -> Z) (demos : list string) :
  np_array (map suffix_number demos) = map key (map suffix_number demos) ->
  StronglySorted (fun a b => key (suffix_number a) <= key (suffix_number b))
    (map (fun i => nth i demos "") (np_argsort (map suffix_number demos))).
Proof.
  intros Hkey.
  apply StronglySorted_map_in
    with (R := fun i j => nth i (np_array (map suffix_number demos)) 0
                          <= nth j (np_array (map suffix_number demos)) 0);
    [|apply np_argsort_sorted].
  intros i j Hi Hj Hle.
  apply (Permutation_in _ (np_argsort_perm _)) in Hi, Hj.
  apply in_seq in Hi, Hj. rewrite length_map in Hi, Hj.
  rewrite Hkey, map_map in Hle.
  set (g := fun x => key (suffix_number x)) in *.
  rewrite (nth_indep (map g demos) 0 (g "") (n := i)),
    (nth_indep (map g demos) 0 (g "") (n := j)) in Hle
    by (rewrite length_map; lia).
  rewrite !map_nth in Hle. exact Hle.
Qed.

Lemma suffix_numbers_inr (demos : list string) (keys : list Z) :
  suffix_numbers demos = inr keys -> keys = map suffix_number demos.
Proof.
  revert keys. induction demos as [|elem rest IH]; intros keys;
    cbn [suffix_numbers map].
  - now intros [= <-].
  - destruct (py_int (drop5 elem)) as [e|k] eqn:E; [discriminate|].
    destruct (suffix_numbers rest) as [e|ks]; [discriminate|].
    intros [= <-]. unfold suffix_number at 1. rewrite E. f_equal. now apply IH.
Qed.

Lemma map_nth_seq {A : Type} (l : list A) (d : A) :
  map (fun i => nth i l d) (seq 0 (List.length l)) = l.
Proof.
  induction l as [|x l IH]; [reflexivity|].
  cbn [List.length seq map nth]. f_equal.
  rewrite <- seq_shift, map_map. exact IH.
Qed.

Lemma sorted_stands_before {A : Type} (key : A -> Z) (l : list A) (a b : A) :
  StronglySorted (fun x y => key x <= key y) l ->
  In a l -> In b l -> key a < key b -> stands_before a b l.
Proof.
  intros Hs Ha Hb Hlt.
  apply in_split in Hb as (l1 & l3 & ->).
  apply in_app_or in Ha as [Ha|[Ha|Ha]].
  - apply in_split in Ha as (l1' & l2 & ->).
    exists l1', l2, l3. now rewrite <- app_assoc.
  - subst. lia.
  - exfalso. clear - Hs Ha Hlt.
    induction l1 as [|x l1 IH]; cbn in Hs.
    + inversion Hs as [|? ? _ Hall]; subst.
      rewrite Forall_forall in Hall. specialize (Hall a Ha). cbn in Hall. lia.
    + inversion Hs; subst. auto.
Qed.

Lemma sorted_app_inv {A : Type} (R : A -> A -> Prop) (l1 l2 : list A) (x : A) :
  StronglySorted R (l1 ++ x :: l2) -> forall y, In y l2 -> R x y.
Proof.
  induction l1 as [|z l1 IH]; cbn [app]; intros Hs y Hy.
  - inversion Hs as [|? ? _ Hall]; subst.
    rewrite Forall_forall in Hall. now apply Hall.
  - inversion Hs; subst. now apply IH.
Qed.

(** Two lists that differ in the order of two identifiers, read in one
    and the same order of indices, are not both in order when the
    numbers of the two differ: whatever [np.argsort] makes of equal
    elements, it orders one of two lists wrongly when they have the same
    array. *)
Lemma one_order_of_indices (demos demos' : list string) (i j : nat)
    (inds : list nat) :
  i <> j -> In i inds -> In j inds ->
  suffix_number (nth j demos "") < suffix_number (nth i demos "") ->
  nth i demos' "" = nth j demos "" ->
  nth j demos' "" = nth i demos "" ->
  ~ (StronglySorted (fun a b => suffix_number a <= suffix_number b)
       (map (fun k => nth k demos "") inds)
     /\ StronglySorted (fun a b => suffix_number a <= suffix_number b)
          (map (fun k => nth k demos' "") inds)).
Proof.
  intros Hij Hi Hj Hlt Hi' Hj' [Hs Hs'].
  apply in_split in Hi as (l1 & l2 & ->).
  apply in_app_or in Hj as [Hj|[Hj|Hj]]; [|congruence|].
  - apply in_split in Hj as (l3 & l4 & ->).
    rewrite <- app_assoc in Hs'. cbn [app] in Hs'.
    rewrite map_app in Hs'. cbn [map] in Hs'.
    pose proof (sorted_app_inv _ _ _ _ Hs' (nth i demos' "")) as H.
    rewrite Hi', Hj' in H. cbv beta in H.
    assert (suffix_number (nth i demos "") <= suffix_number (nth j demos ""));
      [|lia].
    apply H. rewrite map_app. apply in_or_app. right. left. exact Hi'.
  - rewrite map_app in Hs. cbn [map] in Hs.
    pose proof (sorted_app_inv _ _ _ _ Hs (nth j demos "")) as H.
    cbv beta in H.
    assert (suffix_number (nth i demos "") <= suffix_number (nth j demos ""));
      [|lia].
    apply H. apply in_map_iff. exists j. now split.
Qed.

(** *** Identifiers of the form demo_<n> *)

Lemma substring_all (s : string) : substring 0 (String.length s) s = s.
Proof. induction s as [|c s IH]; cbn; [reflexivity|now rewrite IH]. Qed.

Lemma drop5_demo_id (ds : list nat) :
  drop5 (demo_id ds) = string_of_list_ascii (map digit_char ds).
Proof. unfold drop5, demo_id. cbn. rewrite Nat.sub_0_r. apply substring_all. Qed.

Lemma digit_char_facts (d : nat) :
  (d < 10)%nat ->
  digit_val (digit_char d) = Some (Z.of_nat d)
  /\ is_space (digit_char d) = false
  /\ Nat.eqb (nat_of_ascii (digit_char d)) 45 = false
  /\ Nat.eqb (nat_of_ascii (digit_char d)) 43 = false.
Proof.
  intros H. do 10 (destruct d as [|d]; [repeat split|]). lia.
Qed.

Lemma parse_digits_numeral (ds : list nat) (acc : Z) (after_digit : bool) :
  Forall (fun d => (d < 10)%nat) ds ->
  ds <> [] \/ after_digit = true ->
  parse_digits (map digit_char ds) acc after_digit
  = Some (fold_left (fun a d => 10 * a + Z.of_nat d) ds acc).
Proof.
  intros Hall. revert acc after_digit.
  induction Hall as [|d ds Hd Hall IH]; intros acc after_digit Hne.
  - destruct Hne as [Hne | ->]; [congruence|reflexivity].
  - cbn [map parse_digits fold_left].
    destruct (digit_char_facts d Hd) as (-> & _). apply IH. now right.
Qed.

Lemma count_digits_numeral (ds : list nat) :
  Forall (fun d => (d < 10)%nat) ds ->
  count_digits (map digit_char ds) = Z.of_nat (List.length ds).
Proof.
  intros Hall. unfold count_digits. f_equal.
  induction Hall as [|d ds Hd _ IH]; [reflexivity|].
  cbn [map filter]. unfold is_digit at 1.
  destruct (digit_char_facts d Hd) as (-> & _). cbn [List.length]. now rewrite IH.
Qed.

Lemma parse_numeral_digits (ds : list nat) :
  ds <> [] ->
  Forall (fun d => (d < 10)%nat) ds ->
  Z.of_nat (List.length ds) <= int_max_str_digits ->
  parse_numeral (map digit_char ds) = Some (numeral_value ds).
Proof.
  intros Hne Hall Hlen. unfold parse_numeral.
  rewrite (count_digits_numeral ds Hall).
  destruct (int_max_str_digits <? Z.of_nat (List.length ds)) eqn:E;
    [apply Z.ltb_lt in E; lia|].
  now rewrite (parse_digits_numeral ds 0 false Hall) by now left.
Qed.

Lemma lstrip_digits (ds : list nat) :
  Forall (fun d => (d < 10)%nat) ds ->
  lstrip (map digit_char ds) = map digit_char ds.
Proof.
  intros [|d ds' Hd _]; [reflexivity|]. cbn [map lstrip].
  destruct (digit_char_facts d Hd) as (_ & -> & _). reflexivity.
Qed.

Lemma strip_digits (ds : list nat) :
  Forall (fun d => (d < 10)%nat) ds ->
  strip (map digit_char ds) = map digit_char ds.
Proof.
  intros Hall. unfold strip. rewrite (lstrip_digits ds Hall).
  rewrite <- map_rev, lstrip_digits by now apply Forall_rev.
  now rewrite map_rev, rev_involutive.
Qed.

Lemma demo_id_number (ds : list nat) :
  ds <> [] ->
  Forall (fun d => (d < 10)%nat) ds ->
  Z.of_nat (List.length ds) <= int_max_str_digits ->
  py_int (drop5 (demo_id ds)) = inr (numeral_value ds).
Proof.
  intros Hne Hall Hlen. rewrite drop5_demo_id. unfold py_int.
  rewrite list_ascii_of_string_of_list_ascii, (strip_digits ds Hall).
  pose proof (parse_numeral_digits ds Hne Hall Hlen) as Hnum.
  destruct ds as [|d ds']; [congruence|].
  change (map digit_char (d :: ds')) with (digit_char d :: map digit_char ds')
    at 1.
  inversion Hall as [|? ? Hd Hall']; subst.
  destruct (digit_char_facts d Hd) as (_ & _ & -> & ->).
  now rewrite Hnum.
Qed.

Lemma demo_ids_numbers (dss : list (list nat)) :
  Forall (fun ds => ds <> [] /\ Forall (fun d => (d < 10)%nat) ds
                    /\ Z.of_nat (List.length ds) <= int_max_str_digits) dss ->
  suffix_numbers (map demo_id dss) = inr (map numeral_value dss).
Proof.
  induction 1 as [|ds dss (Hne & Hds & Hlen) _ IH]; [reflexivity|].
  cbn [map suffix_numbers]. now rewrite (demo_id_number ds Hne Hds Hlen), IH.
Qed.


(** ** State extension with action replay (claim C10) *)

Section Aborts.

Context {B : Backend}.

Variable p : event -> bool.

Lemma aborts_bind {A C : Type} (m : T A) (k : A -> T C) :
  clean p m ->
  (forall a, result_of m = inr a -> aborts p (k a)) ->
  aborts p (bind m k).
Proof.
  unfold aborts, clean, stops, returned. intros Hm Hk.
  rewrite trace_bind, result_bind, count_app, Hm.
  destruct (result_of m) as [e|a]; [now split|]. now apply Hk.
Qed.

Lemma aborts_here {A C : Type} (m : T A) (k : A -> T C) :
  aborts p m -> aborts p (bind m k).
Proof.
  intros [Hc Hs]. split; [now apply clean_bind_stops|now apply stops_here].
Qed.

End Aborts.

Section ExtendStates.

Context {B : Backend} {W : World}.

Lemma clean_step_reset_to (env : Env) (init : state_dict) :
  clean is_step (reset_to env init).
Proof. unfold reset_to. clean_all; apply clean_decode_json. Qed.

Lemma playback_mismatch_aborts (args : Args) (states : list StateVec)
    (acts : list Action) (render : bool) (video_writer : option string)
    (video_skip : Z) (camera_names : option (list string))
    (first verbose : bool) (env : Env) (init : state_dict) (draw : Z) :
  py_len states <> py_len acts ->
  aborts is_step
    (playback_trajectory_with_env args states (Some acts) render video_writer
       video_skip camera_names first verbose env init draw).
Proof.
  intros Hne. unfold playback_trajectory_with_env.
  apply aborts_bind; [clean_all|]. intros _ _.
  apply aborts_bind; [clean_all; apply clean_decode_json|]. intros _ _.
  apply aborts_bind; [apply clean_step_reset_to|]. intros env1 _.
  apply aborts_here.
  destruct (py_len states =? py_len acts) eqn:E; [apply Z.eqb_eq in E; lia|].
  split; reflexivity.
Qed.

Lemma playback_mismatch_result (args : Args) (states : list StateVec)
    (acts : list Action) (render : bool) (video_writer : option string)
    (video_skip : Z) (camera_names : option (list string))
    (first verbose : bool) (env : Env) (init : state_dict) (draw : Z) :
  render && (match video_writer with Some _ => true | None => false end) = false ->
  loadable verbose init = true ->
  py_len states <> py_len acts ->
  result_of
    (playback_trajectory_with_env args states (Some acts) render video_writer
       video_skip camera_names first verbose env init draw)
  = inl (AssertionError AssertEqualLength).
Proof.
  intros Hxor Hload Hne. unfold playback_trajectory_with_env.
  rewrite Hxor. cbn [negb assert]. rewrite bind_ret.
  destruct (prelude_ok verbose init Hload) as (t0 & H0 & _).
  rewrite (bind_inr _ _ _ _ H0). cbn [fst snd result_of].
  destruct (reset_to_loadable verbose env init Hload) as (t1 & e1 & H1 & _).
  rewrite (bind_inr _ _ _ _ H1). cbn [fst snd].
  destruct (py_len states =? py_len acts) eqn:E; [apply Z.eqb_eq in E; lia|].
  reflexivity.
Qed.

Lemma py_len_extended (states : list StateVec) (final : StateVec)
    (acts : list Action) :
  List.length acts = List.length states ->
  py_len (states ++ repeat final 50) <> py_len acts.
Proof.
  intros H. unfold py_len. rewrite length_app, repeat_length, H. lia.
Qed.

Variables (args : Args) (ep : string) (draw : Z) (f : h5file) (grp : episode)
          (states : list StateVec) (acts : list Action).

Hypothesis Hext : extend_states args = true.
Hypothesis Hobs : use_obs args = false.
Hypothesis Hmode : use_actions args || use_abs_actions args = true.
Hypothesis Hfile : h5py_File (dataset args) = Some f.
Hypothesis Hgrp : get_episode f ep = inr grp.
Hypothesis Hstates : ep_states grp = Some states.
Hypothesis Hacts : replayed_actions args grp = Some acts.
Hypothesis Hlen : List.length acts = List.length states.

Lemma process_demo_extended_aborts :
  aborts is_step (process_demo args ep draw).
Proof.
  unfold process_demo. rewrite Hobs, Hext, Hfile.
  apply aborts_bind; [clean_all|]. intros _ _. cbv zeta.
  apply aborts_bind; [clean_all|]. intros vw _.
  rewrite bind_ret.
  apply aborts_bind; [now apply clean_make_env|]. intros env _.
  rewrite Hgrp, bind_lift_inr, Hstates. cbn [require]. rewrite bind_lift_inr.
  apply aborts_bind; [clean_all|]. intros state0 _.
  apply aborts_bind; [clean_all|]. intros model_file _.
  apply aborts_bind; [clean_all|]. intros hidden _.
  apply aborts_bind.
  { apply clean_emit_all. intros ev Hin. apply in_map_iff in Hin as (s & <- & _).
    reflexivity. }
  intros _ _.
  apply aborts_bind; [clean_all|]. intros states' Hst.
  assert (exists final, states' = states ++ repeat final 50) as [final ->].
  { revert Hst. rewrite result_bind.
    destruct (py_index states (-1)) as [e|final]; cbn; [discriminate|].
    intros [= <-]. now exists final. }
  apply aborts_bind; [clean_all|]. intros u Hxor.
  assert (use_actions args && use_abs_actions args = false) as Hone.
  { destruct (use_actions args && use_abs_actions args); [discriminate|reflexivity]. }
  apply aborts_bind; [clean_all|]. intros actions Hact.
  assert (actions = Some acts) as ->.
  { revert Hact. unfold replayed_actions in Hacts.
    destruct (use_actions args); [|destruct (use_abs_actions args);
                                      [|discriminate]];
      rewrite Hacts; cbn; congruence. }
  apply aborts_here. apply playback_mismatch_aborts.
  now apply py_len_extended.
Qed.

Hypothesis Hone : use_actions args && use_abs_actions args = false.
Hypothesis Hwriter :
  render args || (match video_path args with Some _ => true | None => false end)
  = true.
Hypothesis Henv : returned (make_env_from_args args) = true.
Hypothesis Hne : states <> [].
Hypothesis Hmodel :
  match ep_model_file grp with
  | Some model_file =>
      match hide_pinch_sites model_file with inr _ => true | inl _ => false end
  | None => false
  end = true.
Hypothesis Hmeta : episode_loadable (verbose args) grp = true.

Lemma result_bind_inr {A C : Type} (m : T A) (k : A -> T C) (a : A) :
  result_of m = inr a -> result_of (bind m k) = result_of (k a).
Proof. intros H. now rewrite result_bind, H. Qed.

Lemma process_demo_extended_result :
  result_of (process_demo args ep draw) = inl (AssertionError AssertEqualLength).
Proof.
  unfold process_demo. rewrite Hobs, Hext, Hfile.
  rewrite (result_bind_inr _ _ tt) by reflexivity. cbv zeta.
  assert (exists vw,
            result_of
              (if negb (render args) then
                 match video_path args with
                 | None => raise TypeError
                 | Some vp =>
                     emit (OpenWriter (drop_last4 vp ++ "_" ++ ep ++ ".mp4")%string) ;;
                     ret (Some (drop_last4 vp ++ "_" ++ ep ++ ".mp4")%string)
                 end
               else ret None) = inr vw
            /\ render args
               && (match vw with Some _ => true | None => false end) = false)
    as (vw & Hvw & Hxor).
  { destruct (render args); cbn in Hwriter |- *.
    - now exists None.
    - destruct (video_path args) as [vp|]; [|discriminate]. eexists. now split. }
  rewrite (result_bind_inr _ _ _ Hvw), bind_ret.
  destruct (make_env_from_args args) as [tenv [e|env]] eqn:Hmk; [discriminate|].
  rewrite (result_bind_inr _ _ env) by reflexivity.
  rewrite Hgrp, bind_lift_inr, Hstates. cbn [require]. rewrite bind_lift_inr.
  destruct states as [|state0 more] eqn:Hs; [congruence|].
  change (py_index (state0 :: more) 0) with (@inr exn _ state0).
  rewrite bind_lift_inr.
  destruct (ep_model_file grp) as [model_file|]; [|discriminate].
  cbn [require]. rewrite bind_lift_inr.
  destruct (hide_pinch_sites model_file) as [e|hidden]; [discriminate|].
  rewrite bind_lift_inr.
  assert (result_of (emit_all (map PrintSiteInvisible (fst hidden))) = inr tt)
    as Hprints.
  { induction (fst hidden) as [|x xs IH]; [reflexivity|].
    cbn [map emit_all]. now rewrite (result_bind_inr _ _ tt). }
  rewrite (result_bind_inr _ _ _ Hprints).
  destruct (py_index_inr (state0 :: more) (-1 + py_len (state0 :: more)))
    as (final & _ & Hnth).
  { unfold py_len. cbn [List.length]. lia. }
  assert (py_index (state0 :: more) (-1) = inr final) as Hfinal.
  { unfold py_index. 
    change (-1 <? 0) with true. cbv iota.
    destruct ((-1 + py_len (state0 :: more) <? 0)
              || (py_len (state0 :: more) <=? -1 + py_len (state0 :: more)))
      eqn:E.
    - exfalso. unfold py_len in E. cbn [List.length] in E.
      apply orb_true_iff in E as [E|E];
        [apply Z.ltb_lt in E|apply Z.leb_le in E]; lia.
    - now rewrite Hnth. }
  rewrite Hfinal, bind_lift_inr, bind_ret.
  rewrite Hone. cbn [negb assert]. rewrite bind_ret.
  assert (result_of
            (if use_actions args
             then a <- lift (require KeyError (ep_actions grp)) ;; ret (Some a)
             else if use_abs_actions args
                  then a <- lift (require KeyError (ep_actions_abs grp)) ;;
                       ret (Some a)
                  else ret None) = inr (Some acts)) as Hact.
  { unfold replayed_actions in Hacts.
    destruct (use_actions args); [|destruct (use_abs_actions args);
                                      [|discriminate]];
      rewrite Hacts; reflexivity. }
  rewrite (result_bind_inr _ _ _ Hact).
  rewrite result_bind, playback_mismatch_result; [reflexivity|exact Hxor| |].
  - unfold loadable, episode_loadable in *. cbn [sd_ep_meta sd_model].
    destruct (ep_ep_meta grp) as [s|]; [|exact Hmeta].
    exact Hmeta.
  - now apply py_len_extended.
Qed.

End ExtendStates.

(** * Further properties of the playback script *)

Section ReplayTheorems.

Context {B : Backend}.



End ReplayTheorems.

Lemma py_range_cons (a b : Z) : a < b -> py_range a b = a :: py_range (a + 1) b.
Proof.
  intros H. unfold py_range.
  replace (Z.to_nat (b - a)) with (S (Z.to_nat (b - (a + 1)))) by lia.
  cbn [seq map]. f_equal; [lia|].
  rewrite <- seq_shift, map_map. apply map_ext. intros k. lia.
Qed.

Lemma py_range_first_length (a b : Z) :
  List.length (firstn 1 (py_range a b)) = if a <? b then 1%nat else 0%nat.
Proof.
  destruct (a <? b) eqn:E.
  - apply Z.ltb_lt in E. now rewrite (py_range_cons a b E).
  - apply Z.ltb_ge in E. now rewrite (py_range_empty a b E).
Qed.

Lemma sampled_one (k : Z) : sampled k 0 1 = 1%nat.
Proof. cbn [sampled]. now rewrite Zmod_0_l. Qed.

Section FirstOnly.

Context {B : Backend}.

Lemma for_obs_first (traj_grp : episode) (video_writer : option string)
    (video_skip : Z) (image_names : list string) (idxs : list Z) (vc : Z) :
  for_obs traj_grp video_writer video_skip image_names true idxs vc
  = for_obs traj_grp video_writer video_skip image_names false
      (firstn 1 idxs) vc.
Proof.
  destruct idxs as [|i rest]; reflexivity.
Qed.


(** X4.  In first-only mode observation playback writes exactly one
    frame of a non-empty episode, whatever the (non-zero) sampling
    interval, and none of an empty one. *)
Theorem first_only_writes_one_observation
    (traj_grp : episode) (path : string) (video_skip : Z)
    (image_names : list string) :
  video_skip <> 0 ->
  obs_ready traj_grp image_names = true ->
  exists len t,
    obs_length traj_grp image_names = Some len
    /\ playback_trajectory_with_obs traj_grp (Some path) video_skip
         (Some image_names) true = (t, inr tt)
    /\ count is_append t = (if 0 <? len then 1%nat else 0%nat).
Proof.
  intros Hskip. unfold obs_ready.
  destruct (obs_length traj_grp image_names) as [len|] eqn:Hlen; [|discriminate].
  intros Hall. exists len.
  unfold obs_length in Hlen. destruct image_names as [|name0 rest] eqn:Hnames;
    [discriminate|].
  destruct (obs_images traj_grp name0) as [e|seq0] eqn:Hseq; [discriminate|].
  injection Hlen as <-.
  unfold playback_trajectory_with_obs.
  change (py_index (name0 :: rest) 0) with (@inr exn _ name0).
  rewrite bind_lift_inr, Hseq, bind_lift_inr.
  rewrite <- Hnames in *. rewrite for_obs_first.
  assert (Forall (fun i => 0 <= i < py_len seq0)
            (firstn 1 (py_range 0 (py_len seq0)))) as Hin.
  { apply (visited_forall _ true).
    apply py_range_within; lia. }
  destruct (for_obs_ok traj_grp path video_skip image_names Hskip
              (py_len seq0) _ ltac:(congruence) Hall Hin 0)
    as (t & Ht & At).
  rewrite (bind_inr _ _ _ _ Ht). cbn [fst snd ret].
  exists (t ++ []). split; [reflexivity|]. split; [reflexivity|].
  rewrite app_nil_r, At, py_range_first_length.
  destruct (0 <? py_len seq0); [apply sampled_one|reflexivity].
Qed.

End FirstOnly.

Section ZeroSkip.

Context {B : Backend}.


(** X6.  A sampling interval of zero makes observation playback of a
    non-empty episode fail with ZeroDivisionError before anything is
    written, in either mode and with or without a writer. *)
Theorem zero_video_skip_fails_observation_playback
    (traj_grp : episode) (video_writer : option string)
    (name0 : string) (rest : list string) (first : bool) (seq0 : list Image) :
  obs_images traj_grp name0 = inr seq0 ->
  0 < py_len seq0 ->
  playback_trajectory_with_obs traj_grp video_writer 0
    (Some (name0 :: rest)) first = ([], inl ZeroDivisionError).
Proof.
  intros Hseq Hlen. unfold playback_trajectory_with_obs.
  change (py_index (name0 :: rest) 0) with (@inr exn _ name0).
  rewrite bind_lift_inr, Hseq, bind_lift_inr.
  rewrite (py_range_cons 0 (py_len seq0) Hlen). reflexivity.
Qed.

End ZeroSkip.

(** ** What an episode holds and releases *)

Section Inner.

Context {B : Backend} {W : World}.

Lemma clean_filter (p : event -> bool) {A : Type} (m : T A) :
  clean p m <-> filter p (trace_of m) = [].
Proof.
  unfold clean, count. split.
  - intros H. now apply length_zero_iff_nil.
  - intros ->. reflexivity.
Qed.

Lemma filter_bind (p : event -> bool) {A C : Type} (m : T A) (k : A -> T C) :
  filter p (trace_of (bind m k))
  = filter p (trace_of m) ++ match result_of m with
                             | inr a => filter p (trace_of (k a))
                             | inl _ => []
                             end.
Proof.
  rewrite trace_bind, filter_app. now destruct (result_of m).
Qed.

Lemma returned_bind {A C : Type} (m : T A) (k : A -> T C) :
  returned (bind m k)
  = match result_of m with
    | inr a => returned (k a)
    | inl _ => false
    end.
Proof. unfold returned. rewrite result_bind. now destruct (result_of m). Qed.

Lemma on_return_after (p : event -> bool) (evs : list event) {A C : Type}
    (m : T A) (k : A -> T C) :
  clean p m -> (forall a, on_return p evs (k a)) -> on_return p evs (bind m k).
Proof.
  unfold on_return. intros Hm Hk. apply clean_filter in Hm.
  rewrite filter_bind, returned_bind, Hm.
  destruct (result_of m); [reflexivity|apply Hk].
Qed.

(** The functions [process_demo] calls produce none of its own marks. *)
Variable p : event -> bool.
Hypothesis Hp : forall ev, is_episode_mark ev = false -> p ev = false.

Lemma clean_inner_emit (ev : event) :
  is_episode_mark ev = false -> clean p (emit ev).
Proof. intros H. apply clean_emit. now apply Hp. Qed.

Lemma clean_inner_call (ev : event) (f : Env -> Env) (env : Env) :
  is_episode_mark ev = false -> clean p (call ev f env).
Proof. intros H. apply clean_call. now apply Hp. Qed.

Lemma clean_inner_reset_to (env : Env) (state : state_dict) :
  clean p (reset_to env state).
Proof.
  unfold reset_to.
  repeat first
    [ apply clean_ret | apply clean_raise | apply clean_lift
    | apply clean_decode_json
    | apply clean_inner_call; reflexivity
    | apply clean_bind; [|intros ?]
    | match goal with
      | |- clean _ (if ?b then _ else _) => destruct b
      | |- clean _ (match ?x with _ => _ end) => destruct x
      | |- clean _ (let _ := _ in _) => cbv zeta
      end ].
Qed.

Lemma clean_inner_playback_env (args : Args) (states : list StateVec)
    (actions : option (list Action)) (render : bool)
    (video_writer : option string) (video_skip : Z)
    (camera_names : option (list string)) (first verbose : bool)
    (env : Env) (init : state_dict) (draw : Z) :
  clean p
    (playback_trajectory_with_env args states actions render video_writer
       video_skip camera_names first verbose env init draw).
Proof.
  unfold playback_trajectory_with_env.
  apply clean_bind; [apply clean_assert|]. intros _.
  apply clean_bind.
  { destruct verbose; [|apply clean_ret].
    apply clean_bind.
    { destruct (sd_ep_meta init) as [[s|]|];
        [apply clean_decode_json|apply clean_raise|apply clean_raise]. }
    intros j. apply clean_bind.
    { destruct (json_get_lang j);
        [apply clean_inner_emit; reflexivity|apply clean_ret]. }
    intros _. apply clean_inner_emit; reflexivity. }
  intros _.
  apply clean_bind; [apply clean_inner_reset_to|]. intros env1.
  apply clean_bind.
  { destruct actions; [apply clean_assert|apply clean_ret]. }
  intros _.
  apply clean_bind.
  { destruct (negb render); [apply clean_inner_emit; reflexivity|apply clean_ret]. }
  intros _.
  apply clean_bind; [apply clean_lift|]. intros w.
  apply clean_bind.
  { apply clean_for_steps. intros ev Hev. apply Hp.
    destruct ev; try reflexivity; discriminate. }
  intros st. destruct render;
    [apply clean_on_viewer; now apply Hp|apply clean_ret].
Qed.

Lemma clean_inner_for_obs (traj_grp : episode) (video_writer : option string)
    (video_skip : Z) (names : list string) (first : bool) (idxs : list Z) :
  forall vc,
    clean p (for_obs traj_grp video_writer video_skip names first idxs vc).
Proof.
  induction idxs as [|i rest IH]; intros vc; cbn [for_obs].
  - apply clean_ret.
  - apply clean_bind.
    + unfold obs_body, append_data.
      repeat first
        [ apply clean_ret | apply clean_raise | apply clean_lift
        | apply clean_inner_emit; reflexivity
        | apply clean_bind; [|intros ?]
        | match goal with
          | |- clean _ (if ?b then _ else _) => destruct b
          | |- clean _ (match ?x with _ => _ end) => destruct x
          end ].
    + intros vc'. destruct first; [apply clean_ret|apply IH].
Qed.

Lemma clean_inner_playback_obs (traj_grp : episode)
    (video_writer : option string) (video_skip : Z)
    (image_names : option (list string)) (first : bool) :
  clean p
    (playback_trajectory_with_obs traj_grp video_writer video_skip
       image_names first).
Proof.
  unfold playback_trajectory_with_obs. destruct image_names; [|apply clean_raise].
  apply clean_bind; [apply clean_lift|]. intros name0.
  apply clean_bind; [apply clean_lift|]. intros seq0.
  apply clean_bind; [apply clean_inner_for_obs|]. intros _. apply clean_ret.
Qed.

Lemma clean_inner_open (path : string) :
  clean p (match h5py_File path with
           | Some f => ret f
           | None => emit (PrintErrorOpening path) ;; raise (SystemExit 1)
           end).
Proof.
  destruct (h5py_File path); [apply clean_ret|].
  apply clean_bind; [apply clean_inner_emit; reflexivity|].
  intros _. apply clean_raise.
Qed.

Lemma clean_inner_make_env (args : Args) : clean p (make_env_from_args args).
Proof.
  apply clean_make_env; intros; now apply Hp.
Qed.

End Inner.

Section Lifecycle.

Context {B : Backend} {W : World}.

Lemma lifecycle_inner (ev : event) :
  is_episode_mark ev = false -> is_lifecycle ev = false.
Proof. destruct ev; cbn; congruence. Qed.

Lemma playing_back_inner (ev : event) :
  is_episode_mark ev = false -> is_playing_back ev = false.
Proof. destruct ev; cbn; congruence. Qed.

(** What follows the opening of the writer in [process_demo]. *)
Lemma process_demo_marks (p : event -> bool) (args : Args) (ep : string)
    (draw : Z) (r : bool) (vw : option string) :
  (forall ev, is_episode_mark ev = false -> p ev = false) ->
  on_return p
    (filter p
       ((match vw with
         | Some path => [PrintSaved path; CloseWriter]
         | None => []
         end)
        ++ (if use_obs args then [] else [CallEnvClose])))
       (f <- match h5py_File (dataset args) with
             | Some f => ret f
             | None => emit (PrintErrorOpening (dataset args)) ;;
                       raise (SystemExit 1)
             end ;;
        if use_obs args then
          traj_grp <- lift (get_episode f ep) ;;
          playback_trajectory_with_obs traj_grp vw (video_skip args)
            (render_image_names args) (first args) ;;
          finish_video vw
        else
          env <- make_env_from_args args ;;
          grp <- lift (get_episode f ep) ;;
          states <- lift (require KeyError (ep_states grp)) ;;
          state0 <- lift (py_index states 0) ;;
          model_file <- lift (require KeyError (ep_model_file grp)) ;;
          hidden <- lift (hide_pinch_sites model_file) ;;
          emit_all (map PrintSiteInvisible (fst hidden)) ;;
          let model := if use_current_env_model args
                       then sim_model_get_xml env else snd hidden in
          let initial_state := {| sd_states := Some state0;
                                  sd_model := Some model;
                                  sd_ep_meta := Some (ep_ep_meta grp) |} in
          states <- (if extend_states args then
                       final <- lift (py_index states (-1)) ;;
                       ret (states ++ repeat final 50)
                     else ret states) ;;
          assert AssertRelXorAbs
            (negb (use_actions args && use_abs_actions args)) ;;
          actions <- (if use_actions args then
                        a <- lift (require KeyError (ep_actions grp)) ;;
                        ret (Some a)
                      else if use_abs_actions args then
                        a <- lift (require KeyError (ep_actions_abs grp)) ;;
                        ret (Some a)
                      else ret None) ;;
          _ <- playback_trajectory_with_env args states actions r
                 vw (video_skip args) (render_image_names args)
                 (first args) (verbose args) env initial_state draw ;;
          finish_video vw ;;
          emit CallEnvClose)%py.
Proof.
  intros Hp.
  apply on_return_after; [now apply clean_inner_open|]. intros f.
  destruct (use_obs args).
  - apply on_return_after; [apply clean_lift|]. intros grp.
    apply on_return_after; [now apply clean_inner_playback_obs|]. intros _.
    destruct vw; reflexivity.
  - apply on_return_after; [now apply clean_inner_make_env|]. intros env.
    do 5 (apply on_return_after; [apply clean_lift|]; intros ?).
    apply on_return_after.
    { apply clean_emit_all. intros ev Hin.
      apply in_map_iff in Hin as (s & <- & _). now apply Hp. }
    intros _. cbv zeta.
    apply on_return_after.
    { destruct (extend_states args); [|apply clean_ret].
      apply clean_bind; [apply clean_lift|intros; apply clean_ret]. }
    intros states'.
    apply on_return_after; [apply clean_assert|]. intros _.
    apply on_return_after.
    { destruct (use_actions args); [|destruct (use_abs_actions args)];
        try apply clean_ret;
        (apply clean_bind; [apply clean_lift|intros; apply clean_ret]). }
    intros actions.
    apply on_return_after; [now apply clean_inner_playback_env|]. intros _.
    destruct vw; reflexivity.
Qed.

Lemma process_demo_lifecycle (args : Args) (ep : string) (draw : Z) :
  lifecycle_of (trace_of (process_demo args ep draw))
  = (if render args then []
     else match video_path args with
          | Some vp => [OpenWriter (episode_video_path vp ep)]
          | None => []
          end)
    ++ (if returned (process_demo args ep draw)
        then (if render args then [] else [CloseWriter])
             ++ (if use_obs args then [] else [CallEnvClose])
        else []).
Proof.
  unfold lifecycle_of, process_demo.
  rewrite filter_bind, returned_bind. cbn [emit trace_of result_of fst snd filter
    is_lifecycle app]. cbv zeta.
  rewrite filter_bind, returned_bind.
  destruct (render args); cbn [negb].
  - cbn [ret trace_of result_of fst snd filter app].
    pose proof (process_demo_marks is_lifecycle args ep draw true None
                  lifecycle_inner) as H.
    unfold on_return in H. cbv zeta in H. rewrite H.
    destruct (returned _), (use_obs args); reflexivity.
  - destruct (video_path args) as [vp|].
    + rewrite bind_emit. cbn [ret trace_of result_of fst snd filter
        is_lifecycle app].
      pose proof (process_demo_marks is_lifecycle args ep draw false
                    (Some (drop_last4 vp ++ "_" ++ ep ++ ".mp4")%string)
                    lifecycle_inner) as H.
      unfold on_return in H. cbv zeta in H. rewrite H.
      destruct (returned _), (use_obs args); reflexivity.
    + reflexivity.
Qed.

(** X7.  An episode opens at most one video writer, at the episode's
    path and before the dataset is read, and no writer when rendering on
    screen.  The writer is closed exactly when the episode completes,
    and the environment is closed exactly when a simulator playback
    completes: an episode that fails releases neither. *)
Theorem episode_releases_only_on_completion
    (args : Args) (ep : string) (draw : Z) :
  lifecycle_of (trace_of (process_demo args ep draw))
  = (if render args then []
     else match video_path args with
          | Some vp => [OpenWriter (episode_video_path vp ep)]
          | None => []
          end)
    ++ (if returned (process_demo args ep draw)
        then (if render args then [] else [CloseWriter])
             ++ (if use_obs args then [] else [CallEnvClose])
        else []).
Proof. apply process_demo_lifecycle. Qed.

End Lifecycle.

(** ** Video paths *)

Lemma append_length (s t : string) :
  String.length (s ++ t) = (String.length s + String.length t)%nat.
Proof. induction s as [|c s IH]; cbn; [reflexivity|now rewrite IH]. Qed.

Lemma append_assoc (s t u : string) : ((s ++ t) ++ u = s ++ (t ++ u))%string.
Proof. induction s as [|c s IH]; cbn; [reflexivity|now rewrite IH]. Qed.

Lemma substring_prefix (s t : string) :
  substring 0 (String.length s) (s ++ t) = s.
Proof.
  induction s as [|c s IH]; cbn.
  - now destruct t.
  - now rewrite IH.
Qed.

Lemma append_inv_head (s t u : string) : (s ++ t = s ++ u)%string -> t = u.
Proof.
  induction s as [|c s IH]; cbn; [trivial|]. intros [= H]. now apply IH.
Qed.

Lemma list_ascii_of_append (s t : string) :
  list_ascii_of_string (s ++ t)
  = (list_ascii_of_string s ++ list_ascii_of_string t)%list.
Proof. induction s as [|c s IH]; cbn; [reflexivity|now rewrite IH]. Qed.

Lemma append_inv_tail (s t u : string) : (s ++ u = t ++ u)%string -> s = t.
Proof.
  intros H. apply (f_equal list_ascii_of_string) in H.
  rewrite !list_ascii_of_append in H. apply app_inv_tail in H.
  rewrite <- (string_of_list_ascii_of_string s),
          <- (string_of_list_ascii_of_string t).
  now rewrite H.
Qed.

Lemma drop_last4_extension (stem ext : string) :
  String.length ext = 4%nat -> drop_last4 (stem ++ ext) = stem.
Proof.
  intros H. unfold drop_last4. rewrite append_length, H.
  replace (String.length stem + 4 - 4)%nat with (String.length stem) by lia.
  apply substring_prefix.
Qed.

Lemma episode_video_path_injective (video_path ep1 ep2 : string) :
  episode_video_path video_path ep1 = episode_video_path video_path ep2 ->
  ep1 = ep2.
Proof.
  unfold episode_video_path. intros H.
  apply append_inv_head in H. apply append_inv_head in H.
  now apply append_inv_tail in H.
Qed.

Section VideoPaths.

Context {B : Backend} {W : World}.

Lemma opened_writer (args : Args) (ep : string) (draw : Z) (path : string) :
  In (OpenWriter path) (trace_of (process_demo args ep draw)) ->
  exists vp, video_path args = Some vp /\ path = episode_video_path vp ep.
Proof.
  intros H.
  assert (In (OpenWriter path)
            (lifecycle_of (trace_of (process_demo args ep draw)))) as Hin.
  { apply filter_In. split; [exact H|reflexivity]. }
  rewrite process_demo_lifecycle in Hin. apply in_app_or in Hin as [Hin|Hin].
  - destruct (render args); [destruct Hin|].
    destruct (video_path args) as [vp|]; [|destruct Hin].
    destruct Hin as [[= <-]|[]]. now exists vp.
  - exfalso. destruct (returned _); [|destruct Hin].
    destruct (render args), (use_obs args); cbn in Hin;
      intuition discriminate.
Qed.

(** X8.  Two different episodes played with the same arguments never
    write to the same video file. *)
Theorem episodes_write_distinct_files
    (args : Args) (ep1 ep2 : string) (draw1 draw2 : Z) (path1 path2 : string) :
  In (OpenWriter path1) (trace_of (process_demo args ep1 draw1)) ->
  In (OpenWriter path2) (trace_of (process_demo args ep2 draw2)) ->
  ep1 <> ep2 ->
  path1 <> path2.
Proof.
  intros H1 H2 Hne Heq.
  apply opened_writer in H1 as (vp1 & Hv1 & ->).
  apply opened_writer in H2 as (vp2 & Hv2 & ->).
  rewrite Hv1 in Hv2. injection Hv2 as <-.
  now apply episode_video_path_injective in Heq.
Qed.

Lemma check_args_default_video_path (args args1 : Args) :
  result_of (check_args args) = inr args1 ->
  video_path args = None ->
  video_path args1
  = Some (split_hdf5_head (dataset args)
          ++ (if use_actions args then "_use_actions"
              else if use_abs_actions args then "_use_abs_actions"
              else "")
          ++ ".mp4")%string
  /\ render args1 = render args.
Proof.
  unfold check_args. intros H Hv. rewrite Hv in H. cbv zeta in H.
  set (args0 := set_video_path args _) in H.
  assert (video_path args0
          = Some (split_hdf5_head (dataset args)
                  ++ (if use_actions args then "_use_actions"
                      else if use_abs_actions args then "_use_abs_actions"
                      else "")
                  ++ ".mp4")%string
          /\ render args0 = render args) as [Hp0 Hr0].
  { subst args0. cbn [video_path set_video_path render].
    split; [|reflexivity].
    destruct (use_actions args); [reflexivity|].
    destruct (use_abs_actions args); reflexivity. }
  revert H. rewrite result_bind.
  destruct (result_of (assert _ _)); [discriminate|].
  rewrite result_bind.
  destruct (result_of match render_image_names args0 with
                      | Some _ => ret args0
                      | None => _
                      end) as [e|args2] eqn:H2; [discriminate|].
  assert (video_path args2 = video_path args0
          /\ render args2 = render args0) as [Hp2 Hr2].
  { revert H2. destruct (render_image_names args0).
    - now intros [= <-].
    - rewrite result_bind.
      destruct (result_of (get_env_metadata_from_dataset _ _));
        [discriminate|].
      now intros [= <-]. }
  rewrite result_bind.
  destruct (result_of (if render args2 then _ else ret tt)); [discriminate|].
  rewrite result_bind.
  destruct (result_of (if use_obs args2 then _ else ret tt)); [discriminate|].
  intros [= <-]. split; congruence.
Qed.

(** X9.  Without --video_path and without on-screen rendering, the
    episode [ep] is written to the dataset path up to its first
    [.hdf5], followed by the mark of the replay mode, an underscore, the
    episode's name and [.mp4]. *)
Theorem default_video_file_of_episode
    (args args1 : Args) (ep : string) (draw : Z) :
  result_of (check_args args) = inr args1 ->
  video_path args = None ->
  render args = false ->
  exists rest,
    trace_of (process_demo args1 ep draw)
    = PrintPlayingBack ep
      :: OpenWriter (split_hdf5_head (dataset args)
                     ++ (if use_actions args then "_use_actions"
                         else if use_abs_actions args then "_use_abs_actions"
                         else "")
                     ++ "_" ++ ep ++ ".mp4")
      :: rest.
Proof.
  intros Hc Hv Hr.
  destruct (check_args_default_video_path args args1 Hc Hv) as [Hp1 Hr1].
  unfold process_demo. rewrite Hr1, Hr, Hp1. cbn [negb]. cbv zeta.
  rewrite <- (append_assoc (split_hdf5_head (dataset args)) _ ".mp4"),
    drop_last4_extension by reflexivity.
  rewrite trace_bind. cbn [emit trace_of result_of fst snd app].
  rewrite trace_bind, bind_emit. cbn [trace_of result_of fst snd ret app].
  rewrite append_assoc. eexists. reflexivity.
Qed.

End VideoPaths.

(** ** What an episode can fail with *)

Section Failures.

Context {B : Backend} {W : World}.

Lemma raises_only_lift (P : exn -> Prop) {A : Type} (r : exn + A) :
  (forall e, r = inl e -> P e) -> raises_only P (lift r).
Proof. intros H e He. apply H. exact He. Qed.

Lemma raises_only_emit (P : exn -> Prop) (ev : event) : raises_only P (emit ev).
Proof. intros e. discriminate. Qed.

Lemma raises_only_call (P : exn -> Prop) (ev : event) (f : Env -> Env)
    (env : Env) : raises_only P (call ev f env).
Proof. intros e. discriminate. Qed.

Lemma raises_only_on_viewer (ev : event) (f : Env -> Env) (env : Env) :
  raises_only caught (on_viewer ev f env).
Proof.
  unfold on_viewer. destruct (viewer_is_none env);
    [intros e [= <-]; reflexivity|intros e; discriminate].
Qed.

Lemma raises_only_ret (P : exn -> Prop) {A : Type} (a : A) :
  raises_only P (ret a).
Proof. intros e. discriminate. Qed.

Lemma raises_only_raise (P : exn -> Prop) {A : Type} (e : exn) :
  P e -> raises_only P (@raise B A e).
Proof. intros H e' [= <-]. exact H. Qed.

Lemma py_index_caught {A : Type} (l : list A) (i : Z) (e : exn) :
  py_index l i = inl e -> caught e.
Proof.
  unfold py_index. destruct (_ || _); [intros [= <-]; reflexivity|].
  destruct (nth_error _ _); [discriminate|intros [= <-]; reflexivity].
Qed.

Lemma gather_obs_caught (traj_grp : episode) (names : list string) (i : Z)
    (e : exn) :
  gather_obs traj_grp names i = inl e -> caught e.
Proof.
  induction names as [|k rest IH]; cbn [gather_obs]; [discriminate|].
  unfold obs_images at 1. destruct (assoc _ _) as [imgs|]; [|intros [= <-]; reflexivity].
  destruct (py_index imgs i) as [e'|im] eqn:Hi.
  - intros [= <-]. now apply py_index_caught in Hi.
  - destruct (gather_obs traj_grp rest i) as [e'|ims]; [|discriminate].
    intros [= <-]. now apply IH.
Qed.

Lemma select_window_caught (nf : option Z) (len draw : Z) (e : exn) :
  select_window nf len draw = inl e -> caught e.
Proof.
  unfold select_window, randrange. destruct nf as [k|]; [|discriminate].
  destruct (_ <=? 0); [intros [= <-]; reflexivity|discriminate].
Qed.

Ltac caught_step :=
  first
    [ apply raises_only_ret
    | apply raises_only_emit
    | apply raises_only_call
    | apply raises_only_on_viewer
    | apply raises_only_raise; reflexivity
    | apply raises_only_assert; reflexivity
    | apply raises_only_require; reflexivity
    | apply raises_only_lift; intros ? ?; eapply py_index_caught; eassumption
    | apply raises_only_bind; [|intros ?]
    | match goal with
      | |- raises_only _ (if ?b then _ else _) => destruct b
      | |- raises_only _ (match ?x with _ => _ end) => destruct x
      | |- raises_only _ (let _ := _ in _) => cbv zeta
      end ].

Lemma decode_json_caught (s : string) : raises_only caught (decode_json s).
Proof. unfold decode_json. repeat caught_step. Qed.

Lemma reset_to_caught (env : Env) (state : state_dict) :
  raises_only caught (reset_to env state).
Proof.
  unfold reset_to.
  repeat first [apply decode_json_caught | caught_step].
Qed.

Lemma loop_body_caught (args : Args) (states : list StateVec)
    (actions : option (list Action)) (render : bool)
    (video_writer : option string) (video_skip : Z)
    (camera_names : option (list string)) (verbose : bool)
    (env : Env) (vc i : Z) :
  raises_only caught
    (loop_body args states actions render video_writer video_skip
       camera_names verbose env vc i).
Proof.
  unfold loop_body.
  apply raises_only_bind.
  { unfold advance. destruct actions as [acts|].
    - repeat caught_step.
    - apply raises_only_bind; [caught_step|]. intros s. apply reset_to_caught. }
  intros env1. apply raises_only_bind.
  { unfold show. repeat caught_step. }
  intros env2. apply raises_only_bind; [|intros; apply raises_only_ret].
  unfold capture. destruct video_writer; [|apply raises_only_ret].
  apply raises_only_bind.
  { apply raises_only_lift. unfold py_mod.
    destruct (video_skip =? 0); [intros e [= <-]; reflexivity|discriminate]. }
  intros r. apply raises_only_bind; [|intros; apply raises_only_ret].
  destruct (r =? 0); [|apply raises_only_ret].
  apply raises_only_bind.
  { apply raises_only_lift. destruct camera_names; [discriminate|].
    intros e [= <-]; reflexivity. }
  intros cams. apply raises_only_bind; [|intros; apply raises_only_emit].
  apply raises_only_lift. unfold np_concatenate.
  destruct (map _ cams); [intros e [= <-]; reflexivity|discriminate].
Qed.

Lemma for_steps_caught (args : Args) (states : list StateVec)
    (actions : option (list Action)) (render : bool)
    (video_writer : option string) (video_skip : Z)
    (camera_names : option (list string)) (first verbose : bool)
    (idxs : list Z) :
  forall env vc,
    raises_only caught
      (for_steps args states actions render video_writer video_skip
         camera_names first verbose idxs env vc).
Proof.
  induction idxs as [|i rest IH]; intros env vc; cbn [for_steps].
  - apply raises_only_ret.
  - apply raises_only_bind; [apply raises_only_emit|]. intros _.
    apply raises_only_bind; [apply loop_body_caught|]. intros st.
    destruct first; [apply raises_only_ret|apply IH].
Qed.

Lemma playback_env_caught (args : Args) (states : list StateVec)
    (actions : option (list Action)) (render : bool)
    (video_writer : option string) (video_skip : Z)
    (camera_names : option (list string)) (first verbose : bool)
    (env : Env) (init : state_dict) (draw : Z) :
  raises_only caught
    (playback_trajectory_with_env args states actions render video_writer
       video_skip camera_names first verbose env init draw).
Proof.
  unfold playback_trajectory_with_env.
  apply raises_only_bind; [caught_step|]. intros _.
  apply raises_only_bind.
  { repeat first [apply decode_json_caught | caught_step]. }
  intros _.
  apply raises_only_bind; [apply reset_to_caught|]. intros env1.
  apply raises_only_bind; [repeat caught_step|]. intros _.
  apply raises_only_bind; [repeat caught_step|]. intros _.
  apply raises_only_bind.
  { apply raises_only_lift. apply select_window_caught. }
  intros w.
  apply raises_only_bind; [apply for_steps_caught|]. intros st.
  repeat caught_step.
Qed.

Lemma for_obs_caught (traj_grp : episode) (video_writer : option string)
    (video_skip : Z) (names : list string) (first : bool) (idxs : list Z) :
  forall vc,
    raises_only caught
      (for_obs traj_grp video_writer video_skip names first idxs vc).
Proof.
  induction idxs as [|i rest IH]; intros vc; cbn [for_obs].
  - apply raises_only_ret.
  - apply raises_only_bind; [|intros vc'; destruct first;
                               [apply raises_only_ret|apply IH]].
    unfold obs_body.
    apply raises_only_bind.
    { apply raises_only_lift. unfold py_mod.
      destruct (video_skip =? 0); [intros e [= <-]; reflexivity|discriminate]. }
    intros r. apply raises_only_bind; [|intros; apply raises_only_ret].
    destruct (r =? 0); [|apply raises_only_ret].
    apply raises_only_bind.
    { apply raises_only_lift. apply gather_obs_caught. }
    intros im. apply raises_only_bind.
    { apply raises_only_lift. unfold np_concatenate.
      destruct im; [intros e [= <-]; reflexivity|discriminate]. }
    intros frame. unfold append_data. repeat caught_step.
Qed.

Lemma playback_obs_caught (traj_grp : episode) (video_writer : option string)
    (video_skip : Z) (image_names : option (list string)) (first : bool) :
  raises_only caught
    (playback_trajectory_with_obs traj_grp video_writer video_skip
       image_names first).
Proof.
  unfold playback_trajectory_with_obs.
  destruct image_names as [names|]; [|apply raises_only_raise; reflexivity].
  apply raises_only_bind; [caught_step|]. intros name0.
  apply raises_only_bind.
  { apply raises_only_lift. unfold obs_images.
    destruct (assoc _ _); [discriminate|intros e [= <-]; reflexivity]. }
  intros seq0.
  apply raises_only_bind; [apply for_obs_caught|]. intros _.
  apply raises_only_ret.
Qed.

Lemma get_episode_caught (f : h5file) (ep : string) :
  raises_only caught (lift (get_episode f ep)).
Proof.
  apply raises_only_lift. unfold get_episode.
  destruct (f_data f) as [d|]; [|intros e [= <-]; reflexivity].
  destruct (assoc ep d); [discriminate|intros e [= <-]; reflexivity].
Qed.

Variables (args : Args) (f : h5file).
Hypothesis Hopen : h5py_File (dataset args) = Some f.

Lemma process_demo_obs_caught (ep : string) (draw : Z) :
  use_obs args = true ->
  raises_only caught (process_demo args ep draw).
Proof.
  intros Hobs. unfold process_demo. rewrite Hopen, Hobs.
  apply raises_only_bind; [apply raises_only_emit|]. intros _. cbv zeta.
  apply raises_only_bind; [repeat caught_step|]. intros vw.
  rewrite bind_ret.
  apply raises_only_bind; [apply get_episode_caught|]. intros grp.
  apply raises_only_bind; [apply playback_obs_caught|]. intros _.
  unfold finish_video. repeat caught_step.
Qed.

Variable f' : h5file.
Hypothesis Hopen' : h5py_File (expanduser (dataset args)) = Some f'.
Hypothesis Hkwargs :
  forall j b e, env_kwargs_of j b = inl e -> is_Exception e = true.
Hypothesis Hsites :
  forall s e, hide_pinch_sites s = inl e -> is_Exception e = true.

Lemma make_env_caught : raises_only caught (make_env_from_args args).
Proof.
  unfold make_env_from_args, get_env_metadata_from_dataset.
  rewrite Hopen', bind_ret.
  apply raises_only_bind.
  { apply raises_only_bind; [caught_step|]. intros _.
    apply raises_only_bind; [caught_step|]. intros s.
    apply decode_json_caught. }
  intros meta. apply raises_only_bind.
  { apply raises_only_lift. apply Hkwargs. }
  intros kw. repeat caught_step.
Qed.

Lemma process_demo_caught (ep : string) (draw : Z) :
  raises_only caught (process_demo args ep draw).
Proof.
  destruct (use_obs args) eqn:Hobs; [now apply process_demo_obs_caught|].
  unfold process_demo. rewrite Hopen, Hobs.
  apply raises_only_bind; [apply raises_only_emit|]. intros _. cbv zeta.
  apply raises_only_bind; [repeat caught_step|]. intros vw.
  rewrite bind_ret.
  apply raises_only_bind; [apply make_env_caught|]. intros env.
  apply raises_only_bind; [apply get_episode_caught|]. intros grp.
  apply raises_only_bind; [caught_step|]. intros states.
  apply raises_only_bind; [caught_step|]. intros state0.
  apply raises_only_bind; [caught_step|]. intros model_file.
  apply raises_only_bind.
  { apply raises_only_lift. apply Hsites. }
  intros hidden.
  apply raises_only_bind.
  { intros e He. exfalso. revert He.
    generalize (map PrintSiteInvisible (fst hidden)).
    intros l. induction l as [|ev l IH]; [discriminate|].
    cbn [emit_all]. rewrite result_bind. cbn [emit result_of snd].
    exact IH. }
  intros _.
  apply raises_only_bind; [repeat caught_step|]. intros states'.
  apply raises_only_bind; [caught_step|]. intros _.
  apply raises_only_bind; [repeat caught_step|]. intros actions.
  apply raises_only_bind; [apply playback_env_caught|]. intros _.
  unfold finish_video. repeat caught_step.
Qed.

Lemma jobs_caught (demos : list string) (window_draws : nat -> Z) :
  forall k, failures_are_exceptions (submit_all args demos window_draws k).
Proof.
  induction demos as [|ep rest IH]; intros k ep' job e Hin Hres.
  - destruct Hin.
  - destruct Hin as [[= <- <-]|Hin].
    + now apply (process_demo_caught ep (window_draws k)).
    + now apply (IH (S k) ep' job e).
Qed.

End Failures.

(** ** Runs over several episodes *)

Section Runs.

Context {B : Backend} {W : World}.

(** X10.  When the dataset opens, also under the expanded path the
    environment meta-data is read from, and the library calls on the
    meta-data and on the scene fail with exceptions only, every failure
    of an episode is an exception the parent catches: a parallel run
    returns, having printed one report for each failed episode. *)
Theorem parallel_run_outlives_its_episodes
    (args : Args) (demos : list string) (window_draws : nat -> Z)
    (completion : list nat) (f f' : h5file) :
  h5py_File (dataset args) = Some f ->
  h5py_File (expanduser (dataset args)) = Some f' ->
  (forall j b e, env_kwargs_of j b = inl e -> is_Exception e = true) ->
  (forall s e, hide_pinch_sites s = inl e -> is_Exception e = true) ->
  1 < num_parallel_jobs args ->
  Permutation completion (seq 0 (List.length demos)) ->
  let r := dispatch args demos window_draws completion in
  failures_are_exceptions (workers r)
  /\ returned (parent r) = true
  /\ Permutation (trace_of (parent r)) (reports (workers r)).
Proof.
  intros Hopen Hopen' Hkw Hsites Hjobs Hperm r.
  destruct (dispatch_parallel args demos window_draws completion Hjobs Hperm)
    as (_ & _ & Hall & _).
  fold r in Hall.
  assert (failures_are_exceptions (workers r)) as Hexc.
  { subst r. unfold dispatch.
    destruct (num_parallel_jobs args =? 1) eqn:E1; [lia|].
    destruct (num_parallel_jobs args <=? 0) eqn:E0; [lia|].
    cbn [workers].
    exact (jobs_caught args f Hopen f' Hopen' Hkw Hsites demos window_draws 0). }
  split; [exact Hexc|]. now apply Hall.
Qed.

Lemma played_of_app (t1 t2 : list event) :
  played_of (t1 ++ t2) = played_of t1 ++ played_of t2.
Proof. unfold played_of. now rewrite flat_map_app. Qed.

Lemma played_of_none (t : list event) :
  filter is_playing_back t = [] -> played_of t = [].
Proof.
  induction t as [|ev t IH]; [reflexivity|]. cbn [filter].
  destruct ev; cbn [is_playing_back]; try discriminate; exact IH.
Qed.

Lemma process_demo_announces (args : Args) (ep : string) (draw : Z) :
  played_of (trace_of (process_demo args ep draw)) = [ep].
Proof.
  unfold process_demo. rewrite trace_bind.
  cbn [emit trace_of result_of fst snd]. cbv zeta.
  rewrite played_of_app. cbn [played_of flat_map app]. f_equal.
  apply played_of_none. rewrite filter_bind.
  destruct (render args); cbn [negb].
  - cbn [ret trace_of result_of fst snd filter app].
    pose proof (process_demo_marks is_playing_back args ep draw true None
                  playing_back_inner) as H.
    unfold on_return in H. cbv zeta in H. rewrite H.
    destruct (returned _), (use_obs args); reflexivity.
  - destruct (video_path args) as [vp|]; [|reflexivity].
    rewrite bind_emit. cbn [ret trace_of result_of fst snd filter
      is_playing_back app].
    pose proof (process_demo_marks is_playing_back args ep draw false
                  (Some (drop_last4 vp ++ "_" ++ ep ++ ".mp4")%string)
                  playing_back_inner) as H.
    unfold on_return in H. cbv zeta in H. rewrite H.
    destruct (returned _), (use_obs args); reflexivity.
Qed.

(** X11.  An episode is announced once, by the job that plays it.  A
    sequential run announces the episodes in the order of its list,
    without gaps: all of them when it returns, and those up to the
    failing one when it does not. *)
Theorem sequential_run_plays_in_list_order
    (args : Args) (demos : list string) (window_draws : nat -> Z) (k : nat) :
  (forall ep draw, played_of (trace_of (process_demo args ep draw)) = [ep])
  /\ exists rest,
       demos
       = played_of (trace_of (run_sequential args demos window_draws k)) ++ rest
       /\ (returned (run_sequential args demos window_draws k) = true ->
           rest = [])
       /\ (returned (run_sequential args demos window_draws k) = false ->
           played_of (trace_of (run_sequential args demos window_draws k))
           <> []).
Proof.
  split; [intros ep draw; apply process_demo_announces|].
  revert k. induction demos as [|ep rest IH]; intros k.
  - exists []. cbn. repeat split; discriminate.
  - cbn [run_sequential]. rewrite trace_bind, returned_bind, played_of_app,
      process_demo_announces.
    destruct (result_of (process_demo args ep (window_draws k))) as [e|[]].
    + exists rest. cbn [played_of flat_map app]. split; [reflexivity|].
      split; discriminate.
    + destruct (IH (S k)) as (rest' & Hd & Hret & _).
      exists rest'. split; [cbn [app]; now rewrite Hd at 1|].
      split; [exact Hret|]. intros _. discriminate.
Qed.

Lemma clean_sim_for_obs (traj_grp : episode) (video_writer : option string)
    (video_skip : Z) (names : list string) (first : bool) (idxs : list Z) :
  forall vc,
    clean is_sim_call
      (for_obs traj_grp video_writer video_skip names first idxs vc).
Proof.
  induction idxs as [|i rest IH]; intros vc; cbn [for_obs].
  - apply clean_ret.
  - apply clean_bind.
    + unfold obs_body, append_data. clean_all.
    + intros vc'. destruct first; [apply clean_ret|apply IH].
Qed.

Lemma once_make_env (args : Args) : once is_sim_call (make_env_from_args args).
Proof.
  unfold make_env_from_args.
  apply once_after; [now apply clean_get_env_metadata|]. intros meta.
  apply once_after; [apply clean_lift|]. intros kw.
  apply once_after.
  { destruct (verbose args); [now apply clean_emit|apply clean_ret]. }
  intros _. apply once_before; [|intros; apply clean_ret].
  unfold once. cbn. split; [lia|reflexivity].
Qed.

(** X12.  Observation playback is offline: an episode played from its
    stored images makes no environment ([robosuite.make] is not called)
    and calls no method of an environment, of a simulator or of a
    viewer, in whatever way it ends.  The making of an environment is
    among the calls counted: [make_env_from_args], when it returns, has
    made exactly one such call. *)
Theorem observation_playback_is_offline
    (args : Args) (ep : string) (draw : Z) :
  (use_obs args = true ->
   count is_sim_call (trace_of (process_demo args ep draw)) = 0%nat)
  /\ (returned (make_env_from_args args) = true ->
      count is_sim_call (trace_of (make_env_from_args args)) = 1%nat).
Proof.
  split; [intros Hobs|apply once_make_env].
  change (clean is_sim_call (process_demo args ep draw)).
  unfold process_demo. rewrite Hobs.
  apply clean_bind; [clean_all|]. intros _. cbv zeta.
  apply clean_bind; [clean_all|]. intros vw.
  apply clean_bind; [clean_all|]. intros f.
  apply clean_bind; [clean_all|]. intros grp.
  apply clean_bind.
  { unfold playback_trajectory_with_obs.
    destruct (render_image_names args); [|apply clean_raise].
    apply clean_bind; [clean_all|]. intros name0.
    apply clean_bind; [clean_all|]. intros seq0.
    apply clean_bind; [apply clean_sim_for_obs|]. intros _. apply clean_ret. }
  intros _. unfold finish_video. clean_all.
Qed.

End Runs.

(** ** Defaults of the argument check *)

Section ArgDefaults.

Context {B : Backend} {W : World}.

Lemma check_args_result (args args1 : Args) :
  result_of (check_args args) = inr args1 -> args1 = with_defaults args.
Proof.
  unfold check_args, with_defaults.
  set (args0 := match video_path args with None => _ | Some _ => args end).
  rewrite result_bind.
  destruct (result_of (assert _ _)); [discriminate|].
  rewrite result_bind.
  destruct (result_of match render_image_names args0 with
                      | Some _ => ret args0
                      | None => _
                      end) as [e|args2] eqn:H2; [discriminate|].
  assert (args2 = match render_image_names args0 with
                  | None => set_render_image_names args0
                              (chars "robot0_agentview_center")
                  | Some _ => args0
                  end) as ->.
  { revert H2. destruct (render_image_names args0).
    - now intros [= <-].
    - rewrite result_bind.
      destruct (result_of (get_env_metadata_from_dataset _ _));
        [discriminate|].
      now intros [= <-]. }
  rewrite result_bind.
  destruct (result_of (if render _ then _ else ret tt)); [discriminate|].
  rewrite result_bind.
  destruct (result_of (if use_obs _ then _ else ret tt)); [discriminate|].
  now intros [= <-].
Qed.

Lemma check_args_unnamed_on_screen (args : Args) :
  render args = true ->
  render_image_names args = None ->
  exists t e,
    check_args args = (t, inl e)
    /\ played_of t = []
    /\ (returned (get_env_metadata_from_dataset (dataset args) (dataset args))
        = true -> e = AssertionError AssertOneCamera).
Proof.
  intros Hr Hn. unfold check_args.
  set (args0 := match video_path args with None => _ | Some _ => args end).
  assert (render args0 = true /\ render_image_names args0 = None
          /\ dataset args0 = dataset args) as (Hr0 & Hn0 & Hd0).
  { subst args0. destruct (video_path args); cbn; auto. }
  rewrite Hr0, Hr, Hn0, Hd0. cbn [negb andb assert]. rewrite bind_ret.
  pose proof (clean_get_env_metadata is_playing_back (dataset args)
                (dataset args) eq_refl) as Hclean.
  apply clean_filter, played_of_none in Hclean.
  unfold returned.
  destruct (get_env_metadata_from_dataset (dataset args) (dataset args))
    as [t [e|meta]]; cbn [trace_of result_of fst snd] in *.
  - exists t, e. cbn. repeat split; [exact Hclean|discriminate].
  - exists (t ++ []), (AssertionError AssertOneCamera).
    cbn [bind ret app render set_render_image_names]. rewrite Hr0.
    cbn. repeat split; rewrite ?app_nil_r; auto.
Qed.

(** X13.  With --render and no --render_image_names the run never gets
    to an episode: the name filled in is a string of 23 characters, not
    a list of one name, so the one-camera assertion fails whenever the
    environment meta-data can be read at all. *)
Theorem on_screen_needs_a_camera_name
    (args : Args) (shuffle_draws window_draws : nat -> Z)
    (completion : list nat) :
  render args = true ->
  render_image_names args = None ->
  let r := playback_dataset args shuffle_draws window_draws completion in
  returned (parent r) = false
  /\ workers r = []
  /\ played_of (trace_of (parent r)) = []
  /\ (returned (get_env_metadata_from_dataset (dataset args) (dataset args))
      = true ->
      result_of (parent r) = inl (AssertionError AssertOneCamera)).
Proof.
  intros Hr Hn r. subst r. unfold playback_dataset.
  destruct (check_args_unnamed_on_screen args Hr Hn) as (t & e & -> & Hp & He).
  cbn [bind parent workers trace_of result_of fst snd]. unfold returned.
  cbn [result_of snd]. repeat split; [exact Hp|].
  intros H. now rewrite (He H).
Qed.

(** X14.  An observation playback without --render_image_names looks
    for the images under the first character of the name filled in: an
    episode that stores no [r_image] fails with KeyError before a frame
    is written. *)
Theorem unnamed_observation_playback_reads_r_image
    (args args1 : Args) (f : h5file) (ep : string) (grp : episode) (draw : Z) :
  render_image_names args = None ->
  use_obs args = true ->
  result_of (check_args args) = inr args1 ->
  h5py_File (dataset args) = Some f ->
  get_episode f ep = inr grp ->
  assoc "r_image" (ep_obs grp) = None ->
  result_of (process_demo args1 ep draw) = inl KeyError
  /\ count is_append (trace_of (process_demo args1 ep draw)) = 0%nat.
Proof.
  intros Hn Hobs Hc Hopen Hgrp Hkey.
  assert (render args = false) as Hr.
  { destruct (render args) eqn:Hr; [|reflexivity].
    destruct (check_args_unnamed_on_screen args Hr Hn) as (t & e & Hx & _).
    rewrite Hx in Hc. discriminate. }
  apply check_args_result in Hc. subst args1.
  unfold process_demo, with_defaults.
  set (args0 := match video_path args with None => _ | Some _ => args end).
  assert (render args0 = false /\ render_image_names args0 = None
          /\ dataset args0 = dataset args /\ use_obs args0 = true
          /\ exists vp, video_path args0 = Some vp)
    as (Hr0 & Hn0 & Hd0 & Ho0 & vp & Hv0).
  { subst args0. destruct (video_path args) eqn:Hv; cbn;
      repeat split; eauto. }
  rewrite Hn0.
  cbn [render video_path dataset use_obs render_image_names video_skip first
       set_render_image_names].
  rewrite Hr0, Hv0, Hd0, Hopen, Ho0. cbn [negb].
  assert (forall vw skip fst,
             playback_trajectory_with_obs grp vw skip
               (Some (chars "robot0_agentview_center")) fst
             = ([], inl KeyError)) as Hrun.
  { intros vw skip fst. unfold playback_trajectory_with_obs.
    change (py_index (chars "robot0_agentview_center") 0)
      with (@inr exn _ "r"%string).
    rewrite bind_lift_inr. unfold obs_images.
    change ("r" ++ "_image")%string with "r_image"%string.
    rewrite Hkey. reflexivity. }
  rewrite bind_emit.
  set (path := (drop_last4 vp ++ "_" ++ ep ++ ".mp4")%string).
  rewrite (bind_inr (emit (OpenWriter path) ;; ret (Some path)) _
             [OpenWriter path] (Some path) eq_refl).
  rewrite bind_ret, Hgrp, bind_lift_inr, Hrun.
  split; reflexivity.
Qed.

End ArgDefaults.

(** ** The episode list *)

Lemma py_int_raises (s : string) (e : exn) : py_int s = inl e -> e = ValueError.
Proof.
  unfold py_int.
  destruct (match strip (list_ascii_of_string s) with
            | [] => None
            | c :: rest => _
            end); [discriminate|]. now intros [= <-].
Qed.

Lemma suffix_numbers_fails (demos : list string) (elem : string) (e : exn) :
  In elem demos -> py_int (drop5 elem) = inl e ->
  suffix_numbers demos = inl ValueError.
Proof.
  intros Hin He. induction demos as [|d rest IH]; [destruct Hin|].
  cbn [suffix_numbers].
  destruct (py_int (drop5 d)) as [e'|k] eqn:Hd.
  - now rewrite (py_int_raises _ _ Hd).
  - destruct Hin as [->|Hin]; [congruence|]. now rewrite (IH Hin).
Qed.

(** Replacing the element at a position. *)
Lemma replace_perm {A : Type} (k : nat) (u v : A) (l : list A) :
  nth_error l k = Some u ->
  Permutation (u :: firstn k l ++ v :: skipn (S k) l) (v :: l).
Proof.
  revert l. induction k as [|k IH]; intros [|x l] H; try discriminate.
  - cbn in H. injection H as ->. cbn. apply perm_swap.
  - cbn [nth_error] in H. cbn [firstn skipn app].
    etransitivity; [apply perm_swap|].
    etransitivity; [apply perm_skip, (IH l H)|]. apply perm_swap.
Qed.

Lemma replace_nth {A : Type} (k : nat) (v : A) (l : list A) :
  (k < List.length l)%nat ->
  nth_error (firstn k l ++ v :: skipn (S k) l) k = Some v.
Proof.
  intros H. rewrite nth_error_app2 by (rewrite length_firstn; lia).
  rewrite length_firstn. replace (k - Nat.min k (List.length l))%nat with 0%nat by lia.
  reflexivity.
Qed.

Lemma replace_other {A : Type} (k j : nat) (v : A) (l : list A) :
  (k < List.length l)%nat -> j <> k ->
  nth_error (firstn k l ++ v :: skipn (S k) l) j = nth_error l j.
Proof.
  revert j l. induction k as [|k IH]; intros j [|x l] H Hne; cbn in H; try lia.
  - destruct j; [congruence|]. reflexivity.
  - destruct j; [reflexivity|]. cbn [firstn skipn app nth_error].
    apply IH; lia.
Qed.

Lemma swap_perm {A : Type} (i j : nat) (x : list A) : Permutation (swap i j x) x.
Proof.
  unfold swap. destruct (nth_error x i) as [a|] eqn:Hi; [|reflexivity].
  destruct (nth_error x j) as [b|] eqn:Hj; [|reflexivity].
  assert (i < List.length x)%nat as Hli by (apply nth_error_Some; congruence).
  set (x1 := firstn i x ++ b :: skipn (S i) x).
  assert (nth_error x1 j = Some b) as Hj1.
  { subst x1. destruct (Nat.eq_dec j i) as [->|Hne].
    - now apply replace_nth.
    - now rewrite replace_other. }
  apply (Permutation_cons_inv (a := b)).
  etransitivity; [apply (replace_perm j b a x1 Hj1)|].
  subst x1. apply (replace_perm i a b x Hi).
Qed.

Lemma shuffle_from_perm {A : Type} (i c : nat) (draws : nat -> Z) (x : list A) :
  Permutation (shuffle_from i c draws x) x.
Proof.
  revert c x. induction i as [|i IH]; intros c x; cbn [shuffle_from].
  - reflexivity.
  - etransitivity; [apply IH|apply swap_perm].
Qed.

Lemma random_shuffle_perm {A : Type} (draws : nat -> Z) (x : list A) :
  Permutation (random_shuffle draws x) x.
Proof. apply shuffle_from_perm. Qed.

Section EpisodeList.

Context {B : Backend} {W : World}.

(** X15.  An episode group whose name, after its first five characters,
    is not an integer makes the listing fail with ValueError: the run
    stops before any episode is played. *)
Theorem unnumbered_episode_stops_the_listing
    (args : Args) (f : h5file) (shuffle_draws : nat -> Z)
    (d : list (string * episode)) (elem : string) (e : exn) :
  filter_key args = None ->
  f_data f = Some d ->
  In elem (map fst d) ->
  py_int (drop5 elem) = inl e ->
  list_demos args f shuffle_draws = ([], inl ValueError).
Proof.
  intros Hk Hd Hin He. unfold list_demos. rewrite Hk, Hd, bind_ret.
  unfold order_demos. now rewrite (suffix_numbers_fails _ elem e Hin He).
Qed.

(** X16.  With --n k, for k not negative, the episodes played are the
    first k of a rearrangement of the ordered list: no episode is played
    twice unless it is listed twice, and all are played when k is at
    least their number. *)
Theorem limited_run_plays_a_sample
    (args : Args) (f : h5file) (shuffle_draws : nat -> Z)
    (d : list (string * episode)) (ordered : list string) (k : Z) :
  filter_key args = None ->
  f_data f = Some d ->
  order_demos (map fst d) = inr ordered ->
  n args = Some k ->
  0 <= k ->
  exists chosen rest,
    list_demos args f shuffle_draws = ([], inr chosen)
    /\ Permutation (chosen ++ rest) ordered
    /\ List.length chosen = Nat.min (Z.to_nat k) (List.length ordered).
Proof.
  intros Hk Hd Ho Hn Hpos. unfold list_demos.
  rewrite Hk, Hd, bind_ret, Ho, bind_lift_inr, Hn.
  unfold py_slice_to. destruct (k <? 0) eqn:E; [lia|].
  set (s := random_shuffle shuffle_draws ordered).
  exists (firstn (Z.to_nat k) s), (skipn (Z.to_nat k) s).
  split; [reflexivity|]. split.
  - rewrite firstn_skipn. apply random_shuffle_perm.
  - rewrite length_firstn. f_equal.
    apply Permutation_length, random_shuffle_perm.
Qed.

End EpisodeList.

(** ** ObservationKeyToModalityDict *)

Lemma assoc_setitem_same (d : ObsKeys.dict) (k v : string) :
  assoc k (ObsKeys.setitem d k v) = Some v.
Proof.
  induction d as [|[k' v'] rest IH]; cbn [ObsKeys.setitem assoc].
  - now rewrite String.eqb_refl.
  - destruct (String.eqb k k') eqn:E; cbn [assoc].
    + now rewrite String.eqb_refl.
    + now rewrite E.
Qed.

Lemma assoc_setitem_other (d : ObsKeys.dict) (k k0 v : string) :
  k0 <> k -> assoc k0 (ObsKeys.setitem d k v) = assoc k0 d.
Proof.
  intros Hne. apply String.eqb_neq in Hne.
  induction d as [|[k' v'] rest IH]; cbn [ObsKeys.setitem assoc].
  - now rewrite Hne.
  - destruct (String.eqb k k') eqn:E; cbn [assoc].
    + apply String.eqb_eq in E. subst k'. now rewrite Hne.
    + now rewrite IH.
Qed.

(** X17.  Looking a key up in an ObservationKeyToModalityDict never
    fails.  A key that is there gives its value and changes and prints
    nothing; a key that is not there is announced, added with the
    modality low_dim, which is the value returned, and no other key is
    touched.  A second lookup of the key is silent. *)
Theorem modality_lookup_never_fails (d : ObsKeys.dict) (item : string) :
  exists v,
    ObsKeys.value (ObsKeys.getitem d item) = inr v
    /\ assoc item (ObsKeys.after (ObsKeys.getitem d item)) = Some v
    /\ (forall k, k <> item ->
                  assoc k (ObsKeys.after (ObsKeys.getitem d item)) = assoc k d)
    /\ match assoc item d with
       | Some v' =>
           v = v'
           /\ ObsKeys.after (ObsKeys.getitem d item) = d
           /\ ObsKeys.announced (ObsKeys.getitem d item) = []
       | None =>
           v = "low_dim"%string
           /\ ObsKeys.announced (ObsKeys.getitem d item) = [item]
       end
    /\ ObsKeys.getitem (ObsKeys.after (ObsKeys.getitem d item)) item
       = {| ObsKeys.announced := [];
            ObsKeys.after := ObsKeys.after (ObsKeys.getitem d item);
            ObsKeys.value := inr v |}.
Proof.
  unfold ObsKeys.getitem. destruct (assoc item d) as [v'|] eqn:Hd;
    cbn [ObsKeys.value ObsKeys.after ObsKeys.announced].
  - exists v'. rewrite Hd. repeat split. now rewrite Hd.
  - exists "low_dim"%string. rewrite assoc_setitem_same. repeat split.
    + intros k Hk. now apply assoc_setitem_other.
    + now rewrite assoc_setitem_same.
Qed.

(** ** Failures of reset_to *)

Section ResetFailures.

Context {B : Backend}.

(** X18.  [reset_to] fails in one way only: the state carries a scene
    and episode meta-data that are not JSON.  It then raises the
    decoder's error before any call into the environment. *)
Theorem reset_to_fails_only_on_undecodable_meta (env : Env) (state : state_dict) :
  (forall e,
      result_of (reset_to env state) = inl e ->
      reset_to env state = ([], inl JSONDecodeError)
      /\ exists model s,
           sd_model state = Some model
           /\ sd_ep_meta state = Some (Some s)
           /\ json_loads s = None)
  /\ (forall model s,
         sd_model state = Some model ->
         sd_ep_meta state = Some (Some s) ->
         json_loads s = None ->
         reset_to env state = ([], inl JSONDecodeError)).
Proof.
  split.
  - intros e He. destruct (loadable false state) eqn:Hl.
    + destruct (reset_to_restores false env state Hl) as (t & env' & Heq & _).
      rewrite Heq in He. discriminate.
    + unfold loadable in Hl.
      destruct (sd_ep_meta state) as [[s|]|] eqn:Hs; try discriminate.
      destruct (sd_model state) as [model|] eqn:Hm; try discriminate.
      destruct (json_loads s) as [j|] eqn:Hj; try discriminate.
      split; [|now exists model, s].
      unfold reset_to, decode_json. now rewrite Hm, Hs, Hj.
  - intros model s Hm Hs Hj. unfold reset_to, decode_json.
    now rewrite Hm, Hs, Hj.
Qed.

End ResetFailures.

(** ** An episode in state replay *)

Lemma py_index_last {A : Type} (l : list A) :
  l <> [] -> exists final, py_index l (-1) = inr final.
Proof.
  intros Hne.
  assert (0 < py_len l) as Hlen.
  { unfold py_len. destruct l; [congruence|]. cbn [List.length]. lia. }
  destruct (py_index_inr l (-1 + py_len l) ltac:(lia)) as (final & _ & Hnth).
  exists final. unfold py_index. change (-1 <? 0) with true. cbv iota.
  destruct ((-1 + py_len l <? 0) || (py_len l <=? -1 + py_len l)) eqn:E.
  - exfalso. apply orb_true_iff in E as [E|E];
      [apply Z.ltb_lt in E|apply Z.leb_le in E]; lia.
  - now rewrite Hnth.
Qed.

Section StateReplayEpisode.

Context {B : Backend} {W : World}.

Lemma restored_none (t : list event) :
  count is_restore t = 0%nat -> restored_states t = [].
Proof.
  unfold count. induction t as [|ev t IH]; [reflexivity|].
  destruct ev; cbn [filter is_restore restored_states flat_map app];
    try exact IH. discriminate.
Qed.

Lemma stepped_none (t : list event) :
  count is_step t = 0%nat -> stepped_actions t = [].
Proof.
  unfold count. induction t as [|ev t IH]; [reflexivity|].
  destruct ev; cbn [filter is_step stepped_actions flat_map app];
    try exact IH. discriminate.
Qed.

Lemma emit_all_run (evs : list event) : emit_all evs = (evs, inr tt).
Proof.
  induction evs as [|ev evs IH]; cbn [emit_all]; [reflexivity|].
  now rewrite bind_emit, IH.
Qed.


End StateReplayEpisode.

(** ** Windows, the viewer and workers that exit *)

Section Edges.

Context {B : Backend} {W : World}.


Lemma count_below (p q : event -> bool) (t : list event) :
  (forall ev, p ev = true -> q ev = true) ->
  count q t = 0%nat -> count p t = 0%nat.
Proof.
  intros H. unfold count. induction t as [|ev t IH]; [reflexivity|].
  cbn [filter]. destruct (p ev) eqn:E.
  - now rewrite (H ev E).
  - destruct (q ev); [discriminate|exact IH].
Qed.

Lemma clean_viewer_advance (states : list StateVec)
    (actions : option (list Action)) (verbose : bool) (env : Env) (i : Z) :
  clean is_viewer (advance states actions verbose env i).
Proof.
  unfold advance. destruct actions.
  - clean_all.
  - apply clean_bind; [clean_all|]. intros s.
    unfold reset_to. clean_all.
Qed.

Lemma loop_body_on_screen (args : Args) (states : list StateVec)
    (actions : option (list Action)) (video_skip : Z)
    (camera_names : option (list string)) (verbose : bool)
    (env : Env) (vc i : Z) :
  actions_fit states actions = true ->
  0 <= i < py_len states ->
  exists t env',
    loop_body args states actions true None video_skip camera_names verbose
      env vc i = (t, inr (env', vc))
    /\ count is_viewer_update t = 1%nat
    /\ count is_append t = 0%nat.
Proof.
  intros Hfit Hi. unfold loop_body.
  destruct (advance_ok states actions verbose Hfit env i Hi)
    as (ta & e1 & Hadv & _ & Aa).
  assert (count is_viewer ta = 0%nat) as Va.
  { change ta with (trace_of (ta, @inr exn _ e1)). rewrite <- Hadv.
    apply clean_viewer_advance. }
  apply (count_below is_viewer_update) in Va;
    [|intros ev; destruct ev; cbn; congruence].
  rewrite (bind_inr _ _ _ _ Hadv). cbn [fst snd].
  unfold show, capture, on_viewer.
  destruct (viewer_is_none e1) eqn:E;
    [rewrite bind_call, initialize_renderer_binds_viewer
    |rewrite bind_ret, E];
    cbn [call emit ret bind fst snd app];
    (eexists _, _; split; [reflexivity|]);
    rewrite !count_app, Va, Aa; split; reflexivity.
Qed.

Lemma for_steps_on_screen (args : Args) (states : list StateVec)
    (actions : option (list Action)) (video_skip : Z)
    (camera_names : option (list string)) (verbose : bool) (idxs : list Z) :
  actions_fit states actions = true ->
  Forall (fun i => 0 <= i < py_len states) idxs ->
  forall env vc,
  exists t env',
    for_steps args states actions true None video_skip camera_names false
      verbose idxs env vc = (t, inr (env', vc))
    /\ count is_viewer_update t = List.length idxs
    /\ count is_append t = 0%nat.
Proof.
  intros Hfit Hin. induction Hin as [|i rest Hi _ IH]; intros env vc.
  - exists [], env. repeat split.
  - cbn [for_steps].
    destruct (loop_body_on_screen args states actions video_skip camera_names
                verbose env vc i Hfit Hi) as (tb & e1 & Hb & Vb & Ab).
    destruct (IH e1 vc) as (tr & e2 & Hr & Vr & Ar).
    rewrite bind_emit, (bind_inr _ _ _ _ Hb). cbn [fst snd].
    rewrite Hr. cbn [fst snd].
    exists (Progress i :: tb ++ tr), e2. split; [reflexivity|].
    change (Progress i :: tb ++ tr) with ([Progress i] ++ tb ++ tr).
    rewrite !count_app, Vb, Vr, Ab, Ar. split; reflexivity.
Qed.


(** X22.  A worker that ends with SystemExit ends the parent too: the
    parent prints the reports of the failures it collected before, then
    raises the worker's SystemExit, and the process exits with that
    status; the futures that come after are not looked at. *)
Theorem worker_exit_ends_the_parent
    (before after : list (string * T unit)) (ep : string) (job : T unit)
    (code : Z) :
  failures_are_exceptions before ->
  result_of job = inl (SystemExit code) ->
  collect (before ++ (ep, job) :: after)
  = (reports before, inl (SystemExit code))
  /\ exit_status (result_of (collect (before ++ (ep, job) :: after))) = code.
Proof.
  intros Hexc Hjob.
  assert (collect (before ++ (ep, job) :: after)
          = (reports before, inl (SystemExit code))) as Hrun.
  { unfold failures_are_exceptions in Hexc.
    induction before as [|[ep0 job0] rest IH].
    - cbn [app collect reports flat_map]. now rewrite Hjob.
    - cbn [app collect reports flat_map fst snd].
      assert (forall ep' job' e, In (ep', job') rest ->
                                 result_of job' = inl e ->
                                 is_Exception e = true) as Hrest.
      { intros ep' job' e Hin. apply (Hexc ep' job' e). now right. }
      specialize (IH Hrest).
      destruct (result_of job0) as [e|[]] eqn:Hres.
      + rewrite (Hexc ep0 job0 e (or_introl eq_refl) Hres).
        rewrite bind_emit, IH. reflexivity.
      + rewrite IH. reflexivity. }
  split; [exact Hrun|]. now rewrite Hrun.
Qed.

End Edges.

(** ** An episode in action replay *)

Section ActionReplayEpisode.

Context {B : Backend} {W : World}.


End ActionReplayEpisode.

(** ** The theorems at work on the toy dataset *)

Section OnTheToyDataset.

#[local] Existing Instance Toy.backend.
#[local] Existing Instance Toy.world.





Lemma render_and_video_never_both_witness :
  render (Toy.args_with None 1 false false true 1) = true
  /\ video_path (Toy.args_with None 1 false false true 1) = Some "out.mp4"
  /\ render_image_names (Toy.args_with None 1 false false true 1)
     = Some ["egoview"]
  /\ use_obs (Toy.args_with None 1 false false true 1) = false
  /\ check_args (Toy.args_with None 1 false false true 1)
     = ([], inr (Toy.args_with None 1 false false true 1))
  /\ count is_open_writer
       (trace_of (process_demo (Toy.args_with None 1 false false true 1)
                    "demo_2" 0)) = 0%nat.
Proof.
  destruct (@render_and_video_never_both Toy.backend Toy.world)
    as (_ & H2 & H3 & _).
  do 4 (split; [reflexivity|]). split.
  - apply (H2 _ "egoview" "out.mp4"); reflexivity.
  - apply H3. reflexivity.
Defined.

Lemma toy_completion_order : Permutation [2; 0; 1]%nat (seq 0 3).
Proof.
  apply perm_trans with (l' := [0; 2; 1]%nat); [apply perm_swap|].
  apply perm_skip, perm_swap.
Defined.

Lemma parallel_isolates_sequential_propagates_witness :
  (1 < num_parallel_jobs (Toy.args_with None 1 false false false 2)
   /\ parent (dispatch (Toy.args_with None 1 false false false 2)
                ["demo_2"; "demo_3"; "demo_10"] (fun _ => 0) [2; 0; 1]%nat)
      = ([PrintEpisodeError "demo_3" ParseError], inr tt)
   /\ completions
        (workers (dispatch (Toy.args_with None 1 false false false 2)
                    ["demo_2"; "demo_3"; "demo_10"] (fun _ => 0) [2; 0; 1]%nat))
      = 2%nat)
  /\ (num_parallel_jobs Toy.demo_args = 1
      /\ result_of
           (parent (dispatch Toy.demo_args (["demo_2"] ++ "demo_3" :: ["demo_10"])
                      (fun _ => 0) []))
         = inl ParseError).
Proof.
  destruct (@parallel_isolates_sequential_propagates Toy.backend Toy.world)
    as (Hpar & Hseq).
  split.
  - split; [reflexivity|].
    destruct (Hpar (Toy.args_with None 1 false false false 2)
                ["demo_2"; "demo_3"; "demo_10"] (fun _ => 0) [2; 0; 1]%nat
                eq_refl toy_completion_order) as (_ & _ & _ & Hone).
    apply (Hone
             [("demo_2",
               process_demo (Toy.args_with None 1 false false false 2)
                 "demo_2" 0)]
             "demo_3"
             (process_demo (Toy.args_with None 1 false false false 2)
                "demo_3" 0)
             [("demo_10",
               process_demo (Toy.args_with None 1 false false false 2)
                 "demo_10" 0)]
             ParseError).
    + reflexivity.
    + reflexivity.
    + reflexivity.
    + intros j [<-|[<-|[]]]; reflexivity.
  - split; [reflexivity|].
    apply (Hseq Toy.demo_args ["demo_2"] "demo_3" ["demo_10"] (fun _ => 0) []
             ParseError eq_refl).
    + intros [|[|i]] ep' Hnth; try discriminate.
      injection Hnth as <-. reflexivity.
    + reflexivity.
Defined.

Lemma exit_status_of_run_witness :
  (h5py_File (dataset (Toy.args_with None 1 false false false 1)) <> None
   /\ h5py_File "missing.hdf5" = None)
  /\ (result_of (check_args (Toy.args_with None 1 false false false 2))
      = inr (Toy.args_with None 1 false false false 2)
      /\ exit_status
           (result_of
              (parent (playback_dataset (Toy.args_with None 1 false false false 2)
                         (fun _ => 0) (fun _ => 0) [2; 0; 1]%nat))) = 0)
  /\ (num_parallel_jobs Toy.demo_args = 1
      /\ result_of
           (parent (playback_dataset Toy.demo_args (fun _ => 0) (fun _ => 0) []))
         = inl ParseError).
Proof.
  destruct (@exit_status_of_run Toy.backend Toy.world) as (_ & Hpar & Hseq).
  split; [split; [discriminate|reflexivity]|]. split.
  - split; [reflexivity|].
    apply (Hpar (Toy.args_with None 1 false false false 2)
             (Toy.args_with None 1 false false false 2) Toy.demo_file
             ["demo_2"; "demo_3"; "demo_10"] (fun _ => 0) (fun _ => 0)
             [2; 0; 1]%nat eq_refl eq_refl eq_refl eq_refl toy_completion_order).
    intros ep job e [Hj|[Hj|[Hj|[]]]]; injection Hj as <- <-;
      vm_compute; intros He; try discriminate He.
    injection He as <-. reflexivity.
  - split; [reflexivity|].
    apply (Hseq Toy.demo_args Toy.demo_args Toy.demo_file ["demo_2"] "demo_3"
             ["demo_10"] (fun _ => 0) (fun _ => 0) [] ParseError
             eq_refl eq_refl eq_refl eq_refl).
    + intros [|[|i]] ep' Hnth; try discriminate.
      injection Hnth as <-. reflexivity.
    + reflexivity.
Defined.




(** ** Runs that contradict the specification's wording *)

(** C5 as written fails: a run that asks for on-screen rendering and
    names a video path passes the argument check and plays its first
    episode on screen. *)
Lemma render_with_video_path_is_accepted :
  render (Toy.args_with None 1 false false true 1) = true
  /\ video_path (Toy.args_with None 1 false false true 1) = Some "out.mp4"
  /\ returned (check_args (Toy.args_with None 1 false false true 1)) = true
  /\ firstn 10
       (trace_of
          (parent (playback_dataset (Toy.args_with None 1 false false true 1)
                     (fun _ => 0) (fun _ => 0) [])))
     = [PrintPlayingBack "demo_2"; CallMake "Kitchen" false; CallSetEpMeta;
        CallReset; CallResetFromXml "<mujoco/>"; CallSimReset;
        CallSetState [0; 0]; CallForward; CallUpdateState; Progress 0].
Proof. repeat split. Qed.

(** C7 as written fails: the dataset opens, the second episode of a
    sequential run fails, and the process ends with that exception and
    status 1. *)
Lemma sequential_failure_exits_nonzero :
  h5py_File (dataset Toy.demo_args) = Some Toy.demo_file
  /\ num_parallel_jobs Toy.demo_args = 1
  /\ result_of (process_demo Toy.demo_args "demo_3" 0) = inl ParseError
  /\ result_of
       (parent (playback_dataset Toy.demo_args (fun _ => 0) (fun _ => 0) []))
     = inl ParseError
  /\ exit_status
       (result_of
          (parent (playback_dataset Toy.demo_args (fun _ => 0) (fun _ => 0) [])))
     = 1.
Proof. repeat split. Qed.


End OnTheToyDataset.

(** ** The further properties at work on the toy dataset *)

Section FurtherOnTheToyDataset.

#[local] Existing Instance Toy.backend.
#[local] Existing Instance Toy.world.




Lemma first_only_writes_one_observation_witness :
  obs_ready Toy.demo_episode ["cam"] = true
  /\ exists len t,
       obs_length Toy.demo_episode ["cam"] = Some len
       /\ playback_trajectory_with_obs Toy.demo_episode (Some "out.mp4") 3
            (Some ["cam"]) true = (t, inr tt)
       /\ count is_append t = (if 0 <? len then 1%nat else 0%nat).
Proof.
  split; [reflexivity|].
  apply (first_only_writes_one_observation Toy.demo_episode "out.mp4" 3
           ["cam"]); [lia|reflexivity].
Defined.


Lemma zero_video_skip_fails_observation_playback_witness :
  obs_images Toy.demo_episode "cam" = inr ToyRuns.cam_images
  /\ 0 < py_len ToyRuns.cam_images
  /\ playback_trajectory_with_obs Toy.demo_episode (Some "out.mp4") 0
       (Some ["cam"]) false = ([], inl ZeroDivisionError).
Proof.
  split; [reflexivity|]. split; [reflexivity|].
  apply (zero_video_skip_fails_observation_playback Toy.demo_episode
           (Some "out.mp4") "cam" [] false ToyRuns.cam_images);
    reflexivity.
Defined.

Lemma episodes_write_distinct_files_witness :
  In (OpenWriter "out_demo_2.mp4") (trace_of (process_demo Toy.demo_args "demo_2" 0))
  /\ In (OpenWriter "out_demo_10.mp4")
       (trace_of (process_demo Toy.demo_args "demo_10" 0))
  /\ "demo_2"%string <> "demo_10"%string
  /\ "out_demo_2.mp4"%string <> "out_demo_10.mp4"%string.
Proof.
  assert (In (OpenWriter "out_demo_2.mp4")
            (trace_of (process_demo Toy.demo_args "demo_2" 0))) as H1
    by (unfold process_demo; rewrite trace_bind; apply in_or_app; right;
        cbn [emit result_of snd]; rewrite trace_bind; apply in_or_app; left;
        left; reflexivity).
  assert (In (OpenWriter "out_demo_10.mp4")
            (trace_of (process_demo Toy.demo_args "demo_10" 0))) as H2
    by (unfold process_demo; rewrite trace_bind; apply in_or_app; right;
        cbn [emit result_of snd]; rewrite trace_bind; apply in_or_app; left;
        left; reflexivity).
  assert ("demo_2"%string <> "demo_10"%string) as H3 by discriminate.
  split; [exact H1|]. split; [exact H2|]. split; [exact H3|].
  exact (episodes_write_distinct_files Toy.demo_args "demo_2" "demo_10" 0 0
           "out_demo_2.mp4" "out_demo_10.mp4" H1 H2 H3).
Defined.

Lemma default_video_file_of_episode_witness :
  result_of (check_args (ToyRuns.bare_args false true false))
  = inr (with_defaults (ToyRuns.bare_args false true false))
  /\ video_path (ToyRuns.bare_args false true false) = None
  /\ render (ToyRuns.bare_args false true false) = false
  /\ exists rest,
       trace_of (process_demo
                   (with_defaults (ToyRuns.bare_args false true false))
                   "demo_2" 0)
       = PrintPlayingBack "demo_2"
         :: OpenWriter (split_hdf5_head
                          (dataset (ToyRuns.bare_args false true false))
                        ++ (if use_actions (ToyRuns.bare_args false true false)
                            then "_use_actions"
                            else if use_abs_actions
                                      (ToyRuns.bare_args false true false)
                                 then "_use_abs_actions"
                                 else "")
                        ++ "_" ++ "demo_2" ++ ".mp4")
         :: rest.
Proof.
  split; [reflexivity|]. split; [reflexivity|]. split; [reflexivity|].
  apply (default_video_file_of_episode (ToyRuns.bare_args false true false)
           (with_defaults (ToyRuns.bare_args false true false)) "demo_2" 0);
    reflexivity.
Defined.

Lemma toy_calls_fail_with_exceptions :
  (forall j b e, env_kwargs_of j b = inl e -> is_Exception e = true)
  /\ (forall s e, hide_pinch_sites s = inl e -> is_Exception e = true).
Proof.
  split.
  - intros [name|] b e H; [discriminate|]. injection H as <-. reflexivity.
  - intros s e. cbn. destruct (String.eqb s ""); [|discriminate].
    intros H. injection H as <-. reflexivity.
Defined.

Lemma parallel_run_outlives_its_episodes_witness :
  h5py_File (dataset (Toy.args_with None 1 false false false 2))
  = Some Toy.demo_file
  /\ h5py_File (expanduser (dataset (Toy.args_with None 1 false false false 2)))
     = Some Toy.demo_file
  /\ 1 < num_parallel_jobs (Toy.args_with None 1 false false false 2)
  /\ let r := dispatch (Toy.args_with None 1 false false false 2)
                ["demo_2"; "demo_10"; "demo_3"] (fun _ => 0) [2; 0; 1]%nat in
     failures_are_exceptions (workers r)
     /\ returned (parent r) = true
     /\ Permutation (trace_of (parent r)) (reports (workers r)).
Proof.
  split; [reflexivity|]. split; [reflexivity|]. split; [reflexivity|].
  apply (parallel_run_outlives_its_episodes
           (Toy.args_with None 1 false false false 2)
           ["demo_2"; "demo_10"; "demo_3"] (fun _ => 0) [2; 0; 1]%nat
           Toy.demo_file Toy.demo_file);
    [reflexivity|reflexivity|exact (proj1 toy_calls_fail_with_exceptions)
    |exact (proj2 toy_calls_fail_with_exceptions)|reflexivity
    |exact toy_completion_order].
Defined.

Lemma sequential_run_plays_in_list_order_witness :
  played_of (trace_of (process_demo Toy.demo_args "demo_2" 0)) = ["demo_2"]
  /\ exists rest,
       ["demo_2"; "demo_3"; "demo_10"]
       = played_of
           (trace_of (run_sequential Toy.demo_args
                        ["demo_2"; "demo_3"; "demo_10"] (fun _ => 0) 0))
         ++ rest.
Proof.
  destruct (sequential_run_plays_in_list_order Toy.demo_args
              ["demo_2"; "demo_3"; "demo_10"] (fun _ => 0) 0)
    as (H1 & rest & H2 & _).
  split; [apply H1|]. exists rest. exact H2.
Defined.

Lemma observation_playback_is_offline_witness :
  (use_obs ToyRuns.obs_args = true
   /\ count is_sim_call (trace_of (process_demo ToyRuns.obs_args "demo_2" 0))
      = 0%nat)
  /\ (returned (make_env_from_args Toy.demo_args) = true
      /\ count is_sim_call (trace_of (make_env_from_args Toy.demo_args))
         = 1%nat).
Proof.
  split.
  - split; [reflexivity|].
    apply (proj1 (observation_playback_is_offline ToyRuns.obs_args "demo_2" 0)).
    reflexivity.
  - split; [reflexivity|].
    apply (proj2 (observation_playback_is_offline Toy.demo_args "demo_2" 0)).
    reflexivity.
Defined.

Lemma on_screen_needs_a_camera_name_witness :
  render (ToyRuns.bare_args false false true) = true
  /\ render_image_names (ToyRuns.bare_args false false true) = None
  /\ let r := playback_dataset (ToyRuns.bare_args false false true)
                (fun _ => 0) (fun _ => 0) [] in
     returned (parent r) = false
     /\ workers r = []
     /\ played_of (trace_of (parent r)) = []
     /\ (returned (get_env_metadata_from_dataset
                     (dataset (ToyRuns.bare_args false false true))
                     (dataset (ToyRuns.bare_args false false true))) = true ->
         result_of (parent r) = inl (AssertionError AssertOneCamera)).
Proof.
  split; [reflexivity|]. split; [reflexivity|].
  apply (on_screen_needs_a_camera_name (ToyRuns.bare_args false false true)
           (fun _ => 0) (fun _ => 0) []); reflexivity.
Defined.

Lemma unnamed_observation_playback_reads_r_image_witness :
  render_image_names (ToyRuns.bare_args true false false) = None
  /\ use_obs (ToyRuns.bare_args true false false) = true
  /\ result_of (check_args (ToyRuns.bare_args true false false))
     = inr (with_defaults (ToyRuns.bare_args true false false))
  /\ h5py_File (dataset (ToyRuns.bare_args true false false))
     = Some Toy.demo_file
  /\ get_episode Toy.demo_file "demo_2" = inr Toy.demo_episode
  /\ assoc "r_image" (ep_obs Toy.demo_episode) = None
  /\ result_of (process_demo
                  (with_defaults (ToyRuns.bare_args true false false))
                  "demo_2" 0) = inl KeyError
  /\ count is_append
       (trace_of (process_demo
                    (with_defaults (ToyRuns.bare_args true false false))
                    "demo_2" 0)) = 0%nat.
Proof.
  do 6 (split; [reflexivity|]).
  apply (unnamed_observation_playback_reads_r_image
           (ToyRuns.bare_args true false false)
           (with_defaults (ToyRuns.bare_args true false false))
           Toy.demo_file "demo_2" Toy.demo_episode 0); reflexivity.
Defined.

Lemma unnumbered_episode_stops_the_listing_witness :
  filter_key Toy.demo_args = None
  /\ f_data ToyRuns.odd_file = Some ToyRuns.odd_data
  /\ In "notes"%string (map fst ToyRuns.odd_data)
  /\ py_int (drop5 "notes") = inl ValueError
  /\ list_demos Toy.demo_args ToyRuns.odd_file (fun _ => 0)
     = ([], inl ValueError).
Proof.
  assert (In "notes"%string (map fst ToyRuns.odd_data)) as Hin
    by (right; left; reflexivity).
  split; [reflexivity|]. split; [reflexivity|]. split; [exact Hin|].
  split; [reflexivity|].
  exact (unnumbered_episode_stops_the_listing Toy.demo_args ToyRuns.odd_file
           (fun _ => 0) ToyRuns.odd_data "notes" ValueError
           eq_refl eq_refl Hin eq_refl).
Defined.

Lemma limited_run_plays_a_sample_witness :
  filter_key ToyRuns.sample_args = None
  /\ order_demos ["demo_10"; "demo_2"; "demo_3"]
     = inr ["demo_2"; "demo_3"; "demo_10"]
  /\ n ToyRuns.sample_args = Some 2
  /\ exists chosen rest,
       list_demos ToyRuns.sample_args Toy.demo_file (fun _ => 1)
       = ([], inr chosen)
       /\ Permutation (chosen ++ rest) ["demo_2"; "demo_3"; "demo_10"]
       /\ List.length chosen = Nat.min (Z.to_nat 2) 3.
Proof.
  split; [reflexivity|]. split; [reflexivity|]. split; [reflexivity|].
  apply (limited_run_plays_a_sample ToyRuns.sample_args Toy.demo_file
           (fun _ => 1)
           [("demo_10", Toy.demo_episode); ("demo_2", Toy.demo_episode);
            ("demo_3", Toy.broken_episode)]%string
           ["demo_2"; "demo_3"; "demo_10"] 2 eq_refl eq_refl eq_refl eq_refl).
  lia.
Defined.

Lemma modality_lookup_never_fails_witness :
  exists v,
    ObsKeys.value (ObsKeys.getitem ToyRuns.modalities "latent") = inr v
    /\ assoc "robot0_eef_pos"
         (ObsKeys.after (ObsKeys.getitem ToyRuns.modalities "latent"))
       = Some "low_dim"%string.
Proof.
  destruct (modality_lookup_never_fails ToyRuns.modalities "latent")
    as (v & Hv & _ & Hother & _).
  exists v. split; [exact Hv|].
  rewrite (Hother "robot0_eef_pos"%string); [reflexivity|discriminate].
Defined.

Lemma reset_to_fails_only_on_undecodable_meta_witness :
  json_loads "" = None
  /\ reset_to Toy.demo_env
       {| sd_states := None; sd_model := Some "<mujoco/>"%string;
          sd_ep_meta := Some (Some ""%string) |}
     = ([], inl JSONDecodeError).
Proof.
  split; [reflexivity|].
  apply (proj2 (reset_to_fails_only_on_undecodable_meta Toy.demo_env
                  {| sd_states := None; sd_model := Some "<mujoco/>"%string;
                     sd_ep_meta := Some (Some ""%string) |})
           "<mujoco/>"%string ""%string); reflexivity.
Defined.




Lemma toy_failure_is_an_exception :
  failures_are_exceptions [ToyRuns.failed_job].
Proof.
  intros ep job e [H|[]] Hres. injection H as <- <-.
  injection Hres as <-. reflexivity.
Defined.

Lemma worker_exit_ends_the_parent_witness :
  result_of ToyRuns.exited_job = inl (SystemExit 1)
  /\ collect ([ToyRuns.failed_job]
              ++ ("demo_2"%string, ToyRuns.exited_job)
                 :: [("demo_10"%string, ret tt)])
     = (reports [ToyRuns.failed_job], inl (SystemExit 1))
  /\ exit_status
       (result_of
          (collect ([ToyRuns.failed_job]
                    ++ ("demo_2"%string, ToyRuns.exited_job)
                       :: [("demo_10"%string, ret tt)]))) = 1.
Proof.
  split; [reflexivity|].
  apply (worker_exit_ends_the_parent [ToyRuns.failed_job]
           [("demo_10"%string, ret tt)] "demo_2" ToyRuns.exited_job 1
           toy_failure_is_an_exception eq_refl).
Defined.


End FurtherOnTheToyDataset.
